(** * BYASE-GUI: the message center, the task supervisor and the poller

    A shallow embedding of [byase_gui/message.py], [byase_gui/task.py] and
    the timer callback of [byase_gui/long_running.py], with the properties
    of the task/message coordination layer proved about it; and of the
    panels of [byase_gui/long_running.py] and the requests that the
    panels of the program send, with what a user of the panels sees of a
    task.

    Python objects are modelled as follows.
    - A [multiprocessing.Queue] is the list of the items put and not yet
      taken, oldest first; [put] appends, [get] takes the head.
    - A [dict] with string keys is a [gmap string PyVal].
    - The one [QueueMessageCenter] of the program is shared by the
      controller, the supervisor and the child: it is part of the [World],
      and Python references to it are [VMc id].
    - What the processes do that is not a queue operation (the base
      [MessageCenter]'s own effect, starting, killing and joining a
      process, the calls made on the panel) is recorded in a trace, in the
      order in which it happens.
    - The functions of the [byase] library and of pandas are an interface
      ([Byase]): what such a call emits through the message center it is
      given, and whether it returns or raises. *)

From stdpp Require Import gmap strings list.
From Stdlib Require Import ZArith.

#[local] Open Scope string_scope.
#[local] Open Scope list_scope.

(** ** Python values *)

(** A cell of a [pandas.DataFrame]. *)
Inductive Cell :=
| CInt (n : Z)
| CStr (s : string).

(** A data frame: its columns, in order, each with its name. *)
Definition Frame : Type := list (string * list Cell).

Inductive PyVal :=
| VNone
| VBool (b : bool)
| VInt (n : Z)
| VStr (s : string)
| VPair (a b : PyVal)
| VFrame (df : Frame)
| VObj (repr : string)
| VMc (id : nat).

(** [v is not None] *)
Definition is_not_None (v : PyVal) : bool :=
  match v with
  | VNone => false
  | _ => true
  end.

(** An exception object. [Exc] is an instance of [Exception]; [BaseExc] is
    an instance of [BaseException] only ([SystemExit], [KeyboardInterrupt]),
    which [except Exception] does not catch. *)
Inductive PyExc :=
| Exc (cls msg : string)
| BaseExc (cls : string).

(** [isinstance(e, Exception)] *)
Definition is_Exception (e : PyExc) : bool :=
  match e with
  | Exc _ _ => true
  | BaseExc _ => false
  end.

Definition KeyError (key : string) : PyExc := Exc "KeyError" key.
Definition AssertionError : PyExc := Exc "AssertionError" "".

(** ** message.py *)

Module Message.

(** [class Instruction(Enum)] *)
Inductive Instruction := TERMINATE.

(** [class InputItem] *)
Record InputItem := {
  tool : string;
  params : gmap string PyVal
}.

(** [class OutputItem]; the defaults of [__init__] are those of
    [OutputItem_default]. *)
Record OutputItem := {
  log : option string;
  data : PyVal;
  progress_msg : option string;
  progress : option Z;
  task_started : bool;
  task_finished : bool
}.

Definition OutputItem_default : OutputItem :=
  {| log := None; data := VNone; progress_msg := None; progress := None;
     task_started := false; task_finished := false |}.

(** Who acts. *)
Inductive Actor := Controller | Supervisor | Child.

(** The side effect of the base class [byase.message.MessageCenter] that a
    method of [QueueMessageCenter] reaches through [super()]. *)
Inductive BaseCall :=
| Base_handle_log (line : string)
| Base_handle_progress (msg : string) (progress : option Z)
| Base_handle_data (payload : PyVal).

Inductive Action :=
| APutInput (item : InputItem)           (* _input_queue.put *)
| AGetInput (item : InputItem)           (* _input_queue.get *)
| APutInstruction (i : Instruction)      (* _instruction_queue.put *)
| AGetInstruction (i : Instruction)      (* _instruction_queue.get *)
| APut (item : OutputItem)               (* _output_queue.put *)
| AGet (item : OutputItem)               (* _output_queue.get *)
| ABase (call : BaseCall)                (* super().method(...) *)
| ALogError (e : PyExc)                  (* mc.log_error(e) *)
| ASetItem (key : string) (v : PyVal)    (* params[key] = v *)
| AStart (tool : string) (params : gmap string PyVal)
                                         (* Process(target=work, ...).start() *)
| ASleep                                 (* time.sleep(1) *)
| AKill (pid : nat)                      (* child.kill() *)
| ATerminate                             (* work_process.terminate() *)
| AJoin                                  (* work_process.join() *)
| APrintExc                              (* traceback.print_exc() *)
| AUncaught                              (* an exception leaves work() *)
| AForeign (id : nat).                   (* a call on another message center *)

Record Event := Ev { who : Actor; what : Action }.

(** The message center with its three queues, and what has happened so far. *)
Record World := {
  mc_id : nat;
  _instruction_queue : list Instruction;
  _input_queue : list InputItem;
  _output_queue : list OutputItem;
  trace : list Event
}.

(** Stateful code: a function from the world to a result and a world. *)
Definition M (A : Type) : Type := World -> A * World.

Definition ret {A} (a : A) : M A := fun w => (a, w).

Definition bind {A B} (c : M A) (k : A -> M B) : M B :=
  fun w => let '(a, w') := c w in k a w'.

Definition exec {A} (c : M A) (w : World) : World := snd (c w).

Declare Scope py_scope.
Delimit Scope py_scope with py.
Notation "x <- c ;; k" := (bind c (fun x => k))
  (at level 100, c at next level, right associativity) : py_scope.
Notation "c ;; k" := (bind c (fun _ => k))
  (at level 100, right associativity) : py_scope.
#[local] Open Scope py_scope.

Definition record (a : Actor) (act : Action) : M unit :=
  fun w =>
    (tt, {| mc_id := mc_id w;
            _instruction_queue := _instruction_queue w;
            _input_queue := _input_queue w;
            _output_queue := _output_queue w;
            trace := trace w ++ [Ev a act] |}).

(** [self._output_queue.put(item)] *)
Definition output_put (a : Actor) (item : OutputItem) : M unit :=
  fun w =>
    (tt, {| mc_id := mc_id w;
            _instruction_queue := _instruction_queue w;
            _input_queue := _input_queue w;
            _output_queue := _output_queue w ++ [item];
            trace := trace w ++ [Ev a (APut item)] |}).

(** [for x in xs: body(x)] *)
Fixpoint for_each {A} (xs : list A) (body : A -> M unit) : M unit :=
  match xs with
  | [] => ret tt
  | x :: rest => body x ;; for_each rest body
  end.

(** The base class [byase.message.MessageCenter] is outside the program.
    Its [handle_progress] logs the message: it hands the lines
    [progress_lines msg progress] (one line at the level [INFO], which is
    the default) to [self._handle_log], and that is the method of
    [QueueMessageCenter]. *)
Class BaseCenter := {
  progress_lines : string -> option Z -> list string
}.

Definition _handle_log (a : Actor) (line : string) : M unit :=
  record a (ABase (Base_handle_log line)) ;;
  output_put a
    {| log := Some line; data := VNone; progress_msg := None;
       progress := None; task_started := false; task_finished := false |}.

(** [super().handle_progress(msg, progress)] comes back to [_handle_log]
    with the lines of the message, before the progress event is put. *)
Definition handle_progress `{BaseCenter} (a : Actor) (msg : string)
    (progress : option Z) : M unit :=
  record a (ABase (Base_handle_progress msg progress)) ;;
  for_each (progress_lines msg progress) (_handle_log a) ;;
  output_put a
    {| log := None; data := VNone; progress_msg := Some msg;
       progress := progress; task_started := false; task_finished := false |}.

Definition handle_data (a : Actor) (payload : PyVal) : M unit :=
  record a (ABase (Base_handle_data payload)) ;;
  output_put a
    {| log := None; data := payload; progress_msg := None;
       progress := None; task_started := false; task_finished := false |}.

Definition signal_task_started (a : Actor) : M unit :=
  output_put a
    {| log := None; data := VNone; progress_msg := None;
       progress := None; task_started := true; task_finished := false |}.

Definition signal_task_finished (a : Actor) : M unit :=
  output_put a
    {| log := None; data := VNone; progress_msg := None;
       progress := None; task_started := false; task_finished := true |}.

(** [self._input_queue.put(InputItem(tool=tool, params=params))], for an
    item that the queue can pickle, as those of the panels are: [put]
    hands the item to the feeder thread of the queue, and an item that
    cannot be pickled there, such as one whose params hold a message
    center, would never arrive. *)
Definition send_input (a : Actor) (tool : string) (params : gmap string PyVal)
  : M unit :=
  fun w =>
    let item := {| tool := tool; params := params |} in
    (tt, {| mc_id := mc_id w;
            _instruction_queue := _instruction_queue w;
            _input_queue := _input_queue w ++ [item];
            _output_queue := _output_queue w;
            trace := trace w ++ [Ev a (APutInput item)] |}).

(** [receive_input] blocks on an empty queue: [None] is the caller still
    waiting, with the world as it was. *)
Definition receive_input (a : Actor)
  : M (option (string * gmap string PyVal)) :=
  fun w =>
    match _input_queue w with
    | [] => (None, w)
    | item :: rest =>
        (Some (tool item, params item),
         {| mc_id := mc_id w;
            _instruction_queue := _instruction_queue w;
            _input_queue := rest;
            _output_queue := _output_queue w;
            trace := trace w ++ [Ev a (AGetInput item)] |})
    end.

Definition receive_output (a : Actor) : M (option OutputItem) :=
  fun w =>
    match _output_queue w with
    | [] => (None, w)
    | item :: rest =>
        (Some item,
         {| mc_id := mc_id w;
            _instruction_queue := _instruction_queue w;
            _input_queue := _input_queue w;
            _output_queue := rest;
            trace := trace w ++ [Ev a (AGet item)] |})
    end.

Definition send_instruction (a : Actor) (i : Instruction) : M unit :=
  fun w =>
    (tt, {| mc_id := mc_id w;
            _instruction_queue := _instruction_queue w ++ [i];
            _input_queue := _input_queue w;
            _output_queue := _output_queue w;
            trace := trace w ++ [Ev a (APutInstruction i)] |}).

Definition receive_instruction (a : Actor) : M (option Instruction) :=
  fun w =>
    match _instruction_queue w with
    | [] => (None, w)
    | i :: rest =>
        (Some i,
         {| mc_id := mc_id w;
            _instruction_queue := rest;
            _input_queue := _input_queue w;
            _output_queue := _output_queue w;
            trace := trace w ++ [Ev a (AGetInstruction i)] |})
    end.

End Message.

(** ** Strings, as [_load_stats] uses them *)

Module Str.

(** [pat in s] *)
Fixpoint contains (pat s : string) : bool :=
  String.prefix pat s ||
  match s with
  | EmptyString => false
  | String _ rest => contains pat rest
  end.

(** [s.replace(old, new)] for a non-empty [old]: the occurrences of [old]
    are taken from left to right and do not overlap. [skip] counts the
    characters of an occurrence that are still to be dropped. *)
Fixpoint replace_from (skip : nat) (old new s : string) : string :=
  match s with
  | EmptyString => EmptyString
  | String c rest =>
      match skip with
      | S k => replace_from k old new rest
      | O =>
          if String.prefix old s
          then new +:+ replace_from (String.length old - 1) old new rest
          else String c (replace_from 0 old new rest)
      end
  end.

Definition replace (old new s : string) : string := replace_from 0 old new s.

(** [s.split(sep)[-1]] for a non-empty [sep]: what follows the last
    occurrence of [sep], the occurrences being taken from left to right.
    [cur] is the piece being read. *)
Fixpoint split_last_from (skip : nat) (sep cur s : string) : string :=
  match s with
  | EmptyString => cur
  | String c rest =>
      match skip with
      | S k => split_last_from k sep cur rest
      | O =>
          if String.prefix sep s
          then split_last_from (String.length sep - 1) sep "" rest
          else split_last_from 0 sep (cur +:+ String c "") rest
      end
  end.

Definition split_last (sep s : string) : string := split_last_from 0 sep "" s.

Definition newline : string := String (Ascii.ascii_of_nat 10) "".

End Str.

(** ** task.py *)

Module Task.
Import Message.
#[local] Open Scope py_scope.

(** *** The [byase] library and pandas *)

(** A call a library function makes on the message center of its params:
    a log line handed to [_handle_log], [handle_progress], [handle_data]. *)
Inductive Emit :=
| Emit_log (line : string)
| Emit_progress (msg : string) (progress : option Z)
| Emit_data (payload : PyVal).

(** One run of a library function: what it emits, then whether it raises
    or returns. *)
Record Run (A : Type) := {
  emitted : list Emit;
  outcome : PyExc + A
}.
Arguments emitted {A} _.
Arguments outcome {A} _.

(** One task of the annotation database: the fields that
    [tasks_db_fields_iterator] yields, joined with
    [get_segment_basic_info(fields['segment'])]. *)
Record TaskFields := {
  f_id : Cell;
  f_gene_name : Cell;
  f_location : Cell;
  f_isoforms_count : Cell;
  f_phased : Z;
  f_snps_count : Cell
}.

Class Byase := {
  (** the base class of the message center, which the library defines *)
  byase_center :: BaseCenter;
  generate_annotation : gmap string PyVal -> Run unit;
  inference : gmap string PyVal -> Run unit;
  inference_resume : gmap string PyVal -> Run unit;
  stats : gmap string PyVal -> Run (gmap string PyVal);
  plot_task : gmap string PyVal -> Run PyVal;
  (** [AnnotationDB(task_dir)], read task by task: the tasks it yields,
      and the exception, if any, that ends the reading *)
  annotation_tasks : PyVal -> list TaskFields * option PyExc;
  (** [pd.read_csv(path)] *)
  read_csv : PyVal -> PyExc + Frame;
  (** the lines that [MessageCenter.log_error(e)] hands to [_handle_log] *)
  error_lines : PyExc -> list string
}.

(** *** The child process *)

(** What the child does, one step at a time: the calls on the message
    center [mc], and how [work] ends. *)
Inductive ChildStep :=
| Call_handle_log (mc : nat) (line : string)
| Call_handle_progress (mc : nat) (msg : string) (progress : option Z)
| Call_handle_data (mc : nat) (payload : PyVal)
| Call_log_error (mc : nat) (e : PyExc)
| Step_print_exc
| Step_uncaught.

(** Code of the child: the steps it takes, then an exception or a value. *)
Definition Script (A : Type) : Type := list ChildStep * (PyExc + A).

Definition sret {A} (a : A) : Script A := ([], inr a).

Definition sraise {A} (e : PyExc) : Script A := ([], inl e).

Definition sbind {A B} (c : Script A) (k : A -> Script B) : Script B :=
  match c with
  | (steps, inl e) => (steps, inl e)
  | (steps, inr a) => let '(steps', r) := k a in (steps ++ steps', r)
  end.

Declare Scope script_scope.
Delimit Scope script_scope with script.
Notation "x <- c ;; k" := (sbind c (fun x => k))
  (at level 100, c at next level, right associativity) : script_scope.
Notation "c ;; k" := (sbind c (fun _ => k))
  (at level 100, right associativity) : script_scope.

(** A pure computation that may raise. *)
Definition lift {A} (r : PyExc + A) : Script A := ([], r).

Definition step (s : ChildStep) : Script unit := ([s], inr tt).

(** [d[key]] *)
Definition getitem (d : gmap string PyVal) (key : string) : Script PyVal :=
  match d !! key with
  | Some v => sret v
  | None => sraise (KeyError key)
  end.

Definition AttributeError : PyExc := Exc "AttributeError" "".

(** A method call [mc.m(...)] on whatever [mc] is: on a message center the
    call is a step, on any other object it raises [AttributeError]. *)
Definition on_mc (mc : PyVal) (call : nat -> ChildStep) : Script unit :=
  match mc with
  | VMc id => step (call id)
  | _ => sraise AttributeError
  end.

Definition mc_handle_progress (mc : PyVal) (msg : string)
    (progress : option Z) : Script unit :=
  on_mc mc (fun id => Call_handle_progress id msg progress).

Definition mc_handle_data (mc : PyVal) (payload : PyVal) : Script unit :=
  on_mc mc (fun id => Call_handle_data id payload).

Definition mc_log_error (mc : PyVal) (e : PyExc) : Script unit :=
  on_mc mc (fun id => Call_log_error id e).

Definition emit_step (id : nat) (e : Emit) : ChildStep :=
  match e with
  | Emit_log line => Call_handle_log id line
  | Emit_progress msg progress => Call_handle_progress id msg progress
  | Emit_data payload => Call_handle_data id payload
  end.

(** A library function called with params whose ['mc'] is [mc]. It emits
    through that object; when that is no message center its first emission
    raises [AttributeError]. *)
Definition call {A} (mc : PyVal) (r : Run A) : Script A :=
  match mc with
  | VMc id => (map (emit_step id) (emitted r), outcome r)
  | _ =>
      match emitted r with
      | [] => lift (outcome r)
      | _ :: _ => sraise AttributeError
      end
  end.

(** [try: body / except Exception as e: handler(e) / else: orelse] *)
Definition try_except_else (body : Script unit)
    (handler : PyExc -> Script unit) (orelse : Script unit) : Script unit :=
  match body with
  | (steps, inr _) => let '(steps', r) := orelse in (steps ++ steps', r)
  | (steps, inl e) =>
      if is_Exception e
      then let '(steps', r) := handler e in (steps ++ steps', r)
      else (steps, inl e)
  end.

(** The target of a [Process]: its steps, and the end of the process with
    a traceback when an exception leaves it. *)
Definition run_script (c : Script unit) : list ChildStep :=
  match c with
  | (steps, inr _) => steps
  | (steps, inl _) => steps ++ [Step_uncaught]
  end.

Section WithByase.
Context `{Byase}.
#[local] Open Scope script_scope.

Definition cols : list string :=
  ["Number"; "Task ID"; "Gene Name"; "Genomic Location"; "Isoforms";
   "Phased"; "SNPs"; "Status"].

(** [assert phased == 1 or phased == 0], then
    ['Phased' if phased == 1 else 'Non-Phased'] *)
Definition phased_label (phased : Z) : PyExc + Cell :=
  if ((phased =? 1) || (phased =? 0))%Z
  then inr (CStr (if (phased =? 1)%Z then "Phased" else "Non-Phased"))
  else inl AssertionError.

(** The loop of [_load_task]: the eight lists [d], filled row by row; [n]
    is the number of the last row read. *)
Fixpoint task_columns (n : Z) (rows : list TaskFields)
  : PyExc + list (list Cell) :=
  match rows with
  | [] => inr [[]; []; []; []; []; []; []; []]
  | fields :: rest =>
      match phased_label (f_phased fields) with
      | inl e => inl e
      | inr label =>
          match task_columns (n + 1) rest with
          | inl e => inl e
          | inr d =>
              inr (zip_with cons
                     [CInt (n + 1); f_id fields; f_gene_name fields;
                      f_location fields; f_isoforms_count fields; label;
                      f_snps_count fields; CStr "Waiting"] d)
          end
      end
  end.

Definition _load_task (args : gmap string PyVal) : Script unit :=
  task_dir <- getitem args "task_dir" ;;
  mc <- getitem args "mc" ;;
  let '(rows, failure) := annotation_tasks task_dir in
  d <- lift (task_columns 0 rows) ;;
  lift (match failure with Some e => inl e | None => inr tt end) ;;
  mc_handle_data mc (VFrame (zip cols d)).

Definition _rename_diff_cols (df : Frame) : Frame :=
  map (fun '(col, values) =>
         if Str.contains "Difference" col
         then (if Str.contains "HPD" col
               then Str.split_last ") " col
               else Str.replace "Difference " "" col, values)
         else (col, values)) df.

Definition _load_stats (stats_path : gmap string PyVal) (mc : PyVal)
  : Script unit :=
  ase_gene_level_stats_path <- getitem stats_path "gene-level path" ;;
  ase_isoform_level_stats_path <- getitem stats_path "isoform-level path" ;;
  df_gene_level <- lift (read_csv ase_gene_level_stats_path) ;;
  df_isoform_level <- lift (read_csv ase_isoform_level_stats_path) ;;
  mc_handle_data mc
    (VPair (VFrame (_rename_diff_cols df_gene_level))
           (VFrame (_rename_diff_cols df_isoform_level))).

(** The [if]/[elif] chain of [work]; it has no [else]. *)
Definition dispatch (tool : string) (params : gmap string PyVal)
    (mc : PyVal) : Script unit :=
  if String.eqb tool "gen-task" then
    call mc (generate_annotation params)
  else if String.eqb tool "load-task" then
    _load_task params
  else if String.eqb tool "inference" then
    call mc (inference params)
  else if String.eqb tool "resume" then
    call mc (inference_resume params)
  else if String.eqb tool "stats" then
    stats_path <- call mc (stats params) ;;
    _load_stats stats_path mc
  else if String.eqb tool "plot" then
    html_path <- call mc (plot_task params) ;;
    mc_handle_data mc (VPair (VStr "html path") html_path)
  else
    sret tt.

Definition work_script (tool : string) (params : gmap string PyVal)
  : Script unit :=
  mc <- getitem params "mc" ;;
  try_except_else
    (dispatch tool params mc)
    (fun e =>
       mc_handle_progress mc "Error occurred!" None ;;
       mc_log_error mc e ;;
       step Step_print_exc)
    (mc_handle_progress mc "Process completed!" None).

Definition work (tool : string) (params : gmap string PyVal)
  : list ChildStep :=
  run_script (work_script tool params).

End WithByase.

(** *** The supervisor *)

Section Supervisor.
Context `{Byase}.

(** A call of the child on the message center [id]: the center of this
    world, or another one. *)
Definition on_center (id : nat) (c : M unit) : M unit :=
  fun w => if Nat.eqb id (mc_id w) then c w else record Child (AForeign id) w.

(** [MessageCenter.log_error(e)]: it hands its lines to [_handle_log]. *)
Definition log_error (a : Actor) (e : PyExc) : M unit :=
  record a (ALogError e) ;;
  for_each (error_lines e) (_handle_log a).

Definition child_step (s : ChildStep) : M unit :=
  match s with
  | Call_handle_log id line => on_center id (_handle_log Child line)
  | Call_handle_progress id msg progress =>
      on_center id (handle_progress Child msg progress)
  | Call_handle_data id payload => on_center id (handle_data Child payload)
  | Call_log_error id e => on_center id (log_error Child e)
  | Step_print_exc => record Child APrintExc
  | Step_uncaught => record Child AUncaught
  end.

(** The child takes its next [n] steps; what is left of it is returned.
    The process has exited when nothing is left. *)
Fixpoint run_child (n : nat) (child : list ChildStep) : M (list ChildStep) :=
  match n, child with
  | S n', s :: rest => child_step s ;; run_child n' rest
  | _, _ => ret child
  end.

(** One turn of the [while work_process.is_alive()] loop, as the
    environment shapes it: the steps the child takes during the
    [time.sleep(1)], the instructions the controller sends during it, and,
    should the supervisor then find a [TERMINATE], the steps the child
    still takes before it is killed and the descendants that psutil
    lists. *)
Record Tick := {
  child_steps : nat;
  sent : list Instruction;
  last_steps : nat;
  descendants : list nat
}.

(** How the [while] loop is left, if it is. *)
Inductive PollResult := Exited | Terminated | StillPolling.

Fixpoint poll (ticks : list Tick) (child : list ChildStep) {struct ticks}
  : M PollResult :=
  match child with
  | [] => ret Exited
  | _ :: _ =>
      match ticks with
      | [] => ret StillPolling
      | t :: ticks' =>
          record Supervisor ASleep ;;
          child' <- run_child (child_steps t) child ;;
          for_each (sent t) (send_instruction Controller) ;;
          instruction <- receive_instruction Supervisor ;;
          match instruction with
          | Some TERMINATE =>
              run_child (last_steps t) child' ;;
              for_each (descendants t)
                (fun pid => record Supervisor (AKill pid)) ;;
              record Supervisor ATerminate ;;
              handle_progress Supervisor "Process terminated!" None ;;
              ret Terminated
          | None => poll ticks' child'
          end
      end
  end.

(** One turn of the [while True] loop of [task], as the environment shapes
    it: the Input Items and the instructions the controller sends while
    the supervisor is in [receive_input], the steps the child takes before
    [is_alive] is first asked, and the turns of the inner loop. *)
Record Round := {
  submitted : list InputItem;
  idle_sent : list Instruction;
  startup : nat;
  ticks : list Tick
}.

Definition self : M nat := fun w => (mc_id w, w).

(** The body of [while True]. [None]: [receive_input] is still blocked. *)
Definition task_iteration (r : Round) : M (option PollResult) :=
  for_each (submitted r)
    (fun item => send_input Controller (tool item) (params item)) ;;
  for_each (idle_sent r) (send_instruction Controller) ;;
  input <- receive_input Supervisor ;;
  match input with
  | None => ret None
  | Some (tool, params) =>
      mc <- self ;;
      let params := <["mc" := VMc mc]> params in
      record Supervisor (ASetItem "mc" (VMc mc)) ;;
      signal_task_started Supervisor ;;
      record Supervisor (AStart tool params) ;;
      child <- run_child (startup r) (work tool params) ;;
      result <- poll (ticks r) child ;;
      match result with
      | StillPolling => ret (Some StillPolling)
      | _ =>
          record Supervisor AJoin ;;
          signal_task_finished Supervisor ;;
          ret (Some result)
      end
  end.

(** Where the supervisor is when the rounds are over. *)
Inductive Status := AtLoopHead | InPollLoop.

(** [task(mc)], for as long as the rounds say. A round whose turns run out
    with the child alive leaves the supervisor in the inner loop. *)
Fixpoint task (rounds : list Round) : M Status :=
  match rounds with
  | [] => ret AtLoopHead
  | r :: rest =>
      result <- task_iteration r ;;
      match result with
      | Some StillPolling => ret InPollLoop
      | _ => task rest
      end
  end.

End Supervisor.

End Task.

(** ** long_running.py *)

Module LongRunning.
Import Message.
#[local] Open Scope py_scope.

(** The calls of [on_timer] on the panel and its widgets. *)
Inductive UiCall :=
| AppendText (text : string)             (* log_text_field.AppendText *)
| Call_handle_data (payload : PyVal)     (* self.handle_data *)
| Call_handle_progress_msg (msg : string)
| Call_handle_progress (progress : Z)
| Call_handle_task_started
| Timer_Stop                             (* self.timer.Stop() *)
| Call_handle_task_finished.

(** [LongRunningTaskPanel]: whether its timer runs, and the calls made. *)
Record Panel := {
  timer_running : bool;
  calls : list UiCall
}.

Definition ui (c : UiCall) (p : Panel) : Panel :=
  {| timer_running := timer_running p; calls := calls p ++ [c] |}.

Definition timer_Stop (p : Panel) : Panel :=
  {| timer_running := false; calls := calls p ++ [Timer_Stop] |}.

(** The body of the loop of [on_timer], after the [break]. *)
Definition dispatch_item (item : OutputItem) (p : Panel) : Panel :=
  let p := match log item with
           | Some line => ui (AppendText (line +:+ Str.newline)) p
           | None => p
           end in
  let p := if is_not_None (data item)
           then ui (Call_handle_data (data item)) p else p in
  let p := match progress_msg item with
           | Some msg => ui (Call_handle_progress_msg msg) p
           | None => p
           end in
  let p := match progress item with
           | Some value => ui (Call_handle_progress value) p
           | None => p
           end in
  let p := if task_started item then ui Call_handle_task_started p else p in
  if task_finished item
  then ui Call_handle_task_finished (timer_Stop p)
  else p.

(** [while True] of [on_timer]; [fuel] bounds the number of turns. *)
Fixpoint on_timer_loop (fuel : nat) (p : Panel) : M Panel :=
  match fuel with
  | O => ret p
  | S fuel' =>
      item <- receive_output Controller ;;
      match item with
      | None => ret p
      | Some item => on_timer_loop fuel' (dispatch_item item p)
      end
  end.

(** [on_timer]: nothing is put on the output queue while it runs, so one
    turn more than the queue is long reaches the [break]. *)
Definition on_timer (p : Panel) : M Panel :=
  fun w => on_timer_loop (S (length (_output_queue w))) p w.

End LongRunning.

(** ** What is observed of a run *)

Module Observe.
Import Message Task LongRunning.

(** The Output Events of the two lifecycle signals and of a progress
    message without a value. *)
Definition started_item : OutputItem :=
  {| log := None; data := VNone; progress_msg := None; progress := None;
     task_started := true; task_finished := false |}.

Definition finished_item : OutputItem :=
  {| log := None; data := VNone; progress_msg := None; progress := None;
     task_started := false; task_finished := true |}.

Definition progress_item (msg : string) (value : option Z) : OutputItem :=
  {| log := None; data := VNone; progress_msg := Some msg; progress := value;
     task_started := false; task_finished := false |}.

Definition log_item (line : string) : OutputItem :=
  {| log := Some line; data := VNone; progress_msg := None; progress := None;
     task_started := false; task_finished := false |}.

Definition data_item (payload : PyVal) : OutputItem :=
  {| log := None; data := payload; progress_msg := None; progress := None;
     task_started := false; task_finished := false |}.

(** The Output Events put on the output queue, in the order of the puts. *)
Definition puts (tr : list Event) : list OutputItem :=
  omap (fun e => match what e with APut item => Some item | _ => None end) tr.

(** What the supervisor did, in order. *)
Definition by_supervisor (tr : list Event) : list Action :=
  omap (fun e => match who e with Supervisor => Some (what e) | _ => None end)
       tr.

(** The lifecycle of the tasks as a trace shows it: an Input Item is
    taken, an event with [task_started] is put, an event with
    [task_finished] is put. *)
Inductive Mark := Dequeued | Started | Finished.

Definition marks (e : Event) : list Mark :=
  match what e with
  | AGetInput _ => [Dequeued]
  | APut item =>
      (if task_started item then [Started] else []) ++
      (if task_finished item then [Finished] else [])
  | _ => []
  end.

Definition lifecycle (tr : list Event) : list Mark := flat_map marks tr.

(** [n] tasks from start to end, one after the other. *)
Fixpoint whole_tasks (n : nat) : list Mark :=
  match n with
  | O => []
  | S n' => [Dequeued; Started; Finished] ++ whole_tasks n'
  end.

(** An action that is neither the supervisor's start of a task nor a call
    on a message center other than the world's. *)
Definition ordinary (act : Action) : Prop :=
  match act with
  | ASetItem _ _ | AStart _ _ | AForeign _ => False
  | _ => True
  end.

(** An event of the controller or of the child: not one of the
    supervisor's, no lifecycle signal, and ordinary. *)
Definition bystander (e : Event) : Prop :=
  who e <> Supervisor /\ marks e = [] /\ ordinary (what e).

(** The world [w'] is [w] after the events [d]: they are added to the
    trace, and the Output Events put among them to the output queue. *)
Definition extends_by (w w' : World) (d : list Event) : Prop :=
  trace w' = trace w ++ d /\
  _output_queue w' = _output_queue w ++ puts d /\
  mc_id w' = mc_id w.

(** The events with which the supervisor starts the task of [item], ends
    a task, and cancels one whose descendants are [ds]. *)
Definition starting (item : InputItem) (id : nat) : list Event :=
  [Ev Supervisor (AGetInput item);
   Ev Supervisor (ASetItem "mc" (VMc id));
   Ev Supervisor (APut started_item);
   Ev Supervisor (AStart (tool item) (<["mc" := VMc id]> (params item)))].

Definition finishing : list Event :=
  [Ev Supervisor AJoin; Ev Supervisor (APut finished_item)].

(** The events of [_handle_log] called on each of [lines]. *)
Definition log_events (a : Actor) (lines : list string) : list Event :=
  flat_map (fun line => [Ev a (ABase (Base_handle_log line));
                         Ev a (APut (log_item line))]) lines.

(** The events of one call of [handle_progress]: the call of the base
    class, the log events of the lines with which it comes back to
    [_handle_log], and the put of the progress event; and the Output
    Events among them, in the order of the puts. *)
Definition progress_events `{BaseCenter} (a : Actor) (msg : string)
    (value : option Z) : list Event :=
  Ev a (ABase (Base_handle_progress msg value)) ::
  log_events a (progress_lines msg value) ++
  [Ev a (APut (progress_item msg value))].

Definition progress_items `{BaseCenter} (msg : string) (value : option Z)
  : list OutputItem :=
  map log_item (progress_lines msg value) ++ [progress_item msg value].

Definition cancellation `{BaseCenter} (ds : list nat) : list Event :=
  map (fun pid => Ev Supervisor (AKill pid)) ds ++
  Ev Supervisor ATerminate ::
  progress_events Supervisor "Process terminated!" None.

(** An event of the inner loop while nothing is to be done: the
    supervisor sleeps, the others act. *)
Definition waiting (e : Event) : Prop :=
  e = Ev Supervisor ASleep \/ bystander e.

(** The events with which the inner loop is left when it is left on a
    [TERMINATE], after the events [body] of its turns: the supervisor
    has slept once in each turn up to the turn [t] in which it takes the
    instruction; the child may still act; the descendants that psutil
    lists in that turn and then the child itself are killed; and the
    message is put. The loop is left in silence otherwise. *)
Definition cancels `{BaseCenter} (ts : list Tick) (body : list Event)
    (result : PollResult) (tail : list Event) : Prop :=
  match result with
  | Terminated =>
      exists late k t,
        ts !! k = Some t /\
        by_supervisor body = repeat ASleep (S k) /\
        Forall bystander late /\
        tail = Ev Supervisor (AGetInstruction TERMINATE) ::
               late ++ cancellation (descendants t)
  | _ => tail = []
  end.

(** What follows the inner loop once it is left. *)
Definition closing (result : PollResult) : list Event :=
  match result with
  | StillPolling => []
  | _ => finishing
  end.

(** What the controller sends while the supervisor is in [receive_input]. *)
Definition arrivals (r : Round) : list Event :=
  map (fun item => Ev Controller (APutInput item)) (submitted r) ++
  map (fun i => Ev Controller (APutInstruction i)) (idle_sent r).

(** What the supervisor does to start a task, in order. *)
Definition starting_actions (item : InputItem) (id : nat) : list Action :=
  [AGetInput item; ASetItem "mc" (VMc id); APut started_item;
   AStart (tool item) (<["mc" := VMc id]> (params item))].

(** An event that may follow the start of the child: no assignment to
    the params, no second start, no [task_started], and no call on a
    message center other than the world's. *)
Definition after_start (e : Event) : Prop :=
  ~ In Started (marks e) /\ ordinary (what e).

(** In a trace, every event with [task_started] is put after a child
    process has been started. *)
Definition started_after_start (tr : list Event) : Prop :=
  forall i a item,
    tr !! i = Some (Ev a (APut item)) -> task_started item = true ->
    exists j tool params,
      j < i /\ tr !! j = Some (Ev Supervisor (AStart tool params)).

(** The Output Events of a call of the library on the message center. *)
Definition emit_items `{BaseCenter} (e : Emit) : list OutputItem :=
  match e with
  | Emit_log line => [log_item line]
  | Emit_progress msg value => progress_items msg value
  | Emit_data payload => [data_item payload]
  end.

(** The Output Events a step of the child puts on the output queue of the
    message center it calls. *)
Definition step_puts `{Byase} (s : ChildStep) : list OutputItem :=
  match s with
  | Call_handle_log _ line => [log_item line]
  | Task.Call_handle_progress _ msg value => progress_items msg value
  | Task.Call_handle_data _ payload => [data_item payload]
  | Call_log_error _ e => map log_item (error_lines e)
  | Step_print_exc => []
  | Step_uncaught => []
  end.

(** No instruction is pending and none is sent during the round. *)
Definition undisturbed (r : Round) (w : World) : Prop :=
  _instruction_queue w = [] /\ idle_sent r = [] /\
  Forall (fun t => sent t = []) (ticks r).

(** The child has acted between [w] and [w']. *)
Definition child_ran (w w' : World) (d : list Event) : Prop :=
  extends_by w w' d /\ Forall bystander d /\
  _instruction_queue w' = _instruction_queue w /\
  _input_queue w' = _input_queue w.

(** The steps the child takes in the sleeps of the turns. *)
Definition scheduled (ts : list Tick) : nat :=
  foldr (fun t n => child_steps t + n) 0 ts.

(** The message center a step of the child calls. *)
Definition step_center (s : ChildStep) : option nat :=
  match s with
  | Call_handle_log id _ => Some id
  | Task.Call_handle_progress id _ _ => Some id
  | Task.Call_handle_data id _ => Some id
  | Call_log_error id _ => Some id
  | Step_print_exc => None
  | Step_uncaught => None
  end.

(** The steps of the child call no message center but [id]. *)
Definition targets (id : nat) (s : ChildStep) : Prop :=
  forall id', step_center s = Some id' -> id' = id.

(** The steps of a script call the message center [id] only. *)
Definition script_targets {A} (id : nat) (c : Script A) : Prop :=
  Forall (targets id) (fst c).

(** The six names of the [if]/[elif] chain of [work]. *)
Definition tools : list string :=
  ["gen-task"; "load-task"; "inference"; "resume"; "stats"; "plot"].

Definition recognized (tool : string) : bool :=
  existsb (String.eqb tool) tools.

(** A run of the child reports an error: it puts the progress message of
    the [except] branch and not that of the [else] branch. *)
Definition reports_error (steps : list ChildStep) : Prop :=
  (exists id value,
     In (Task.Call_handle_progress id "Error occurred!" value) steps) /\
  (forall id value,
     ~ In (Task.Call_handle_progress id "Process completed!" value) steps).

(** The library call that [work] makes for [tool] raises [e]. *)
Inductive collaborator_raises `{Byase} (params : gmap string PyVal)
    (e : PyExc) : string -> Prop :=
| raises_gen_task :
    outcome (generate_annotation params) = inl e ->
    collaborator_raises params e "gen-task"
| raises_load_task task_dir rows d :
    params !! "task_dir" = Some task_dir ->
    annotation_tasks task_dir = (rows, Some e) ->
    task_columns 0 rows = inr d ->
    collaborator_raises params e "load-task"
| raises_inference :
    outcome (inference params) = inl e ->
    collaborator_raises params e "inference"
| raises_resume :
    outcome (inference_resume params) = inl e ->
    collaborator_raises params e "resume"
| raises_stats :
    outcome (stats params) = inl e ->
    collaborator_raises params e "stats"
| raises_plot :
    outcome (plot_task params) = inl e ->
    collaborator_raises params e "plot".

(** The fields of an Output Event, in the order in which [on_timer] looks
    at them, and the calls a field leads to. *)
Inductive Field :=
| F_log | F_data | F_progress_msg | F_progress | F_task_started
| F_task_finished.

Definition fields : list Field :=
  [F_log; F_data; F_progress_msg; F_progress; F_task_started;
   F_task_finished].

Definition field_calls (item : OutputItem) (f : Field) : list UiCall :=
  match f with
  | F_log =>
      match log item with
      | Some line => [AppendText (line +:+ Str.newline)]
      | None => []
      end
  | F_data =>
      if is_not_None (data item)
      then [LongRunning.Call_handle_data (data item)] else []
  | F_progress_msg =>
      match progress_msg item with
      | Some msg => [Call_handle_progress_msg msg]
      | None => []
      end
  | F_progress =>
      match progress item with
      | Some value => [LongRunning.Call_handle_progress value]
      | None => []
      end
  | F_task_started =>
      if task_started item then [Call_handle_task_started] else []
  | F_task_finished =>
      if task_finished item then [Timer_Stop; Call_handle_task_finished]
      else []
  end.

Definition item_calls (item : OutputItem) : list UiCall :=
  flat_map (field_calls item) fields.

(** The fields of an Output Event that are populated. *)
Definition populated (item : OutputItem) : list Field :=
  match log item with Some _ => [F_log] | None => [] end ++
  (if is_not_None (data item) then [F_data] else []) ++
  match progress_msg item with Some _ => [F_progress_msg] | None => [] end ++
  match progress item with Some _ => [F_progress] | None => [] end ++
  (if task_started item then [F_task_started] else []) ++
  (if task_finished item then [F_task_finished] else []).

(** A method of [QueueMessageCenter] that makes the base class's call
    [call] and then puts [item], once, and does nothing else. *)
Definition base_then_put (a : Actor) (call : BaseCall) (item : OutputItem)
    (w w' : World) : Prop :=
  trace w' = trace w ++ [Ev a (ABase call); Ev a (APut item)] /\
  _output_queue w' = _output_queue w ++ [item] /\
  _input_queue w' = _input_queue w /\
  _instruction_queue w' = _instruction_queue w /\
  mc_id w' = mc_id w.

(** [handle_progress]: the call of the base class, which comes back to
    [_handle_log] for each line it logs, and then the put of the progress
    event, once, and nothing else. *)
Definition base_logs_then_put `{BaseCenter} (a : Actor) (msg : string)
    (value : option Z) (w w' : World) : Prop :=
  trace w' = trace w ++ progress_events a msg value /\
  _output_queue w' = _output_queue w ++ progress_items msg value /\
  _input_queue w' = _input_queue w /\
  _instruction_queue w' = _instruction_queue w /\
  mc_id w' = mc_id w.

(** *** A library, a world and schedules to run the definitions on *)

Definition returns {A} (a : A) : Run A := {| emitted := []; outcome := inr a |}.

(** A base class that logs a progress message as one line. *)
Definition sample_center : BaseCenter :=
  {| progress_lines := fun msg _ => ["INFO | " +:+ msg] |}.

Definition sample_byase : Byase :=
  {| byase_center := sample_center;
     generate_annotation := fun _ =>
       {| emitted := [Emit_log "reading"; Emit_progress "half" (Some 1%Z)];
          outcome := inr tt |};
     inference := fun _ =>
       {| emitted := [Emit_log "go"];
          outcome := inl (Exc "ValueError" "bad") |};
     inference_resume := fun _ => returns tt;
     stats := fun _ => returns ∅;
     plot_task := fun _ => returns (VStr "/tmp/p.html");
     annotation_tasks := fun _ => ([], None);
     read_csv := fun _ => inr [];
     error_lines := fun e => ["ERROR"] |}.

(** The same library, but for an [inference] that ends in [sys.exit()]. *)
Definition sample_exiting : Byase :=
  {| byase_center := sample_center;
     generate_annotation := generate_annotation (Byase := sample_byase);
     inference := fun _ =>
       {| emitted := [Emit_log "go"];
          outcome := inl (BaseExc "SystemExit") |};
     inference_resume := inference_resume (Byase := sample_byase);
     stats := stats (Byase := sample_byase);
     plot_task := plot_task (Byase := sample_byase);
     annotation_tasks := annotation_tasks (Byase := sample_byase);
     read_csv := read_csv (Byase := sample_byase);
     error_lines := error_lines (Byase := sample_byase) |}.

Definition world0 : World :=
  {| mc_id := 7; _instruction_queue := []; _input_queue := [];
     _output_queue := []; trace := [] |}.

Definition tick (n : nat) (instructions : list Instruction) : Tick :=
  {| child_steps := n; sent := instructions; last_steps := 0;
     descendants := [11; 12] |}.

Definition gen_task : InputItem := {| tool := "gen-task"; params := ∅ |}.

Definition bad_inference : InputItem :=
  {| tool := "inference"; params := <["mc" := VStr "mine"]> ∅ |}.

(** One task that runs to its end in two sleeps. *)
Definition round_plain : Round :=
  {| submitted := [gen_task]; idle_sent := []; startup := 0;
     ticks := [tick 1 []; tick 5 []] |}.

(** One task, and two [TERMINATE] sent during its second sleep. *)
Definition round_stopped_twice : Round :=
  {| submitted := [gen_task]; idle_sent := []; startup := 0;
     ticks := [tick 1 []; tick 1 [TERMINATE; TERMINATE]] |}.

(** One task whose library call raises, and whose params came with an
    ['mc'] of the caller's. *)
Definition round_failing : Round :=
  {| submitted := [bad_inference]; idle_sent := []; startup := 0;
     ticks := [tick 2 []; tick 5 []] |}.

(** One task that runs to its end in its first sleep, and a [TERMINATE]
    sent later in that sleep. *)
Definition round_late_stop : Round :=
  {| submitted := [gen_task]; idle_sent := []; startup := 0;
     ticks := [tick 5 [TERMINATE]] |}.

(** A [TERMINATE] sent while the supervisor waits for work. *)
Definition round_idle_stop : Round :=
  {| submitted := []; idle_sent := [TERMINATE]; startup := 0; ticks := [] |}.

End Observe.

(** ** What is observed of the queues and of the loaders *)

Module Measures.
Import Message Task LongRunning Observe.
#[local] Open Scope py_scope.

(** [n] calls of [receive_instruction]. *)
Fixpoint receive_instructions (a : Actor) (n : nat)
  : M (list (option Instruction)) :=
  match n with
  | O => ret []
  | S n' =>
      i <- receive_instruction a ;;
      rest <- receive_instructions a n' ;;
      ret (i :: rest)
  end.

(** The calls [on_timer] makes for the Output Events of an emission: for
    a progress message, the lines with which the base class logs it come
    first. *)
Definition emit_calls `{BaseCenter} (e : Emit) : list UiCall :=
  match e with
  | Emit_log line => [AppendText (line +:+ Str.newline)]
  | Emit_progress msg value =>
      map (fun line => AppendText (line +:+ Str.newline))
          (progress_lines msg value) ++
      Call_handle_progress_msg msg ::
      match value with
      | Some v => [LongRunning.Call_handle_progress v]
      | None => []
      end
  | Emit_data payload =>
      if is_not_None payload then [LongRunning.Call_handle_data payload]
      else []
  end.

(** The table of the tasks [rows], numbered from [n + 1]. *)
Definition task_table (n : Z) (rows : list TaskFields) : list (list Cell) :=
  [imap (fun i _ => CInt (n + 1 + Z.of_nat i)) rows;
   map f_id rows; map f_gene_name rows; map f_location rows;
   map f_isoforms_count rows;
   map (fun r => CStr (if (f_phased r =? 1)%Z then "Phased" else "Non-Phased"))
       rows;
   map f_snps_count rows;
   map (fun _ => CStr "Waiting") rows].

(** [phased == 1 or phased == 0] *)
Definition phase_known (r : TaskFields) : bool :=
  ((f_phased r =? 1) || (f_phased r =? 0))%Z.

(** A call on the message center by one who produces Output Events: one
    of the three handlers, or one of the two lifecycle signals. *)
Inductive CenterCall :=
| Center_emit (e : Emit)
| Center_started
| Center_finished.

Definition center_call `{BaseCenter} (a : Actor) (c : CenterCall) : M unit :=
  match c with
  | Center_emit (Emit_log line) => _handle_log a line
  | Center_emit (Emit_progress msg value) => handle_progress a msg value
  | Center_emit (Emit_data payload) => handle_data a payload
  | Center_started => signal_task_started a
  | Center_finished => signal_task_finished a
  end.

(** The Output Events such a call puts. *)
Definition center_items `{BaseCenter} (c : CenterCall) : list OutputItem :=
  match c with
  | Center_emit e => emit_items e
  | Center_started => [started_item]
  | Center_finished => [finished_item]
  end.

(** The calls [on_timer] makes on the panel for such a call. *)
Definition shown `{BaseCenter} (c : CenterCall) : list UiCall :=
  match c with
  | Center_emit e => emit_calls e
  | Center_started => [Call_handle_task_started]
  | Center_finished => [Timer_Stop; Call_handle_task_finished]
  end.

Definition finishes (c : CenterCall) : bool :=
  match c with
  | Center_finished => true
  | _ => false
  end.

(** The steps of the [except] branch of [work]. *)
Definition except_steps (id : nat) (e : PyExc) : list ChildStep :=
  [Task.Call_handle_progress id "Error occurred!" None;
   Call_log_error id e; Step_print_exc].

(** The step of the [else] branch of [work]. *)
Definition completed (id : nat) : ChildStep :=
  Task.Call_handle_progress id "Process completed!" None.

(** How the child ends when [e] is raised in the [try] of [work]: caught
    if it is an instance of [Exception], and leaving [work] otherwise. *)
Definition raised (id : nat) (e : PyExc) : list ChildStep :=
  if is_Exception e then except_steps id e else [Step_uncaught].

(** A column name that [_rename_diff_cols] has nothing to change in: it
    does not contain 'Difference'; or it contains 'HPD' and no ') ' to
    split at; or it contains neither 'HPD' nor 'Difference ' with the
    space. *)
Definition plain_name (col : string) : bool :=
  negb (Str.contains "Difference" col) ||
  (if Str.contains "HPD" col then negb (Str.contains ") " col)
   else negb (Str.contains "Difference " col)).

(** A library with two tasks in its database, the second of which has a
    phase that is neither 0 nor 1 when [task_dir] is ['bad'], and whose
    [stats] returns the gene-level path only. *)
Definition task_1 : TaskFields :=
  {| f_id := CStr "t1"; f_gene_name := CStr "g1"; f_location := CStr "1:5";
     f_isoforms_count := CInt 2; f_phased := 1; f_snps_count := CInt 3 |}.

Definition task_2 (phased : Z) : TaskFields :=
  {| f_id := CStr "t2"; f_gene_name := CStr "g2"; f_location := CStr "2:9";
     f_isoforms_count := CInt 4; f_phased := phased; f_snps_count := CInt 1 |}.

Definition sample_db : Byase :=
  {| byase_center := sample_center;
     generate_annotation := fun _ => returns tt;
     inference := fun _ => returns tt;
     inference_resume := fun _ => returns tt;
     stats := fun _ =>
       {| emitted := [Emit_log "summarizing"];
          outcome := inr (<["gene-level path" := VStr "gene.csv"]> ∅) |};
     plot_task := fun _ => returns (VStr "/tmp/p.html");
     annotation_tasks := fun task_dir =>
       match task_dir with
       | VStr "bad" => ([task_1; task_2 2], None)
       | _ => ([task_1; task_2 0], None)
       end;
     read_csv := fun _ => inr [("Allele 1 & 2 Difference Mean", [CInt 1])];
     error_lines := fun e => ["ERROR"] |}.

End Measures.

(** ** What is observed of the order of the tasks *)

Module Schedule.
Import Message Task Observe.

(** The child processes started, as a trace shows them: the tool and the
    params of each, in the order of the starts. *)
Definition started_tasks (tr : list Event)
  : list (string * gmap string PyVal) :=
  omap (fun e => match what e with
                 | AStart tool params => Some (tool, params)
                 | _ => None
                 end) tr.

(** The tool and the params with which the supervisor of the message
    center [id] starts the task of an Input Item. *)
Definition with_mc (id : nat) (item : InputItem)
  : string * gmap string PyVal :=
  (tool item, <["mc" := VMc id]> (params item)).

(** The Input Items there are to take in a run: those pending at its
    beginning and those sent during its rounds, in the order of their
    arrival. *)
Definition arriving (w : World) (rounds : list Round) : list InputItem :=
  _input_queue w ++ flat_map submitted rounds.

End Schedule.

(** ** long_running.py: the panels *)

Module Panels.
Import Message LongRunning.
#[local] Open Scope py_scope.

(** What a [LongRunningTaskPanel] holds. A window is known by its
    identity, since the same window can be among the disabling elements
    of several panels; [Enabled] has the flag of every window. *)
Record Base := {
  disabling_elements : list nat;
  Enabled : gmap nat bool;
  log_text_field : string;                 (* the text of the log field *)
  progress_label : string;                 (* the label of progress_label *)
  timer : bool                             (* timer.IsRunning() *)
}.

Definition set_disabling_elements (es : list nat) (b : Base) : Base :=
  {| disabling_elements := es; Enabled := Enabled b;
     log_text_field := log_text_field b; progress_label := progress_label b;
     timer := timer b |}.

Definition set_Enabled (flags : gmap nat bool) (b : Base) : Base :=
  {| disabling_elements := disabling_elements b; Enabled := flags;
     log_text_field := log_text_field b; progress_label := progress_label b;
     timer := timer b |}.

Definition set_log_text_field (text : string) (b : Base) : Base :=
  {| disabling_elements := disabling_elements b; Enabled := Enabled b;
     log_text_field := text; progress_label := progress_label b;
     timer := timer b |}.

Definition set_progress_label (label : string) (b : Base) : Base :=
  {| disabling_elements := disabling_elements b; Enabled := Enabled b;
     log_text_field := log_text_field b; progress_label := label;
     timer := timer b |}.

Definition set_timer (running : bool) (b : Base) : Base :=
  {| disabling_elements := disabling_elements b; Enabled := Enabled b;
     log_text_field := log_text_field b; progress_label := progress_label b;
     timer := running |}.

(** [for e in elements: self.disabling_elements.append(e)] *)
Definition add_disabling_elements (elements : list nat) (b : Base) : Base :=
  set_disabling_elements (disabling_elements b ++ elements) b.

(** [for e in self.disabling_elements: e.Enabled = flag] *)
Definition enable_elements (flag : bool) (b : Base) : Base :=
  set_Enabled
    (foldl (fun flags e => <[e := flag]> flags) (Enabled b)
           (disabling_elements b))
    b.

(** [LongRunningTaskPanel.start_task]; [provided] is how the call of the
    [provide_tool] of the subclass ends. The panel is returned as the
    method leaves it, with the exception that leaves the method, if one
    does. *)
Definition start_task (provided : PyExc + string * gmap string PyVal)
    (b : Base) : M (Base * option PyExc) :=
  let b := set_log_text_field "" b in
  let b := enable_elements false b in
  match provided with
  | inl e => ret (b, Some e)
  | inr (tools, params) =>
      send_input Controller tools params ;;
      ret (set_timer true b, None)
  end.

(** [LongRunningTaskPanel.handle_task_finished] *)
Definition handle_task_finished (b : Base) : Base := enable_elements true b.

(** [LongRunningTaskPanel.handle_progress_msg] *)
Definition handle_progress_msg (progress_msg : string) (b : Base) : Base :=
  set_progress_label progress_msg b.

(** The calls of [LongRunningTaskPanel.on_timer] that no subclass
    overrides: on the log field and on the timer. *)
Definition base_call (c : UiCall) (b : Base) : Base :=
  match c with
  | AppendText text => set_log_text_field (log_text_field b +:+ text) b
  | Call_handle_progress_msg msg => handle_progress_msg msg b
  | Timer_Stop => set_timer false b
  | _ => b
  end.

(** *** [LongRunningTaskProgressPanel] *)

Module Progress.

Record Panel := {
  base : Base;
  determinate : bool;
  start_button : bool;                     (* start_button.Enabled *)
  stop_button : bool;                      (* stop_button.Enabled *)
  pulses : nat                             (* calls of progress_bar.Pulse() *)
}.

Definition set_base (b : Base) (p : Panel) : Panel :=
  {| base := b; determinate := determinate p; start_button := start_button p;
     stop_button := stop_button p; pulses := pulses p |}.

Definition set_start_button (flag : bool) (p : Panel) : Panel :=
  {| base := base p; determinate := determinate p; start_button := flag;
     stop_button := stop_button p; pulses := pulses p |}.

Definition set_stop_button (flag : bool) (p : Panel) : Panel :=
  {| base := base p; determinate := determinate p;
     start_button := start_button p; stop_button := flag;
     pulses := pulses p |}.

Definition Pulse (p : Panel) : Panel :=
  {| base := base p; determinate := determinate p;
     start_button := start_button p; stop_button := stop_button p;
     pulses := S (pulses p) |}.

(** [__init__]: the Stop button is disabled. *)
Definition init (determinate : bool) : Panel :=
  {| base := {| disabling_elements := []; Enabled := ∅;
                log_text_field := ""; progress_label := ""; timer := false |};
     determinate := determinate; start_button := true; stop_button := false;
     pulses := 0 |}.

Definition handle_task_started (p : Panel) : Panel :=
  set_stop_button true p.

Definition handle_task_finished (p : Panel) : Panel :=
  let p := set_base (Panels.handle_task_finished (base p)) p in
  let p := set_start_button true p in
  set_stop_button false p.

(** A call that [LongRunningTaskPanel.on_timer] makes, on this class:
    [handle_data] and [handle_progress] are the [pass] of the base
    class. *)
Definition handle (c : UiCall) (p : Panel) : Panel :=
  match c with
  | Call_handle_task_started => handle_task_started p
  | Call_handle_task_finished => handle_task_finished p
  | Call_handle_data _ => p
  | Call_handle_progress _ => p
  | _ => set_base (base_call c (base p)) p
  end.

(** [on_timer]: the loop of the base class, its calls taken by this
    class, then the pulse of an indeterminate progress bar. *)
Definition on_timer (p : Panel) : M Panel :=
  drained <- LongRunning.on_timer
               {| timer_running := timer (base p); calls := [] |} ;;
  let p := foldl (fun p c => handle c p) p (calls drained) in
  ret (if determinate p then p else Pulse p).

(** [self.handle_progress(0)] is the [pass] of the base class. *)
Definition on_start_button (provided : PyExc + string * gmap string PyVal)
    (p : Panel) : M (Panel * option PyExc) :=
  let p := set_start_button false p in
  let p := set_base (handle_progress_msg "Processing..." (base p)) p in
  started <- start_task provided (base p) ;;
  ret (set_base (fst started) p, snd started).

Definition on_stop_button `{BaseCenter} (p : Panel) : M Panel :=
  let p := set_stop_button false p in
  handle_progress Controller "Waiting backend process to respond..." None ;;
  send_instruction Controller TERMINATE ;;
  ret p.

End Progress.

(** *** [LongRunningTaskIndicatorPanel] *)

Module Indicator.

Record Panel := {
  base : Base;
  loading_widget_shown : bool;             (* loading_widget().IsShown() *)
  indicator_panel_shown : bool;
  indicator_playing : bool
}.

Definition set_base (b : Base) (p : Panel) : Panel :=
  {| base := b; loading_widget_shown := loading_widget_shown p;
     indicator_panel_shown := indicator_panel_shown p;
     indicator_playing := indicator_playing p |}.

(** [Show()] or [Hide()] of the two, and [Play()] or [Stop()]. *)
Definition loading (flag : bool) (p : Panel) : Panel :=
  {| base := base p; loading_widget_shown := negb flag;
     indicator_panel_shown := flag; indicator_playing := flag |}.

Definition start_task (provided : PyExc + string * gmap string PyVal)
    (p : Panel) : M (Panel * option PyExc) :=
  started <- Panels.start_task provided (base p) ;;
  let p := set_base (fst started) p in
  match snd started with
  | Some e => ret (p, Some e)
  | None =>
      let p := loading true p in
      ret (set_base (handle_progress_msg "Loading..." (base p)) p, None)
  end.

Definition handle_task_finished (p : Panel) : Panel :=
  let p := set_base (Panels.handle_task_finished (base p)) p in
  let p := loading false p in
  set_base (handle_progress_msg "" (base p)) p.

Definition handle (c : UiCall) (p : Panel) : Panel :=
  match c with
  | Call_handle_task_started => p
  | Call_handle_task_finished => handle_task_finished p
  | Call_handle_data _ => p
  | Call_handle_progress _ => p
  | _ => set_base (base_call c (base p)) p
  end.

Definition on_timer (p : Panel) : M Panel :=
  drained <- LongRunning.on_timer
               {| timer_running := timer (base p); calls := [] |} ;;
  ret (foldl (fun p c => handle c p) p (calls drained)).

End Indicator.

End Panels.

(** ** inference_panel.py: the request of the inference panel *)

Module Inference.
Import Message Panels.
#[local] Open Scope py_scope.

(** What [InferencePanel.provide_tool] reads: the values of the widgets
    of the panel and of its config panel and, in [task_df], the data
    frame of the task view, [None] until a table of tasks is loaded. *)
Record Form := {
  resume_mode : bool;                      (* resume_checkbox.GetValue() *)
  out_dir : string;                        (* out_dir_picker.GetPath() *)
  process : Z;                             (* parallel_input.GetValue() *)
  pe : bool;                               (* pe_input.GetValue() *)
  task_dir : string;                       (* task_dir_input.GetPath() *)
  bam_paths : PyVal;
  read_len : Z;                            (* read_len_input.GetValue() *)
  insert_size_mean : string;               (* insert_size_mean_input... *)
  insert_size_std : string;
  task_df : option Frame                   (* task_data_view.df *)
}.

(** [df.shape[0]] *)
Definition shape_0 (df : Frame) : nat :=
  match df with
  | [] => 0
  | (_, values) :: _ => length values
  end.

Section WithFloat.
(** The [float] of Python, on the text of a field. *)
Variable float : string -> PyExc + PyVal.

(** [float(text) if pe else None] *)
Definition float_if (pe : bool) (text : string) : PyExc + PyVal :=
  if pe then float text else inr VNone.

(** [InferencePanel.provide_tool]: the exception raised, or the tool and
    the params together with the range given to the progress bar. *)
Definition provide_tool (f : Form)
  : PyExc + ((string * gmap string PyVal) * nat) :=
  let request : PyExc + (string * gmap string PyVal) :=
    if resume_mode f then
      inr ("resume",
           <["out_dir" := VStr (out_dir f)]>
           (<["process" := VInt (process f)]>
            (<["count" := VNone]> ∅)))
    else
      match float_if (pe f) (insert_size_mean f) with
      | inl e => inl e
      | inr mean =>
          match float_if (pe f) (insert_size_std f) with
          | inl e => inl e
          | inr std =>
              inr ("inference",
                   <["task" := VStr (task_dir f)]>
                   (<["bam" := bam_paths f]>
                    (<["read_len" := VInt (read_len f)]>
                     (<["pe" := VBool (pe f)]>
                      (<["insert_size_mean" := mean]>
                       (<["insert_size_std" := std]>
                        (<["out_dir" := VStr (out_dir f)]>
                         (<["process" := VInt (process f)]>
                          (<["count" := VNone]> ∅)))))))))
          end
      end in
  match request with
  | inl e => inl e
  | inr request =>
      match task_df f with
      | None => inl Task.AttributeError
      | Some df => inr (request, shape_0 df)
      end
  end.

(** [InferencePanel]: a progress panel, its form and its progress bar. *)
Record Panel := {
  panel : Progress.Panel;
  form : Form;
  gauge_range : nat;
  gauge_value : Z
}.

(** The [on_start_button] it inherits, with its own [handle_progress]
    and [provide_tool]. *)
Definition on_start_button (ip : Panel) : M (Panel * option PyExc) :=
  match provide_tool (form ip) with
  | inl e =>
      clicked <- Progress.on_start_button (inl e) (panel ip) ;;
      ret ({| panel := fst clicked; form := form ip;
              gauge_range := gauge_range ip; gauge_value := 0 |},
           snd clicked)
  | inr (request, range) =>
      clicked <- Progress.on_start_button (inr request) (panel ip) ;;
      ret ({| panel := fst clicked; form := form ip;
              gauge_range := range; gauge_value := 0 |},
           snd clicked)
  end.

End WithFloat.

End Inference.

(** ** What is observed of a panel *)

Module Desk.
Import Message LongRunning Observe Panels.
#[local] Open Scope py_scope.

(** What happens to a progress panel: a click on one of its buttons,
    which wx delivers only while the button is enabled; its timer, which
    fires only while it runs; and, in between, an Output Event put by
    the supervisor or the child. An exception that leaves a callback is
    printed by wx, and the program goes on. *)
Inductive Happening :=
| Start_clicked (provided : PyExc + string * gmap string PyVal)
| Stop_clicked
| Timer_fired
| Backend_put (a : Actor) (item : OutputItem).

Definition happen `{BaseCenter} (h : Happening) (p : Progress.Panel)
  : M Progress.Panel :=
  match h with
  | Start_clicked provided =>
      if Progress.start_button p
      then clicked <- Progress.on_start_button provided p ;; ret (fst clicked)
      else ret p
  | Stop_clicked =>
      if Progress.stop_button p then Progress.on_stop_button p else ret p
  | Timer_fired =>
      if timer (Progress.base p) then Progress.on_timer p else ret p
  | Backend_put a item => output_put a item ;; ret p
  end.

Fixpoint happenings `{BaseCenter} (hs : list Happening) (p : Progress.Panel)
  : M Progress.Panel :=
  match hs with
  | [] => ret p
  | h :: rest => p' <- happen h p ;; happenings rest p'
  end.

(** The instructions and the Input Items sent, and the Output Events
    taken from the output queue, as a trace shows them. *)
Definition sent_instructions (tr : list Event) : list Instruction :=
  omap (fun e => match what e with
                 | APutInstruction i => Some i
                 | _ => None
                 end) tr.

Definition sent_inputs (tr : list Event) : list InputItem :=
  omap (fun e => match what e with
                 | APutInput item => Some item
                 | _ => None
                 end) tr.

Definition taken (tr : list Event) : list OutputItem :=
  omap (fun e => match what e with
                 | AGet item => Some item
                 | _ => None
                 end) tr.

(** The events with [task_started], with [task_finished], among those
    taken. *)
Definition started_seen (tr : list Event) : nat :=
  length (List.filter task_started (taken tr)).

Definition finished_seen (tr : list Event) : nat :=
  length (List.filter task_finished (taken tr)).

(** The progress message that the events of a queue leave on the label:
    the last one, or the label as it was. *)
Definition last_message (q : list OutputItem) (label : string) : string :=
  foldl (fun label item => default label (progress_msg item)) label q.

(** The text of the log field once the log lines of the events of a
    queue have been appended to [text], each with its line break. *)
Definition logged (q : list OutputItem) (text : string) : string :=
  foldl (fun text item =>
           match log item with
           | Some line => text +:+ (line +:+ Str.newline)
           | None => text
           end) text q.

(** A panel that reacts to nothing: both buttons are disabled and the
    timer is stopped. *)
Definition dead (p : Progress.Panel) : Prop :=
  Progress.start_button p = false /\ Progress.stop_button p = false /\
  timer (Progress.base p) = false.

(** 1 for an enabled button. *)
Definition armed (flag : bool) : nat := if flag then 1 else 0.

(** No more instructions have been sent than tasks were seen to start,
    and one less while the Stop button is enabled. *)
Definition stop_in_step (p : Progress.Panel) (w : World) : Prop :=
  length (sent_instructions (trace w)) + armed (Progress.stop_button p)
  <= started_seen (trace w).

(** No more Input Items have been sent than tasks were seen to finish,
    but for one while the Start button is disabled. *)
Definition start_in_step (p : Progress.Panel) (w : World) : Prop :=
  length (sent_inputs (trace w)) + armed (Progress.start_button p)
  <= finished_seen (trace w) + 1.

End Desk.

(** ** The requests of the panels: [provide_tool] *)

Module Requests.

(** [annotation_panel.py]: what [AnnotationPanel.provide_tool] reads. *)
Record AnnotationForm := {
  gff : string;                            (* gff_file_picker.GetPath() *)
  gene_feature : string;
  isoform_feature : string;
  gene_name_attr : string;
  isoform_name_attr : string;
  vcf : string;                            (* vcf_file_picker.GetPath() *)
  ploidy : Z;                              (* vcf_ploidy_input.GetValue() *)
  sample : string;
  add_chrom_prefix : bool;                 (* vcf_add_chr_check.IsChecked() *)
  annotation_out_dir : string              (* out_dir_picker.GetPath() *)
}.

(** [AnnotationPanel.provide_tool] *)
Definition annotation_provide_tool (f : AnnotationForm)
  : string * gmap string PyVal :=
  ("gen-task",
   <["gff" := VStr (gff f)]>
   (<["gene_feature" := VStr (gene_feature f)]>
    (<["isoform_feature" := VStr (isoform_feature f)]>
     (<["gene_name_attr" := VStr (gene_name_attr f)]>
      (<["isoform_name_attr" := VStr (isoform_name_attr f)]>
       (<["vcf" := VStr (vcf f)]>
        (<["ploidy" := VInt (ploidy f)]>
         (<["sample" := VStr (sample f)]>
          (<["add_chrom_prefix" := VBool (add_chrom_prefix f)]>
           (<["out_dir" := VStr (annotation_out_dir f)]> ∅)))))))))).

(** [inference_panel.py]: [_ConfigPanel.provide_tool], on the path of
    [task_dir_input]. *)
Definition config_provide_tool (task_dir : string)
  : string * gmap string PyVal :=
  ("load-task", <["task_dir" := VStr task_dir]> ∅).

(** [result_panel.py]: [ResultPanel.provide_tool], on the path of
    [res_dir_picker]. *)
Definition result_provide_tool (result_dir : string)
  : string * gmap string PyVal :=
  ("stats", <["result_dir" := VStr result_dir]> ∅).

(** [plot_panel.py]: [PlotPanel.provide_tool], on the [result_dir] and
    the [task_id] of the panel, [None] until a task is plotted. *)
Definition plot_provide_tool (result_dir task_id : PyVal)
  : string * gmap string PyVal :=
  ("plot", <["result_dir" := result_dir]> (<["task_id" := task_id]> ∅)).

End Requests.

(** ** result_panel.py and plot_panel.py: from the details to the plot *)

Module Plotting.

(** [ResultPanel.set_detail_label]: the label it sets. *)
Definition set_detail_label (task_id : option string) : string :=
  let label := "Details of Task" in
  match task_id with
  | Some task_id => label +:+ (": " +:+ task_id)
  | None => label
  end.

(** [ResultPanel.on_plot_button]: the page of the notebook it selects,
    and the arguments of the call [delegate.plot_task] it makes, on the
    label of the details, the path of [res_dir_picker] and the data
    frame of the detail view. *)
Definition on_plot_button (detail_label res_dir : string)
    (detail_df : option Frame) : nat * (string * string * option Frame) :=
  let task_id := Str.split_last " " detail_label in
  (3, (res_dir, task_id, detail_df)).

Definition TypeError : PyExc := Exc "TypeError" "".
Definition ValueError : PyExc := Exc "ValueError" "".

(** [if key == 'html path']; the comparison of a data frame is a data
    frame, which has no truth value. *)
Definition is_html_path (key : PyVal) : PyExc + bool :=
  match key with
  | VStr s => inr (String.eqb s "html path")
  | VFrame _ => inl ValueError
  | _ => inr false
  end.

(** [PlotPanel.handle_data]: the URL it has the plot view load, if any.
    ['file://' + val] raises [TypeError] unless [val] is a string. *)
Definition handle_data (data : PyVal) : PyExc + option string :=
  match data with
  | VPair key val =>
      match is_html_path key with
      | inl e => inl e
      | inr true =>
          match val with
          | VStr path => inr (Some ("file://" +:+ path))
          | _ => inl TypeError
          end
      | inr false => inr None
      end
  | _ => inr None
  end.

End Plotting.

(** ** What is observed of the requests *)

Module Agreement.
Import Message Task Observe Requests.

(** A request that [work] knows how to serve, and that leaves the key
    ['mc'] to the supervisor. *)
Definition known_request (request : string * gmap string PyVal) : Prop :=
  recognized (fst request) = true /\ snd request !! "mc" = None.

End Agreement.

(** ** A click on Stop when the task is over *)

Module LateStop.
Import Message Task Observe Panels Desk.

(** What happens to a panel on which Stop is clicked when its task is
    over, before its timer fires, and on which the next task is then
    started. *)
Definition stop_then_start (provided : string * gmap string PyVal)
  : list Happening :=
  [Stop_clicked; Timer_fired; Start_clicked (inr provided)].

End LateStop.

(** ** Panels and schedules to run the definitions on *)

Module Samples.
Import Message Task Observe Panels Desk.

(** A progress panel as [__init__] leaves it, with two disabling
    elements. *)
Definition panel_0 : Progress.Panel :=
  Progress.set_base
    (add_disabling_elements [1; 2] (Progress.base (Progress.init false)))
    (Progress.init false).

(** An indicator panel with the same elements, its widget shown. *)
Definition indicator_0 : Indicator.Panel :=
  {| Indicator.base := Progress.base panel_0;
     Indicator.loading_widget_shown := true;
     Indicator.indicator_panel_shown := false;
     Indicator.indicator_playing := false |}.

(** A task that is left alone for two sleeps, and one that is stopped in
    its first sleep; the Input Item is already in the queue. *)
Definition round_left_alone : Round :=
  {| submitted := []; idle_sent := []; startup := 0;
     ticks := [tick 1 []; tick 5 []] |}.

Definition round_stopped : Round :=
  {| submitted := []; idle_sent := []; startup := 0;
     ticks := [tick 1 [TERMINATE]; tick 5 []] |}.

(** What happens to a panel on which Start is clicked, whose task is
    seen to start, and on which Stop is then clicked twice. *)
Definition two_clicks_on_stop : list Happening :=
  [Start_clicked (inr ("gen-task", ∅));
   Backend_put Supervisor started_item;
   Timer_fired; Stop_clicked; Stop_clicked].

(** A panel whose task has been seen to start, and a message center on
    which the supervisor has ended that task. *)
Definition panel_running : Progress.Panel :=
  Progress.set_stop_button true
    (Progress.set_start_button false
       (Progress.set_base (set_timer true (Progress.base panel_0)) panel_0)).

Definition world_task_over : World :=
  {| mc_id := 7; _instruction_queue := []; _input_queue := [];
     _output_queue := [finished_item]; trace := [] |}.

(** An inference panel in which no table of tasks is loaded. *)
Definition inference_0 : Inference.Panel :=
  {| Inference.panel := panel_0;
     Inference.form :=
       {| Inference.resume_mode := false; Inference.out_dir := "/tmp/out";
          Inference.process := 1; Inference.pe := false;
          Inference.task_dir := ""; Inference.bam_paths := VNone;
          Inference.read_len := 0; Inference.insert_size_mean := "";
          Inference.insert_size_std := ""; Inference.task_df := None |};
     Inference.gauge_range := 100;
     Inference.gauge_value := 0 |}.

(** A [float] that accepts no text. *)
Definition float_0 (text : string) : PyExc + PyVal :=
  inl (Exc "ValueError" text).

End Samples.

(** * Properties *)

(** ** The message center *)

Module MessageFacts.
Import Message Observe.

Lemma world_eta (w : World) :
  {| mc_id := mc_id w; _instruction_queue := _instruction_queue w;
     _input_queue := _input_queue w; _output_queue := _output_queue w;
     trace := trace w |} = w.
Proof. by destruct w. Qed.

(** C7. [receive_output] on an empty output queue returns [None] and
    leaves the world, so the other two queues too, as it was; on a
    non-empty queue it returns the oldest event and removes that one
    event only, the other queues staying as they were. *)
Theorem receive_output_nonblocking (a : Actor) (w : World) :
  match _output_queue w with
  | [] => receive_output a w = (None, w)
  | item :: rest =>
      fst (receive_output a w) = Some item /\
      _output_queue (snd (receive_output a w)) = rest /\
      _input_queue (snd (receive_output a w)) = _input_queue w /\
      _instruction_queue (snd (receive_output a w)) = _instruction_queue w
  end.
Proof.
  unfold receive_output.
  destruct (_output_queue w) as [|item rest]; [reflexivity|].
  simpl. auto.
Qed.

Example receive_output_oldest_first :
  let w := exec (handle_data Child (VInt 2))
             (exec (_handle_log Child "one") world0) in
  fst (receive_output Controller w) = Some (log_item "one") /\
  _output_queue (snd (receive_output Controller w)) = [data_item (VInt 2)].
Proof. split; reflexivity. Qed.

Lemma handle_log_put (a : Actor) (line : string) (w : World) :
  base_then_put a (Base_handle_log line) (log_item line) w
    (exec (_handle_log a line) w).
Proof.
  unfold base_then_put, exec, _handle_log, bind, record, output_put; simpl.
  rewrite <- !app_assoc. auto.
Qed.

Lemma handle_data_put (a : Actor) (payload : PyVal) (w : World) :
  base_then_put a (Base_handle_data payload) (data_item payload) w
    (exec (handle_data a payload) w).
Proof.
  unfold base_then_put, exec, handle_data, bind, record, output_put; simpl.
  rewrite <- !app_assoc. auto.
Qed.

Lemma for_each_handle_log_events (a : Actor) (lines : list string) :
  forall w,
    trace (snd (for_each lines (_handle_log a) w)) =
      trace w ++ log_events a lines /\
    _output_queue (snd (for_each lines (_handle_log a) w)) =
      _output_queue w ++ map log_item lines /\
    _input_queue (snd (for_each lines (_handle_log a) w)) = _input_queue w /\
    _instruction_queue (snd (for_each lines (_handle_log a) w)) =
      _instruction_queue w /\
    mc_id (snd (for_each lines (_handle_log a) w)) = mc_id w.
Proof.
  induction lines as [|line lines IH]; intros w; simpl.
  - by rewrite !app_nil_r.
  - unfold bind.
    destruct (handle_log_put a line w) as (T & O & I & Q & Id).
    unfold exec in T, O, I, Q, Id.
    destruct (_handle_log a line w) as [[] w1]. cbn [snd] in T, O, I, Q, Id.
    destruct (IH w1) as (T' & O' & I' & Q' & Id').
    rewrite T', O', I', Q', Id', T, O, I, Q, Id.
    by rewrite <- !app_assoc.
Qed.

Section WithCenter.
Context `{BaseCenter}.

Lemma handle_progress_put (a : Actor) (msg : string) (value : option Z)
    (w : World) :
  base_logs_then_put a msg value w (exec (handle_progress a msg value) w).
Proof.
  unfold base_logs_then_put, exec, handle_progress, progress_events,
    progress_items, bind, record, output_put.
  set (w1 := {| mc_id := mc_id w; trace := _ |}).
  destruct (for_each_handle_log_events a (progress_lines msg value) w1)
    as (T & O & I & Q & Id).
  destruct (for_each (progress_lines msg value) (_handle_log a) w1)
    as [[] w2].
  cbn [snd] in *. cbn [snd mc_id _instruction_queue
    _input_queue _output_queue trace].
  rewrite T, O, I, Q, Id. subst w1.
  cbn [mc_id _instruction_queue _input_queue _output_queue trace].
  rewrite <- !app_assoc. auto.
Qed.

(** C9. [_handle_log] and [handle_data] each make the call of the base
    class and then put exactly one Output Event. [handle_progress] makes
    the call of the base class, which logs the message and so comes back
    to [_handle_log]: one log event is put for each line it logs, and
    then exactly one progress event. In each event the matching fields
    only are populated and both lifecycle flags are false. *)
Theorem handlers_put_their_events (a : Actor) (line msg : string)
    (value : option Z) (payload : PyVal) (w : World) :
  (base_then_put a (Base_handle_log line) (log_item line) w
     (exec (_handle_log a line) w) /\
   populated (log_item line) = [F_log]) /\
  (base_logs_then_put a msg value w (exec (handle_progress a msg value) w) /\
   progress_events a msg value =
     Ev a (ABase (Base_handle_progress msg value)) ::
     flat_map (fun line => [Ev a (ABase (Base_handle_log line));
                            Ev a (APut (log_item line))])
              (progress_lines msg value) ++
     [Ev a (APut (progress_item msg value))] /\
   progress_items msg value =
     map log_item (progress_lines msg value) ++ [progress_item msg value] /\
   populated (progress_item msg value) =
     F_progress_msg :: match value with Some _ => [F_progress] | None => [] end)
  /\
  (base_then_put a (Base_handle_data payload) (data_item payload) w
     (exec (handle_data a payload) w) /\
   populated (data_item payload) =
     if is_not_None payload then [F_data] else []).
Proof.
  split; [|split].
  - split; [apply handle_log_put|reflexivity].
  - split; [apply handle_progress_put|].
    repeat split. destruct value; reflexivity.
  - split; [apply handle_data_put|]. destruct payload; reflexivity.
Qed.

End WithCenter.

(** With a base class that logs a progress message as one line, one call
    of [handle_progress] leaves two events in the output queue, the log
    event before the progress event: it does not put one event only. *)
Lemma handle_progress_puts_two_events :
  let w' := exec (@handle_progress sample_center Child "half" (Some 1%Z))
              world0 in
  _output_queue w' =
    [log_item "INFO | half"; progress_item "half" (Some 1%Z)] /\
  trace w' =
    [Ev Child (ABase (Base_handle_progress "half" (Some 1%Z)));
     Ev Child (ABase (Base_handle_log "INFO | half"));
     Ev Child (APut (log_item "INFO | half"));
     Ev Child (APut (progress_item "half" (Some 1%Z)))] /\
  ~ base_then_put Child (Base_handle_progress "half" (Some 1%Z))
      (progress_item "half" (Some 1%Z)) world0 w'.
Proof.
  split; [reflexivity|]. split; [reflexivity|].
  intros (_ & O & _). discriminate O.
Qed.

End MessageFacts.

(** ** The poller *)

Module PollerFacts.
Import Message LongRunning Observe.

Lemma dispatch_item_calls (item : OutputItem) (p : Panel) :
  dispatch_item item p =
  {| timer_running := timer_running p && negb (task_finished item);
     calls := calls p ++ item_calls item |}.
Proof.
  destruct p as [running cs].
  destruct item as [l d pm pv started finished].
  unfold dispatch_item, item_calls, fields, field_calls, ui, timer_Stop.
  simpl.
  destruct l, (is_not_None d), pm, pv, started, finished; simpl;
    rewrite <- ?app_assoc, ?app_nil_r, ?andb_true_r, ?andb_false_r;
    reflexivity.
Qed.

Lemma on_timer_loop_drains (fuel : nat) :
  forall (p : Panel) (w : World),
    length (_output_queue w) < fuel ->
    let q := _output_queue w in
    let p' := fst (on_timer_loop fuel p w) in
    let w' := snd (on_timer_loop fuel p w) in
    _output_queue w' = [] /\
    calls p' = calls p ++ flat_map item_calls q /\
    timer_running p' = timer_running p && negb (existsb task_finished q) /\
    _input_queue w' = _input_queue w /\
    _instruction_queue w' = _instruction_queue w.
Proof.
  induction fuel as [|fuel IH]; intros p w Hlen; [lia|].
  simpl. unfold bind, receive_output.
  destruct (_output_queue w) as [|item rest] eqn:Hq; simpl.
  - rewrite Hq, app_nil_r, andb_true_r. auto.
  - simpl in Hlen.
    match goal with
    | |- context [on_timer_loop fuel ?p1 ?w1] =>
        destruct (IH p1 w1) as (Hout & Hcalls & Htimer & Hin & Hinstr);
        [simpl; lia|]
    end.
    simpl in *.
    rewrite Hout, Hcalls, Htimer, Hin, Hinstr, dispatch_item_calls; simpl.
    rewrite <- app_assoc, negb_orb, andb_assoc. auto.
Qed.

(** C8. One call of [on_timer] takes every queued Output Event, oldest
    first, until [receive_output] returns [None]; for each event it goes
    through the fields in the order log, data, progress message, progress
    value, task started, task finished and makes the calls of those that
    are populated; an event with [task_finished] stops the timer, which
    is stopped when [on_timer] returns. *)
Theorem on_timer_drains_in_field_order (p : Panel) (w : World) :
  let q := _output_queue w in
  let p' := fst (on_timer p w) in
  let w' := snd (on_timer p w) in
  _output_queue w' = [] /\
  calls p' =
    calls p ++
    flat_map (fun item => flat_map (field_calls item)
                [F_log; F_data; F_progress_msg; F_progress; F_task_started;
                 F_task_finished]) q /\
  timer_running p' = timer_running p && negb (existsb task_finished q) /\
  _input_queue w' = _input_queue w /\
  _instruction_queue w' = _instruction_queue w.
Proof.
  unfold on_timer. apply on_timer_loop_drains. lia.
Qed.

Example on_timer_two_events :
  let w := exec (signal_task_finished Supervisor)
             (exec (@handle_progress sample_center Child "half" (Some 1%Z))
                world0) in
  let p := {| timer_running := true; calls := [] |} in
  fst (on_timer p w) =
  {| timer_running := false;
     calls := [AppendText ("INFO | half" +:+ Str.newline);
               Call_handle_progress_msg "half"; Call_handle_progress 1;
               Timer_Stop; Call_handle_task_finished] |}.
Proof. reflexivity. Qed.

End PollerFacts.

(** ** The child: [work] *)

Module WorkFacts.
Import Message Task Observe.

Section WithByase.
Context `{Byase}.

Lemma targets_sret {A} id (a : A) : script_targets id (sret a).
Proof. constructor. Qed.

Lemma targets_sraise {A} id e : script_targets id (@sraise A e).
Proof. constructor. Qed.

Lemma targets_lift {A} id (r : PyExc + A) : script_targets id (lift r).
Proof. constructor. Qed.

Lemma targets_sbind {A B} id (c : Script A) (k : A -> Script B) :
  script_targets id c -> (forall a, script_targets id (k a)) ->
  script_targets id (sbind c k).
Proof.
  unfold script_targets. intros Hc Hk.
  destruct c as [steps [e|a]]; simpl; [exact Hc|].
  specialize (Hk a). destruct (k a) as [steps' r]; simpl in *.
  apply Forall_app; auto.
Qed.

Lemma targets_getitem id d key : script_targets id (getitem d key).
Proof. unfold getitem. destruct (d !! key); constructor. Qed.

Lemma targets_on_mc id call :
  (forall id', targets id (call id')) ->
  script_targets id (on_mc (VMc id) call).
Proof. intros Hcall. repeat constructor. apply Hcall. Qed.

Lemma targets_emit_step id e : targets id (emit_step id e).
Proof. intros id'. destruct e; simpl; congruence. Qed.

Lemma targets_call {A} id (r : Run A) : script_targets id (call (VMc id) r).
Proof.
  unfold script_targets; simpl.
  induction (emitted r) as [|e es IH]; simpl; constructor; auto.
  apply targets_emit_step.
Qed.

Lemma targets_handle_data id payload :
  script_targets id (mc_handle_data (VMc id) payload).
Proof. repeat constructor. intros id'; simpl; congruence. Qed.

Lemma targets_handle_progress id msg value :
  script_targets id (mc_handle_progress (VMc id) msg value).
Proof. repeat constructor. intros id'; simpl; congruence. Qed.

Lemma targets_log_error id e : script_targets id (mc_log_error (VMc id) e).
Proof. repeat constructor. intros id'; simpl; congruence. Qed.

Lemma targets_step_print_exc id : script_targets id (step Step_print_exc).
Proof. repeat constructor. intros id'; simpl; congruence. Qed.

Create HintDb targets.
#[local] Hint Resolve targets_sret targets_sraise targets_lift
  targets_getitem targets_call targets_handle_data targets_handle_progress
  targets_log_error targets_step_print_exc : targets.

Lemma targets_try_except_else id body handler orelse :
  script_targets id body -> (forall e, script_targets id (handler e)) ->
  script_targets id orelse ->
  script_targets id (try_except_else body handler orelse).
Proof.
  unfold script_targets, try_except_else. intros Hb Hh Ho.
  destruct body as [steps [e|[]]]; simpl in *.
  - destruct (is_Exception e); [|exact Hb].
    specialize (Hh e). destruct (handler e) as [steps' r]; simpl in *.
    apply Forall_app; auto.
  - destruct orelse as [steps' r]; simpl in *. apply Forall_app; auto.
Qed.

Lemma sbind_sret {A B} (a : A) (k : A -> Script B) : sbind (sret a) k = k a.
Proof. unfold sbind, sret. by destruct (k a). Qed.

Lemma getitem_Some (d : gmap string PyVal) key v :
  d !! key = Some v -> getitem d key = sret v.
Proof. unfold getitem. by intros ->. Qed.

Lemma targets_load_task id (params : gmap string PyVal) :
  params !! "mc" = Some (VMc id) -> script_targets id (_load_task params).
Proof.
  intros Hmc. unfold _load_task.
  apply targets_sbind; [auto with targets|]. intros task_dir.
  rewrite (getitem_Some _ _ _ Hmc), sbind_sret.
  destruct (annotation_tasks task_dir) as [rows failure].
  repeat (apply targets_sbind; [auto with targets|]; intros ?).
  auto with targets.
Qed.

Lemma targets_load_stats id stats_path :
  script_targets id (_load_stats stats_path (VMc id)).
Proof.
  unfold _load_stats.
  repeat (apply targets_sbind; [auto with targets|]; intros ?).
  auto with targets.
Qed.

Lemma targets_dispatch id tool (params : gmap string PyVal) :
  params !! "mc" = Some (VMc id) ->
  script_targets id (dispatch tool params (VMc id)).
Proof.
  intros Hmc. unfold dispatch.
  repeat match goal with
         | |- context [String.eqb ?a ?b] => destruct (String.eqb a b)
         end;
    auto using targets_load_task with targets.
  - apply targets_sbind; [auto with targets|]; intros ?.
    apply targets_load_stats.
  - apply targets_sbind; auto with targets.
Qed.

Lemma targets_run_script id (c : Script unit) :
  script_targets id c -> Forall (targets id) (run_script c).
Proof.
  unfold script_targets, run_script.
  destruct c as [steps [e|[]]]; simpl; [|done].
  intros Hs. apply Forall_app; split; [done|].
  repeat constructor. intros id'; simpl; congruence.
Qed.

(** Whatever the tool, a child whose params hold the message center [id]
    under ['mc'] calls that message center only. *)
Lemma work_targets id tool (params : gmap string PyVal) :
  params !! "mc" = Some (VMc id) -> Forall (targets id) (work tool params).
Proof.
  intros Hmc. apply targets_run_script. unfold work_script.
  rewrite (getitem_Some _ _ _ Hmc), sbind_sret.
  apply targets_try_except_else.
  - by apply targets_dispatch.
  - intros e.
    repeat (apply targets_sbind; [auto with targets|]; intros ?).
    auto with targets.
  - auto with targets.
Qed.

Lemma unrecognized_eqb tool :
  recognized tool = false ->
  String.eqb tool "gen-task" = false /\ String.eqb tool "load-task" = false /\
  String.eqb tool "inference" = false /\ String.eqb tool "resume" = false /\
  String.eqb tool "stats" = false /\ String.eqb tool "plot" = false.
Proof.
  unfold recognized, tools; simpl. rewrite !orb_false_iff. tauto.
Qed.

(** C4, as the code has it. A tool name that is none of the six names of
    [work] meets no branch of the [if]/[elif] chain: no library function
    is called, nothing is raised, and the child reports 'Process
    completed!' and nothing else. *)
Theorem unrecognized_tool_completes (tool : string)
    (params : gmap string PyVal) (id : nat) :
  recognized tool = false ->
  params !! "mc" = Some (VMc id) ->
  work tool params = [Task.Call_handle_progress id "Process completed!" None].
Proof.
  intros Htool Hmc.
  apply unrecognized_eqb in Htool as (H1 & H2 & H3 & H4 & H5 & H6).
  unfold work, work_script.
  rewrite (getitem_Some _ _ _ Hmc), sbind_sret.
  unfold dispatch. rewrite H1, H2, H3, H4, H5, H6. reflexivity.
Qed.

(** When the library call of a tool raises an instance of [Exception],
    [work] catches it: after what the call has emitted, the child puts
    'Error occurred!', logs the error, prints the traceback and ends,
    the exception not leaving [work]. *)
Lemma work_catches (tool : string) (params : gmap string PyVal) (id : nat)
    (e : PyExc) :
  params !! "mc" = Some (VMc id) ->
  collaborator_raises params e tool ->
  is_Exception e = true ->
  exists emissions,
    work tool params =
    map (emit_step id) emissions ++
    [Task.Call_handle_progress id "Error occurred!" None;
     Call_log_error id e; Step_print_exc].
Proof.
  intros Hmc Hraises He.
  unfold work, work_script.
  rewrite (getitem_Some _ _ _ Hmc), sbind_sret.
  destruct Hraises as [Hr|task_dir rows d Hdir Hr Hd|Hr|Hr|Hr|Hr];
    unfold dispatch; simpl.
  - exists (emitted (generate_annotation params)).
    unfold try_except_else. rewrite Hr, He. reflexivity.
  - exists []. unfold _load_task.
    rewrite (getitem_Some _ _ _ Hdir), sbind_sret.
    rewrite (getitem_Some _ _ _ Hmc), sbind_sret.
    rewrite Hr, Hd. simpl. rewrite He. reflexivity.
  - exists (emitted (inference params)).
    unfold try_except_else. rewrite Hr, He. reflexivity.
  - exists (emitted (inference_resume params)).
    unfold try_except_else. rewrite Hr, He. reflexivity.
  - exists (emitted (stats params)).
    unfold try_except_else. rewrite Hr. simpl. rewrite He. reflexivity.
  - exists (emitted (plot_task params)).
    unfold try_except_else. rewrite Hr. simpl. rewrite He. reflexivity.
Qed.

(** When the library call of a tool raises, what [work] does depends on
    the exception: an instance of [Exception] is caught as above, and
    anything else leaves [work] after what the call has emitted. *)
Lemma work_raises (tool : string) (params : gmap string PyVal) (id : nat)
    (e : PyExc) :
  params !! "mc" = Some (VMc id) ->
  collaborator_raises params e tool ->
  exists emissions,
    work tool params =
    map (emit_step id) emissions ++
    if is_Exception e
    then [Task.Call_handle_progress id "Error occurred!" None;
          Call_log_error id e; Step_print_exc]
    else [Step_uncaught].
Proof.
  intros Hmc Hraises.
  destruct (is_Exception e) eqn:He; [by apply work_catches|].
  unfold work, work_script.
  rewrite (getitem_Some _ _ _ Hmc), sbind_sret.
  destruct Hraises as [Hr|task_dir rows d Hdir Hr Hd|Hr|Hr|Hr|Hr];
    unfold dispatch; simpl.
  - exists (emitted (generate_annotation params)).
    unfold try_except_else. rewrite Hr, He. reflexivity.
  - exists []. unfold _load_task.
    rewrite (getitem_Some _ _ _ Hdir), sbind_sret.
    rewrite (getitem_Some _ _ _ Hmc), sbind_sret.
    rewrite Hr, Hd. simpl. rewrite He. reflexivity.
  - exists (emitted (inference params)).
    unfold try_except_else. rewrite Hr, He. reflexivity.
  - exists (emitted (inference_resume params)).
    unfold try_except_else. rewrite Hr, He. reflexivity.
  - exists (emitted (stats params)).
    unfold try_except_else. rewrite Hr. simpl. rewrite He. reflexivity.
  - exists (emitted (plot_task params)).
    unfold try_except_else. rewrite Hr. simpl. rewrite He. reflexivity.
Qed.

End WithByase.

(** C4, as the claim has it, fails: the unknown tool ["convert"] makes the
    child report 'Process completed!', and no error. *)
Lemma unrecognized_tool_reports_no_error :
  ~ reports_error (@work sample_byase "convert" (<["mc" := VMc 7]> ∅)).
Proof.
  intros [_ Hnone]. apply (Hnone 7 None). left. reflexivity.
Qed.

Example load_task_of_empty_directory :
  @work sample_byase "load-task"
    (<["mc" := VMc 7]> (<["task_dir" := VStr "/tmp/empty"]> ∅)) =
  [Task.Call_handle_data 7
     (VFrame [("Number", []); ("Task ID", []); ("Gene Name", []);
              ("Genomic Location", []); ("Isoforms", []); ("Phased", []);
              ("SNPs", []); ("Status", [])]);
   Task.Call_handle_progress 7 "Process completed!" None].
Proof. reflexivity. Qed.

Example task_columns_two_rows :
  task_columns 0
    [{| f_id := CStr "t1"; f_gene_name := CStr "g1"; f_location := CStr "1:5";
        f_isoforms_count := CInt 2; f_phased := 1; f_snps_count := CInt 3 |};
     {| f_id := CStr "t2"; f_gene_name := CStr "g2"; f_location := CStr "2:9";
        f_isoforms_count := CInt 4; f_phased := 0; f_snps_count := CInt 1 |}] =
  inr [[CInt 1; CInt 2]; [CStr "t1"; CStr "t2"]; [CStr "g1"; CStr "g2"];
       [CStr "1:5"; CStr "2:9"]; [CInt 2; CInt 4];
       [CStr "Phased"; CStr "Non-Phased"]; [CInt 3; CInt 1];
       [CStr "Waiting"; CStr "Waiting"]].
Proof. reflexivity. Qed.

Example task_columns_bad_phase :
  task_columns 0
    [{| f_id := CStr "t1"; f_gene_name := CStr "g1"; f_location := CStr "1:5";
        f_isoforms_count := CInt 2; f_phased := 2; f_snps_count := CInt 3 |}] =
  inl AssertionError.
Proof. reflexivity. Qed.

Example rename_diff_cols_names :
  map fst
    (_rename_diff_cols
       [("Gene Name", []); ("Allele 1 & 2 Difference Mean", []);
        ("Allele 1 & 2 Difference (95% HPD) Lower", [])]) =
  ["Gene Name"; "Allele 1 & 2 Mean"; "Lower"].
Proof. reflexivity. Qed.

Example base_exception_leaves_work :
  try_except_else ([], inl (BaseExc "SystemExit"))
    (fun e => mc_handle_progress (VMc 7) "Error occurred!" None)
    (mc_handle_progress (VMc 7) "Process completed!" None) =
  ([], inl (BaseExc "SystemExit")).
Proof. reflexivity. Qed.

Lemma unrecognized_tool_completes_witness :
  @work sample_byase "convert" (<["mc" := VMc 7]> ∅) =
  [Task.Call_handle_progress 7 "Process completed!" None].
Proof.
  apply unrecognized_tool_completes; reflexivity.
Defined.

End WorkFacts.

(** ** The supervisor: [task] *)

Module SupervisorFacts.
Import Message Task Observe MessageFacts WorkFacts.

Lemma puts_app d1 d2 : puts (d1 ++ d2) = puts d1 ++ puts d2.
Proof. apply omap_app. Qed.

Lemma lifecycle_app d1 d2 : lifecycle (d1 ++ d2) = lifecycle d1 ++ lifecycle d2.
Proof. apply flat_map_app. Qed.

Lemma by_supervisor_app d1 d2 :
  by_supervisor (d1 ++ d2) = by_supervisor d1 ++ by_supervisor d2.
Proof. apply omap_app. Qed.

Lemma extends_by_refl w : extends_by w w [].
Proof. unfold extends_by. simpl. by rewrite !app_nil_r. Qed.

Lemma extends_by_trans w w1 w2 d1 d2 :
  extends_by w w1 d1 -> extends_by w1 w2 d2 -> extends_by w w2 (d1 ++ d2).
Proof.
  intros (Ht1 & Ho1 & Hi1) (Ht2 & Ho2 & Hi2). unfold extends_by.
  rewrite Ht2, Ht1, Ho2, Ho1, Hi2, Hi1, puts_app, !app_assoc. auto.
Qed.

Lemma child_ran_refl w : child_ran w w [].
Proof. split; [apply extends_by_refl|]. auto. Qed.

Lemma child_ran_trans w w1 w2 d1 d2 :
  child_ran w w1 d1 -> child_ran w1 w2 d2 -> child_ran w w2 (d1 ++ d2).
Proof.
  intros (He1 & Hb1 & Hq1 & Hi1) (He2 & Hb2 & Hq2 & Hi2).
  split; [eapply extends_by_trans; eauto|].
  split; [apply Forall_app; auto|]. split; congruence.
Qed.

Lemma bystander_child act :
  marks (Ev Child act) = [] -> ordinary act -> bystander (Ev Child act).
Proof. intros Hm Hf. repeat split; done. Qed.

Lemma bystander_waiting d : Forall bystander d -> Forall waiting d.
Proof.
  intros Hd. eapply Forall_impl; [exact Hd|]. intros e He. by right.
Qed.

(** A method that makes the base class's call and one put of an event
    without a lifecycle flag, called by the child. *)
Lemma child_base_then_put call item w w' :
  base_then_put Child call item w w' ->
  task_started item = false -> task_finished item = false ->
  child_ran w w' [Ev Child (ABase call); Ev Child (APut item)].
Proof.
  intros (Ht & Ho & Hi & Hq & Hid) Hs Hf.
  split; [by repeat split|]. split; [|by split].
  constructor; [by repeat split|]. constructor; [|constructor].
  split; [done|]. split; [|done]. unfold marks; simpl. by rewrite Hs, Hf.
Qed.

(** An action of the child that is no put and no call elsewhere. *)
Lemma child_record_ran act w :
  marks (Ev Child act) = [] -> puts [Ev Child act] = [] -> ordinary act ->
  child_ran w (snd (record Child act w)) [Ev Child act].
Proof.
  intros Hm Hp Hf. split; [|split; [|by split]].
  - unfold extends_by. rewrite Hp, app_nil_r. by repeat split.
  - constructor; [|constructor]. by apply bystander_child.
Qed.

Lemma handle_log_ran line w :
  child_ran w (snd (_handle_log Child line w))
    [Ev Child (ABase (Base_handle_log line)); Ev Child (APut (log_item line))].
Proof.
  eapply child_base_then_put; [apply handle_log_put|done..].
Qed.

Lemma puts_log_events (a : Actor) (lines : list string) :
  puts (log_events a lines) = map log_item lines.
Proof. induction lines as [|line lines IH]; simpl; [done|]. by f_equal. Qed.

Lemma lifecycle_log_events (a : Actor) (lines : list string) :
  lifecycle (log_events a lines) = [].
Proof. by induction lines. Qed.

Lemma bystander_log_events (a : Actor) (lines : list string) :
  a <> Supervisor -> Forall bystander (log_events a lines).
Proof.
  intros Ha. induction lines as [|line lines IH]; simpl; [constructor|].
  by repeat constructor.
Qed.

Lemma after_start_log_events (a : Actor) (lines : list string) :
  Forall after_start (log_events a lines).
Proof.
  induction lines as [|line lines IH]; simpl; [constructor|].
  repeat constructor; simpl; auto.
Qed.

Lemma by_supervisor_log_events (lines : list string) :
  by_supervisor (log_events Supervisor lines) =
  flat_map (fun line => [ABase (Base_handle_log line); APut (log_item line)])
           lines.
Proof. induction lines as [|line lines IH]; simpl; [done|]. by do 2 f_equal. Qed.

Section WithCenter.
Context `{BaseCenter}.

Lemma puts_progress_events a msg value :
  puts (progress_events a msg value) = progress_items msg value.
Proof.
  unfold progress_events, progress_items.
  change (Ev a (ABase (Base_handle_progress msg value)) :: ?l)
    with ([Ev a (ABase (Base_handle_progress msg value))] ++ l).
  by rewrite !puts_app, puts_log_events.
Qed.

Lemma lifecycle_progress_events a msg value :
  lifecycle (progress_events a msg value) = [].
Proof.
  unfold progress_events.
  change (Ev a (ABase (Base_handle_progress msg value)) :: ?l)
    with ([Ev a (ABase (Base_handle_progress msg value))] ++ l).
  by rewrite !lifecycle_app, lifecycle_log_events.
Qed.

Lemma bystander_progress_events a msg value :
  a <> Supervisor -> Forall bystander (progress_events a msg value).
Proof.
  intros Ha. unfold progress_events. constructor; [by repeat split|].
  apply Forall_app. split; [by apply bystander_log_events|].
  by repeat constructor.
Qed.

Lemma after_start_progress_events a msg value :
  Forall after_start (progress_events a msg value).
Proof.
  unfold progress_events. constructor; [split; simpl; auto|].
  apply Forall_app. split; [apply after_start_log_events|].
  repeat constructor; simpl; auto.
Qed.

Lemma progress_items_flags msg value :
  Forall (fun item => task_started item = false /\
                      task_finished item = false)
         (progress_items msg value).
Proof.
  unfold progress_items. apply Forall_app. split.
  - by apply Forall_map, Forall_true.
  - by repeat constructor.
Qed.

(** [handle_progress] called by one who is not the supervisor. *)
Lemma logs_then_put_extends a msg value w w' :
  base_logs_then_put a msg value w w' ->
  extends_by w w' (progress_events a msg value).
Proof.
  intros (Ht & Ho & Hi & Hq & Hid).
  unfold extends_by. by rewrite puts_progress_events.
Qed.

Lemma handle_progress_ran msg value w :
  child_ran w (snd (handle_progress Child msg value w))
    (progress_events Child msg value).
Proof.
  pose proof (handle_progress_put Child msg value w) as Hput.
  split; [by apply logs_then_put_extends|].
  split; [by apply bystander_progress_events|].
  destruct Hput as (_ & _ & Hi & Hq & _). by split.
Qed.

End WithCenter.

Section WithByase.
Context `{Byase}.

Lemma for_each_handle_log_ran lines :
  forall w, exists d,
    child_ran w (snd (for_each lines (_handle_log Child) w)) d.
Proof.
  induction lines as [|line lines IH]; intros w; simpl.
  - exists []. apply child_ran_refl.
  - unfold bind. destruct (_handle_log Child line w) as [[] w1] eqn:E.
    destruct (IH w1) as [d Hd].
    eexists. eapply child_ran_trans; [|exact Hd].
    pose proof (handle_log_ran line w) as Hl. by rewrite E in Hl.
Qed.

Lemma child_step_ran s w :
  targets (mc_id w) s -> exists d, child_ran w (snd (child_step s w)) d.
Proof.
  intros Ht.
  assert (Hid : forall id, step_center s = Some id ->
                           Nat.eqb id (mc_id w) = true).
  { intros id Hc. apply Nat.eqb_eq. by apply Ht. }
  destruct s as [id line|id msg value|id payload|id e| |]; simpl;
    unfold on_center; rewrite ?(Hid id eq_refl).
  - eexists. apply handle_log_ran.
  - eexists. apply handle_progress_ran.
  - eexists. eapply child_base_then_put; [apply handle_data_put|done..].
  - unfold log_error, bind.
    pose proof (child_record_ran (ALogError e) w eq_refl eq_refl I) as Hr.
    destruct (record Child (ALogError e) w) as [[] w1].
    destruct (for_each_handle_log_ran (error_lines e) w1) as [d Hd].
    eexists. eapply child_ran_trans; [exact Hr|exact Hd].
  - eexists. by apply child_record_ran.
  - eexists. by apply child_record_ran.
Qed.

Lemma run_child_ran n :
  forall child w,
    Forall (targets (mc_id w)) child ->
    exists d,
      child_ran w (snd (run_child n child w)) d /\
      fst (run_child n child w) = drop n child.
Proof.
  induction n as [|n IH]; intros child w Hchild.
  - exists []. destruct child; split; auto using child_ran_refl.
  - destruct child as [|s rest]; simpl.
    { exists []. split; auto using child_ran_refl. }
    apply Forall_cons in Hchild as [Hs Hrest].
    unfold bind.
    destruct (child_step_ran s w Hs) as [d1 H1].
    destruct (child_step s w) as [[] w1]; simpl in H1.
    destruct (IH rest w1) as (d2 & H2 & Hdrop).
    { destruct H1 as ((_ & _ & ->) & _). exact Hrest. }
    exists (d1 ++ d2). split; [|exact Hdrop].
    eapply child_ran_trans; eauto.
Qed.

(** What a step of the child adds to the output queue. *)
Lemma child_step_output s w :
  targets (mc_id w) s ->
  _output_queue (snd (child_step s w)) = _output_queue w ++ step_puts s.
Proof.
  intros Ht.
  assert (Hid : forall id, step_center s = Some id ->
                           Nat.eqb id (mc_id w) = true).
  { intros id Hc. apply Nat.eqb_eq. by apply Ht. }
  destruct s as [id line|id msg value|id payload|id e| |]; simpl;
    unfold on_center; rewrite ?(Hid id eq_refl); try by rewrite app_nil_r.
  - apply (handle_log_put Child line w).
  - apply (handle_progress_put Child msg value w).
  - apply (handle_data_put Child payload w).
  - unfold log_error, bind. cbn [record].
    match goal with
    | |- context [for_each (error_lines e) (_handle_log Child) ?w0] =>
        destruct (for_each_handle_log_events Child (error_lines e) w0)
          as (_ & O & _);
        destruct (for_each (error_lines e) (_handle_log Child) w0)
    end.
    exact O.
Qed.

Lemma run_child_output n :
  forall child w,
    Forall (targets (mc_id w)) child ->
    _output_queue (snd (run_child n child w)) =
    _output_queue w ++ flat_map step_puts (take n child).
Proof.
  induction n as [|n IH]; intros child w Hchild.
  { destruct child; simpl; by rewrite app_nil_r. }
  destruct child as [|s rest]; simpl; [by rewrite app_nil_r|].
  apply Forall_cons in Hchild as [Hs Hrest].
  unfold bind.
  pose proof (child_step_output s w Hs) as Hout.
  destruct (child_step_ran s w Hs) as (d1 & (_ & _ & Hid) & _).
  destruct (child_step s w) as [[] w1]. cbn [snd] in Hout, Hid.
  rewrite IH, Hout, <- app_assoc; [done|]. by rewrite Hid.
Qed.

End WithByase.

Lemma item_eta (item : InputItem) :
  {| tool := tool item; params := params item |} = item.
Proof. by destruct item. Qed.

Lemma for_each_send_instruction (instructions : list Instruction) :
  forall w,
    for_each instructions (send_instruction Controller) w =
    (tt, {| mc_id := mc_id w;
            _instruction_queue := _instruction_queue w ++ instructions;
            _input_queue := _input_queue w;
            _output_queue := _output_queue w;
            trace := trace w ++
                     map (fun i => Ev Controller (APutInstruction i))
                         instructions |}).
Proof.
  induction instructions as [|i rest IH]; intros w; simpl.
  - by rewrite !app_nil_r, world_eta.
  - unfold bind; simpl. rewrite IH; simpl. by rewrite <- !app_assoc.
Qed.

Lemma for_each_send_input (items : list InputItem) :
  forall w,
    for_each items
      (fun item => send_input Controller (tool item) (params item)) w =
    (tt, {| mc_id := mc_id w;
            _instruction_queue := _instruction_queue w;
            _input_queue := _input_queue w ++ items;
            _output_queue := _output_queue w;
            trace := trace w ++
                     map (fun item => Ev Controller (APutInput item)) items |}).
Proof.
  induction items as [|item rest IH]; intros w; simpl.
  - by rewrite !app_nil_r, world_eta.
  - unfold bind; simpl. rewrite IH; simpl.
    by rewrite item_eta, <- !app_assoc.
Qed.

Lemma for_each_kill (ds : list nat) :
  forall w,
    for_each ds (fun pid => record Supervisor (AKill pid)) w =
    (tt, {| mc_id := mc_id w;
            _instruction_queue := _instruction_queue w;
            _input_queue := _input_queue w;
            _output_queue := _output_queue w;
            trace := trace w ++ map (fun pid => Ev Supervisor (AKill pid)) ds |}).
Proof.
  induction ds as [|pid rest IH]; intros w; simpl.
  - by rewrite !app_nil_r, world_eta.
  - unfold bind; simpl. rewrite IH; simpl. by rewrite <- !app_assoc.
Qed.

Lemma puts_sends (instructions : list Instruction) :
  puts (map (fun i => Ev Controller (APutInstruction i)) instructions) = [].
Proof. induction instructions; simpl; auto. Qed.

Lemma puts_submissions (items : list InputItem) :
  puts (map (fun item => Ev Controller (APutInput item)) items) = [].
Proof. induction items; simpl; auto. Qed.

Lemma puts_kills (ds : list nat) :
  puts (map (fun pid => Ev Supervisor (AKill pid)) ds) = [].
Proof. induction ds; simpl; auto. Qed.

Lemma bystander_sends (instructions : list Instruction) :
  Forall bystander
    (map (fun i => Ev Controller (APutInstruction i)) instructions).
Proof. induction instructions; simpl; constructor; auto. by repeat split. Qed.

Lemma bystander_submissions (items : list InputItem) :
  Forall bystander (map (fun item => Ev Controller (APutInput item)) items).
Proof. induction items; simpl; constructor; auto. by repeat split. Qed.

Lemma by_supervisor_bystanders (d : list Event) :
  Forall bystander d -> by_supervisor d = [].
Proof.
  induction 1 as [|e d (He & _) _ IH]; [done|].
  change (by_supervisor ([e] ++ d) = []).
  rewrite by_supervisor_app, IH.
  destruct e as [[] act]; simpl in *; congruence.
Qed.

Section WithByase.
Context `{Byase}.

(** The inner loop: while it waits, the supervisor only sleeps; it is left
    in silence, or by the cancellation of the child. *)
Lemma poll_shape (ts : list Tick) :
  forall child w,
    Forall (targets (mc_id w)) child ->
    exists body tail,
      extends_by w (snd (poll ts child w)) (body ++ tail) /\
      Forall waiting body /\
      cancels ts body (fst (poll ts child w)) tail /\
      _input_queue (snd (poll ts child w)) = _input_queue w.
Proof.
  induction ts as [|t ts IH]; intros child w Hchild.
  { exists [], []. destruct child; simpl;
      auto using extends_by_refl. }
  destruct child as [|s rest].
  { exists [], []. simpl. auto using extends_by_refl. }
  destruct (poll (t :: ts) (s :: rest) w) as [result w'] eqn:Hpoll.
  cbn [fst snd].
  cbn [poll] in Hpoll. unfold bind at 1 in Hpoll. cbn [record] in Hpoll.
  set (w1 := {| mc_id := mc_id w;
                _instruction_queue := _instruction_queue w;
                _input_queue := _input_queue w;
                _output_queue := _output_queue w;
                trace := trace w ++ [Ev Supervisor ASleep] |}) in Hpoll.
  assert (E1 : extends_by w w1 [Ev Supervisor ASleep]).
  { unfold extends_by; simpl. by rewrite app_nil_r. }
  unfold bind at 1 in Hpoll.
  destruct (run_child_ran (child_steps t) (s :: rest) w1 Hchild)
    as (d1 & (E2 & B2 & Q2 & I2) & Hdrop).
  destruct (run_child (child_steps t) (s :: rest) w1) as [child' w2].
  simpl in E2, Q2, I2, Hdrop. subst child'.
  unfold bind at 1 in Hpoll. rewrite for_each_send_instruction in Hpoll.
  set (sends := map (fun i => Ev Controller (APutInstruction i)) (sent t))
    in Hpoll.
  set (w3 := {| mc_id := mc_id w2;
                _instruction_queue := _instruction_queue w2 ++ sent t;
                _input_queue := _input_queue w2;
                _output_queue := _output_queue w2;
                trace := trace w2 ++ sends |}) in Hpoll.
  assert (E3 : extends_by w2 w3 sends).
  { unfold extends_by, sends; simpl. by rewrite puts_sends, app_nil_r. }
  assert (Hid3 : mc_id w3 = mc_id w).
  { simpl. destruct E2 as (_ & _ & ->). reflexivity. }
  assert (Hin3 : _input_queue w3 = _input_queue w)
    by (simpl; rewrite I2; reflexivity).
  assert (Hdrop3 : Forall (targets (mc_id w3))
                     (drop (child_steps t) (s :: rest))).
  { rewrite Hid3. by apply Forall_drop. }
  pose proof (extends_by_trans _ _ _ _ _ E1
                (extends_by_trans _ _ _ _ _ E2 E3)) as E13.
  assert (W13 : Forall waiting ([Ev Supervisor ASleep] ++ d1 ++ sends)).
  { apply Forall_app; split; [repeat constructor|].
    apply bystander_waiting, Forall_app; split; [done|].
    apply bystander_sends. }
  unfold bind at 1, receive_instruction in Hpoll.
  destruct (_instruction_queue w3) as [|[] q] eqn:Hq.
  - (* no instruction: the loop goes on *)
    destruct (IH (drop (child_steps t) (s :: rest)) w3 Hdrop3)
      as (body & tail & E & W & C & I).
    rewrite Hpoll in E, C, I. cbn [fst snd] in E, C, I.
    exists (([Ev Supervisor ASleep] ++ d1 ++ sends) ++ body), tail.
    rewrite <- app_assoc. split; [eapply extends_by_trans; eauto|].
    split; [apply Forall_app; auto|]. split; [|congruence].
    destruct result; auto.
    destruct C as (late & k & t' & Hk & Hbody & Hlate & ->).
    exists late, (S k), t'. split; [done|]. split; [|auto].
    rewrite !by_supervisor_app, Hbody, (by_supervisor_bystanders d1 B2),
      (by_supervisor_bystanders sends (bystander_sends _)).
    reflexivity.
  - (* TERMINATE *)
    set (w4 := {| mc_id := mc_id w3;
                  _instruction_queue := q;
                  _input_queue := _input_queue w3;
                  _output_queue := _output_queue w3;
                  trace := trace w3 ++
                           [Ev Supervisor (AGetInstruction TERMINATE)] |})
      in Hpoll.
    unfold bind at 1 in Hpoll.
    destruct (run_child_ran (last_steps t)
                (drop (child_steps t) (s :: rest)) w4 Hdrop3)
      as (late & (E5 & B5 & Q5 & I5) & _).
    destruct (run_child (last_steps t) (drop (child_steps t) (s :: rest)) w4)
      as [child5 w5].
    destruct E5 as (T5 & O5 & Id5).
    subst w4.
    cbn [fst snd mc_id _instruction_queue _input_queue _output_queue trace]
      in T5, O5, Id5, Q5, I5.
    unfold bind at 1 in Hpoll. rewrite for_each_kill in Hpoll.
    unfold bind at 1 in Hpoll. cbn [record] in Hpoll.
    unfold bind at 1, ret in Hpoll.
    match type of Hpoll with
    | context [handle_progress Supervisor ?m ?v ?w0] =>
        destruct (handle_progress_put Supervisor m v w0)
          as (T7 & O7 & I7 & Q7 & Id7);
        unfold exec in T7, O7, I7, Q7, Id7;
        destruct (handle_progress Supervisor m v w0) as [[] w7]
    end.
    cbn [fst snd mc_id _instruction_queue _input_queue _output_queue trace]
      in T7, O7, I7, Q7, Id7.
    injection Hpoll as <- <-.
    exists ([Ev Supervisor ASleep] ++ d1 ++ sends),
      (Ev Supervisor (AGetInstruction TERMINATE) ::
       late ++ cancellation (descendants t)).
    split; [|split; [done|split]].
    + destruct E13 as (T13 & O13 & Id13).
      unfold extends_by, cancellation.
      rewrite T7, O7, Id7, T5, O5, Id5, T13, O13, Id13.
      change (Ev Supervisor (AGetInstruction TERMINATE) :: ?l)
        with ([Ev Supervisor (AGetInstruction TERMINATE)] ++ l).
      change (Ev Supervisor ATerminate :: ?l)
        with ([Ev Supervisor ATerminate] ++ l).
      rewrite !puts_app, puts_kills, puts_progress_events. simpl.
      rewrite <- !app_assoc. simpl. rewrite <- !app_assoc. auto.
    + exists late, 0, t. split; [done|]. split; [|auto].
      rewrite !by_supervisor_app, (by_supervisor_bystanders d1 B2),
        (by_supervisor_bystanders sends (bystander_sends _)).
      reflexivity.
    + rewrite I7. cbn [_input_queue]. rewrite I5. exact Hin3.
Qed.

(** One turn of the inner loop with the child alive: the instructions
    sent during the sleep join those pending; if there is none the loop
    goes on, and the first one ends it otherwise. *)
Lemma poll_step (t : Tick) (ts : list Tick) (s : ChildStep)
    (rest : list ChildStep) (w : World) :
  Forall (targets (mc_id w)) (s :: rest) ->
  exists w3,
    _instruction_queue w3 = _instruction_queue w ++ sent t /\
    mc_id w3 = mc_id w /\
    _output_queue w3 =
      _output_queue w ++ flat_map step_puts (take (child_steps t) (s :: rest))
    /\
    match _instruction_queue w3 with
    | [] =>
        poll (t :: ts) (s :: rest) w =
        poll ts (drop (child_steps t) (s :: rest)) w3
    | _ :: q =>
        fst (poll (t :: ts) (s :: rest) w) = Terminated /\
        _instruction_queue (snd (poll (t :: ts) (s :: rest) w)) = q /\
        _output_queue (snd (poll (t :: ts) (s :: rest) w)) =
          _output_queue w3 ++
          flat_map step_puts
            (take (last_steps t) (drop (child_steps t) (s :: rest))) ++
          progress_items "Process terminated!" None
    end.
Proof.
  intros Hchild.
  destruct (poll (t :: ts) (s :: rest) w) as [result w'] eqn:Hpoll.
  cbn [poll] in Hpoll. unfold bind at 1 in Hpoll. cbn [record] in Hpoll.
  set (w1 := {| mc_id := mc_id w;
                _instruction_queue := _instruction_queue w;
                _input_queue := _input_queue w;
                _output_queue := _output_queue w;
                trace := trace w ++ [Ev Supervisor ASleep] |}) in Hpoll.
  unfold bind at 1 in Hpoll.
  pose proof (run_child_output (child_steps t) (s :: rest) w1 Hchild) as Hout.
  destruct (run_child_ran (child_steps t) (s :: rest) w1 Hchild)
    as (d1 & ((T2 & O2 & Id2) & B2 & Q2 & I2) & Hdrop).
  destruct (run_child (child_steps t) (s :: rest) w1) as [child' w2].
  cbn [fst snd] in T2, O2, Id2, Q2, I2, Hdrop, Hout. subst child'.
  unfold bind at 1 in Hpoll. rewrite for_each_send_instruction in Hpoll.
  match type of Hpoll with
  | context [bind (receive_instruction Supervisor) _ ?w0] => exists w0
  end.
  split; [cbn [_instruction_queue]; by rewrite Q2|].
  split; [exact Id2|]. split; [exact Hout|].
  unfold bind at 1, receive_instruction in Hpoll.
  cbn [_instruction_queue] in *.
  destruct (_instruction_queue w2 ++ sent t) as [|[] q]; [by symmetry|].
  unfold bind at 1 in Hpoll.
  match type of Hpoll with
  | context [run_child (last_steps t) ?c ?w0] =>
      assert (Hc : Forall (targets (mc_id w0)) c)
        by (cbn [mc_id]; rewrite Id2; by apply Forall_drop);
      pose proof (run_child_output (last_steps t) c w0 Hc) as O5;
      destruct (run_child_ran (last_steps t) c w0 Hc)
        as (late & (_ & _ & Q5 & _) & _);
      cbn [fst snd _instruction_queue] in Q5;
      destruct (run_child (last_steps t) c w0) as [child5 w5]
  end.
  cbn [fst snd _instruction_queue _output_queue] in Q5, O5.
  unfold bind at 1 in Hpoll. rewrite for_each_kill in Hpoll.
  unfold bind at 1 in Hpoll. cbn [record] in Hpoll.
  unfold bind at 1, ret in Hpoll.
  match type of Hpoll with
  | context [handle_progress Supervisor ?m ?v ?w0] =>
      destruct (handle_progress_put Supervisor m v w0)
        as (_ & O7 & _ & Q7 & _);
      unfold exec in O7, Q7;
      destruct (handle_progress Supervisor m v w0) as [[] w7]
  end.
  cbn [fst snd mc_id _instruction_queue _input_queue _output_queue trace]
    in O7, Q7.
  injection Hpoll as <- <-. cbn [fst snd _output_queue].
  split; [done|]. split; [by rewrite Q7|].
  by rewrite O7, O5, <- app_assoc.
Qed.

(** A turn of the inner loop entered with the child alive, in which an
    instruction is there after the sleep: it is taken, whatever the child
    has done during the sleep, and the child is cancelled. *)
Lemma poll_turn_taken (t : Tick) (ts : list Tick) (s : ChildStep)
    (rest : list ChildStep) (w : World) (i : Instruction)
    (q : list Instruction) :
  Forall (targets (mc_id w)) (s :: rest) ->
  _instruction_queue w ++ sent t = i :: q ->
  exists during late,
    Forall bystander during /\ Forall bystander late /\
    extends_by w (snd (poll (t :: ts) (s :: rest) w))
      (Ev Supervisor ASleep :: during ++
       Ev Supervisor (AGetInstruction TERMINATE) :: late ++
       cancellation (descendants t)) /\
    puts during = flat_map step_puts (take (child_steps t) (s :: rest)) /\
    puts late =
      flat_map step_puts
        (take (last_steps t) (drop (child_steps t) (s :: rest))).
Proof.
  intros Hchild Hpending.
  destruct (poll (t :: ts) (s :: rest) w) as [result w'] eqn:Hpoll.
  cbn [fst snd].
  cbn [poll] in Hpoll. unfold bind at 1 in Hpoll. cbn [record] in Hpoll.
  set (w1 := {| mc_id := mc_id w;
                _instruction_queue := _instruction_queue w;
                _input_queue := _input_queue w;
                _output_queue := _output_queue w;
                trace := trace w ++ [Ev Supervisor ASleep] |}) in Hpoll.
  assert (E1 : extends_by w w1 [Ev Supervisor ASleep]).
  { unfold extends_by; simpl. by rewrite app_nil_r. }
  unfold bind at 1 in Hpoll.
  pose proof (run_child_output (child_steps t) (s :: rest) w1 Hchild) as Hout.
  destruct (run_child_ran (child_steps t) (s :: rest) w1 Hchild)
    as (d1 & (E2 & B2 & Q2 & I2) & Hdrop).
  destruct (run_child (child_steps t) (s :: rest) w1) as [child' w2].
  cbn [fst snd _instruction_queue _input_queue _output_queue] in
    E2, Q2, I2, Hdrop, Hout.
  subst child'.
  assert (P1 : puts d1 = flat_map step_puts (take (child_steps t) (s :: rest))).
  { destruct E2 as (_ & O2 & _). cbn [_output_queue] in O2.
    rewrite O2 in Hout. by apply app_inv_head in Hout. }
  unfold bind at 1 in Hpoll. rewrite for_each_send_instruction in Hpoll.
  set (sends := map (fun i => Ev Controller (APutInstruction i)) (sent t))
    in Hpoll.
  set (w3 := {| mc_id := mc_id w2;
                _instruction_queue := _instruction_queue w2 ++ sent t;
                _input_queue := _input_queue w2;
                _output_queue := _output_queue w2;
                trace := trace w2 ++ sends |}) in Hpoll.
  assert (E3 : extends_by w2 w3 sends).
  { unfold extends_by, sends; simpl. by rewrite puts_sends, app_nil_r. }
  assert (Hid3 : mc_id w3 = mc_id w).
  { simpl. destruct E2 as (_ & _ & ->). reflexivity. }
  assert (Hdrop3 : Forall (targets (mc_id w3))
                     (drop (child_steps t) (s :: rest))).
  { rewrite Hid3. by apply Forall_drop. }
  pose proof (extends_by_trans _ _ _ _ _ E1
                (extends_by_trans _ _ _ _ _ E2 E3)) as E13.
  unfold bind at 1, receive_instruction in Hpoll.
  assert (Hq : _instruction_queue w3 = i :: q).
  { cbn [_instruction_queue w3]. by rewrite Q2. }
  rewrite Hq in Hpoll. destruct i.
  set (w4 := {| mc_id := mc_id w3;
                _instruction_queue := q;
                _input_queue := _input_queue w3;
                _output_queue := _output_queue w3;
                trace := trace w3 ++
                         [Ev Supervisor (AGetInstruction TERMINATE)] |})
    in Hpoll.
  unfold bind at 1 in Hpoll.
  pose proof (run_child_output (last_steps t)
                (drop (child_steps t) (s :: rest)) w4 Hdrop3) as Hout5.
  destruct (run_child_ran (last_steps t)
              (drop (child_steps t) (s :: rest)) w4 Hdrop3)
    as (late & (E5 & B5 & Q5 & I5) & _).
  destruct (run_child (last_steps t) (drop (child_steps t) (s :: rest)) w4)
    as [child5 w5].
  destruct E5 as (T5 & O5 & Id5).
  subst w4.
  cbn [fst snd mc_id _instruction_queue _input_queue _output_queue trace]
    in T5, O5, Id5, Q5, I5, Hout5.
  assert (P5 : puts late =
               flat_map step_puts
                 (take (last_steps t) (drop (child_steps t) (s :: rest)))).
  { rewrite O5 in Hout5. by apply app_inv_head in Hout5. }
  unfold bind at 1 in Hpoll. rewrite for_each_kill in Hpoll.
  unfold bind at 1 in Hpoll. cbn [record] in Hpoll.
  unfold bind at 1, ret in Hpoll.
  match type of Hpoll with
  | context [handle_progress Supervisor ?m ?v ?w0] =>
      destruct (handle_progress_put Supervisor m v w0)
        as (T7 & O7 & I7 & Q7 & Id7);
      unfold exec in T7, O7, I7, Q7, Id7;
      destruct (handle_progress Supervisor m v w0) as [[] w7]
  end.
  cbn [fst snd mc_id _instruction_queue _input_queue _output_queue trace]
    in T7, O7, I7, Q7, Id7.
  injection Hpoll as <- <-.
  exists (d1 ++ sends), late.
  split; [apply Forall_app; split; [done|apply bystander_sends]|].
  split; [done|]. split; [|split; [|done]].
  - destruct E13 as (T13 & O13 & Id13).
    unfold extends_by, cancellation.
    rewrite T7, O7, Id7, T5, O5, Id5, T13, O13, Id13.
    change (Ev Supervisor ASleep :: ?l) with ([Ev Supervisor ASleep] ++ l).
    change (Ev Supervisor (AGetInstruction TERMINATE) :: ?l)
      with ([Ev Supervisor (AGetInstruction TERMINATE)] ++ l).
    change (Ev Supervisor ATerminate :: ?l)
      with ([Ev Supervisor ATerminate] ++ l).
    rewrite !puts_app, puts_kills, puts_progress_events. simpl.
    rewrite <- !app_assoc. simpl. rewrite <- !app_assoc. auto.
  - unfold sends. by rewrite puts_app, puts_sends, app_nil_r.
Qed.

(** A child that ends within the sleeps of the turns does not leave the
    supervisor in the inner loop. *)
Lemma poll_settles (ts : list Tick) :
  forall child w,
    Forall (targets (mc_id w)) child ->
    length child <= scheduled ts ->
    fst (poll ts child w) <> StillPolling.
Proof.
  induction ts as [|t ts IH]; intros child w Hchild Hlen.
  { destruct child; simpl in *; [done|lia]. }
  destruct child as [|s rest]; [done|].
  destruct (poll_step t ts s rest w Hchild) as (w3 & _ & Hid & _ & Hstep).
  destruct (_instruction_queue w3) as [|i q].
  - rewrite Hstep. apply IH.
    + rewrite Hid. by apply Forall_drop.
    + rewrite length_drop. simpl in *. lia.
  - destruct Hstep as [-> _]. done.
Qed.

(** When the inner loop ends because the child has exited, every step of
    the child has been taken: the output queue has grown by what the
    steps put. *)
Lemma poll_exited_output (ts : list Tick) :
  forall child w,
    Forall (targets (mc_id w)) child ->
    fst (poll ts child w) = Exited ->
    _output_queue (snd (poll ts child w)) =
    _output_queue w ++ flat_map step_puts child.
Proof.
  induction ts as [|t ts IH]; intros child w Hchild Hres.
  { destruct child; simpl in *; [by rewrite app_nil_r|discriminate]. }
  destruct child as [|s rest]; [simpl; by rewrite app_nil_r|].
  destruct (poll_step t ts s rest w Hchild) as (w3 & _ & Hid & Hout & Hstep).
  destruct (_instruction_queue w3) as [|i q].
  - rewrite Hstep in *. rewrite IH; [|rewrite Hid; by apply Forall_drop|done].
    rewrite Hout, <- app_assoc, <- flat_map_app, take_drop. done.
  - destruct Hstep as [Hterminated _]. congruence.
Qed.

(** With no instruction pending and none sent, the inner loop is not
    left on a [TERMINATE]. *)
Lemma poll_undisturbed (ts : list Tick) :
  forall child w,
    Forall (targets (mc_id w)) child ->
    _instruction_queue w = [] ->
    Forall (fun t => sent t = []) ts ->
    fst (poll ts child w) <> Terminated.
Proof.
  induction ts as [|t ts IH]; intros child w Hchild Hq Hsent.
  { by destruct child. }
  destruct child as [|s rest]; [done|].
  apply Forall_cons in Hsent as [Ht Hts].
  destruct (poll_step t ts s rest w Hchild) as (w3 & Q3 & Hid & _ & Hstep).
  rewrite Hq, Ht in Q3. rewrite Q3 in Hstep. rewrite Hstep.
  apply IH; [rewrite Hid; by apply Forall_drop|done..].
Qed.

Lemma lookup_mc (params : gmap string PyVal) (id : nat) :
  <["mc" := VMc id]> params !! "mc" = Some (VMc id).
Proof. apply lookup_insert_eq. Qed.

(** The supervisor's start of a task, from the world [w] in which the
    controller's sends of the round have been made to the world in which
    the child has been started. *)
Lemma starting_extends (r : Round) (w : World) (item : InputItem)
    (rest : list InputItem) :
  let w4 :=
    {| mc_id := mc_id w;
       _instruction_queue := _instruction_queue w ++ idle_sent r;
       _input_queue := rest;
       _output_queue := _output_queue w ++ [started_item];
       trace := trace w ++ arrivals r ++ starting item (mc_id w) |} in
  extends_by w w4 (arrivals r ++ starting item (mc_id w)).
Proof.
  unfold extends_by, arrivals; simpl.
  rewrite !puts_app, puts_submissions, puts_sends. auto.
Qed.

(** The steps of [task_iteration] in the equation [Hit], up to the start
    of the child, when [Hq] gives the Input Item at the head of the queue. *)
Ltac enter_iteration Hit Hq :=
  unfold task_iteration in Hit;
  unfold bind at 1 in Hit; rewrite for_each_send_input in Hit;
  unfold bind at 1 in Hit; rewrite for_each_send_instruction in Hit;
  unfold bind at 1, receive_input in Hit;
  cbn [_input_queue] in Hit; rewrite Hq in Hit;
  unfold bind at 1, self in Hit; unfold bind at 1, record in Hit;
  unfold bind at 1, signal_task_started, output_put in Hit;
  unfold bind at 1, record in Hit;
  cbn [fst snd mc_id _instruction_queue _input_queue _output_queue trace]
    in Hit.

Lemma cancels_bystanders ts d body result tail :
  Forall bystander d -> cancels ts body result tail ->
  cancels ts (d ++ body) result tail.
Proof.
  intros Hd. destruct result; simpl; auto.
  intros (late & k & t & Hk & Hbody & Hlate & ->).
  exists late, k, t. split; [done|]. split; [|done].
  by rewrite by_supervisor_app, (by_supervisor_bystanders d Hd).
Qed.

(** One turn of the outer loop that finds an Input Item. *)
Lemma iteration_shape (r : Round) (w : World) (item : InputItem)
    (rest : list InputItem) :
  _input_queue w ++ submitted r = item :: rest ->
  exists result body tail,
    fst (task_iteration r w) = Some result /\
    extends_by w (snd (task_iteration r w))
      (arrivals r ++ starting item (mc_id w) ++
       body ++ tail ++ closing result) /\
    Forall waiting body /\
    cancels (ticks r) body result tail /\
    _input_queue (snd (task_iteration r w)) = rest /\
    (length (work (tool item) (<["mc" := VMc (mc_id w)]> (params item)))
       <= startup r + scheduled (ticks r) ->
     result <> StillPolling).
Proof.
  intros Hq.
  destruct (task_iteration r w) as [res w'] eqn:Hit. cbn [fst snd].
  enter_iteration Hit Hq.
  pose proof (starting_extends r w item rest) as E4. cbn zeta in E4.
  match type of Hit with
  | context [bind (run_child (startup r) _) _ ?w0] =>
      assert (Hw : w0 =
        {| mc_id := mc_id w;
           _instruction_queue := _instruction_queue w ++ idle_sent r;
           _input_queue := rest;
           _output_queue := _output_queue w ++ [started_item];
           trace := trace w ++ arrivals r ++ starting item (mc_id w) |})
        by (unfold arrivals, starting; f_equal;
            rewrite <- !app_assoc; reflexivity);
      rewrite Hw in Hit; clear Hw
  end.
  set (w4 := {| mc_id := mc_id w;
                _instruction_queue := _instruction_queue w ++ idle_sent r;
                _input_queue := rest;
                _output_queue := _output_queue w ++ [started_item];
                trace := trace w ++ arrivals r ++ starting item (mc_id w) |})
    in *.
  set (child0 := work (tool item) (<["mc" := VMc (mc_id w)]> (params item)))
    in *.
  assert (Hchild0 : Forall (targets (mc_id w4)) child0).
  { apply work_targets, lookup_mc. }
  unfold bind at 1 in Hit.
  destruct (run_child_ran (startup r) child0 w4 Hchild0)
    as (d0 & (E5 & B5 & Q5 & I5) & Hdrop).
  destruct (run_child (startup r) child0 w4) as [child w5].
  cbn [fst snd] in E5, Q5, I5, Hdrop. subst child.
  assert (Hchild : Forall (targets (mc_id w5)) (drop (startup r) child0)).
  { destruct E5 as (_ & _ & ->). by apply Forall_drop. }
  unfold bind at 1 in Hit.
  destruct (poll_shape (ticks r) _ w5 Hchild) as (body & tail & E6 & W6 & C6 & I6).
  pose proof (poll_settles (ticks r) _ w5 Hchild) as Hsettles.
  destruct (poll (ticks r) (drop (startup r) child0) w5) as [result w6].
  cbn [fst snd] in E6, C6, I6, Hsettles.
  pose proof (extends_by_trans _ _ _ _ _ E4
                (extends_by_trans _ _ _ _ _ E5 E6)) as E.
  assert (Hlive : length child0 <= startup r + scheduled (ticks r) ->
                  result <> StillPolling).
  { intros Hlen. apply Hsettles. rewrite length_drop. lia. }
  exists result, (d0 ++ body), tail.
  assert (Hbody : Forall waiting (d0 ++ body)).
  { apply Forall_app; split; [by apply bystander_waiting|done]. }
  assert (Hrest : _input_queue w6 = rest).
  { rewrite I6, I5. reflexivity. }
  apply (cancels_bystanders _ d0 _ _ _ B5) in C6.
  destruct result.
  - unfold bind, record, signal_task_finished, output_put, ret in Hit.
    cbn [fst snd mc_id _instruction_queue _input_queue _output_queue trace]
      in Hit.
    injection Hit as <- <-.
    split; [done|]. split; [|by repeat split].
    destruct E as (T & O & Id). unfold extends_by.
    cbn [mc_id _output_queue trace closing finishing].
    rewrite T, O, Id, !puts_app.
    change (puts finishing) with [finished_item].
    rewrite <- !app_assoc. simpl. auto.
  - unfold bind, record, signal_task_finished, output_put, ret in Hit.
    cbn [fst snd mc_id _instruction_queue _input_queue _output_queue trace]
      in Hit.
    injection Hit as <- <-.
    split; [done|]. split; [|by repeat split].
    destruct E as (T & O & Id). unfold extends_by.
    cbn [mc_id _output_queue trace closing finishing].
    rewrite T, O, Id, !puts_app.
    change (puts finishing) with [finished_item].
    rewrite <- !app_assoc. simpl. auto.
  - unfold ret in Hit. injection Hit as <- <-.
    split; [done|]. split; [|by repeat split].
    simpl closing. rewrite app_nil_r.
    rewrite <- !app_assoc in E. by rewrite <- !app_assoc.
Qed.

(** One turn of the outer loop that finds no Input Item: the supervisor
    stays in [receive_input]. *)
Lemma iteration_blocked (r : Round) (w : World) :
  _input_queue w ++ submitted r = [] ->
  task_iteration r w =
  (None, {| mc_id := mc_id w;
            _instruction_queue := _instruction_queue w ++ idle_sent r;
            _input_queue := [];
            _output_queue := _output_queue w;
            trace := trace w ++ arrivals r |}).
Proof.
  intros Hq. unfold task_iteration.
  unfold bind at 1. rewrite for_each_send_input.
  unfold bind at 1. rewrite for_each_send_instruction.
  unfold bind at 1, receive_input. cbn [_input_queue]. rewrite Hq.
  unfold ret, arrivals.
  cbn [mc_id _instruction_queue _input_queue _output_queue trace].
  by rewrite <- app_assoc.
Qed.

Lemma lifecycle_quiet (d : list Event) :
  Forall (fun e => marks e = []) d -> lifecycle d = [].
Proof.
  induction 1 as [|e d He _ IH]; [done|].
  unfold lifecycle in *; simpl. by rewrite He, IH.
Qed.

Lemma lifecycle_bystanders (d : list Event) :
  Forall bystander d -> lifecycle d = [].
Proof.
  intros Hd. apply lifecycle_quiet.
  eapply Forall_impl; [exact Hd|]. by intros e (_ & He & _).
Qed.

Lemma lifecycle_waiting (d : list Event) :
  Forall waiting d -> lifecycle d = [].
Proof.
  intros Hd. apply lifecycle_quiet.
  eapply Forall_impl; [exact Hd|]. by intros e [->|(_ & He & _)].
Qed.

Lemma lifecycle_arrivals (r : Round) : lifecycle (arrivals r) = [].
Proof.
  apply lifecycle_bystanders, Forall_app.
  split; [apply bystander_submissions|apply bystander_sends].
Qed.

Lemma lifecycle_cancellation (ds : list nat) :
  lifecycle (cancellation ds) = [].
Proof.
  unfold cancellation. rewrite lifecycle_app.
  change (Ev Supervisor ATerminate :: ?l)
    with ([Ev Supervisor ATerminate] ++ l).
  rewrite lifecycle_app, lifecycle_progress_events.
  rewrite (lifecycle_quiet (map _ ds)); [done|].
  induction ds; simpl; constructor; auto.
Qed.

Lemma lifecycle_cancels ts body result tail :
  cancels ts body result tail -> lifecycle tail = [].
Proof.
  destruct result; simpl; try by intros ->.
  intros (late & k & t & _ & _ & Hlate & ->).
  change (lifecycle (late ++ cancellation (descendants t)) = []).
  by rewrite lifecycle_app, lifecycle_bystanders, lifecycle_cancellation.
Qed.

(** The lifecycle events of one turn of the outer loop that finds an
    Input Item. *)
Lemma lifecycle_iteration (r : Round) (item : InputItem) (id : nat)
    (body tail : list Event) (result : PollResult) :
  Forall waiting body -> cancels (ticks r) body result tail ->
  lifecycle (arrivals r ++ starting item id ++ body ++ tail ++ closing result)
  = [Dequeued; Started] ++
    match result with StillPolling => [] | _ => [Finished] end.
Proof.
  intros Hbody Htail.
  rewrite !lifecycle_app, lifecycle_arrivals, (lifecycle_waiting body Hbody),
    (lifecycle_cancels _ _ _ _ Htail).
  by destruct result.
Qed.

(** C1. In every run of [task], the lifecycle events are those of whole
    tasks, one after the other: for each Input Item taken, one event with
    [task_started] is put on the output queue and then one with
    [task_finished], before the next Input Item is taken; a run that is
    observed while the child is alive ends with an Input Item taken and
    its [task_started]. And when the child ends within the sleeps of its
    round, the supervisor does leave the inner loop, so that
    [task_finished] is put. *)
Theorem started_then_finished_once_per_item (rounds : list Round) (w : World) :
  (exists d n,
     extends_by w (snd (task rounds w)) d /\
     lifecycle d =
       whole_tasks n ++
       match fst (task rounds w) with
       | AtLoopHead => []
       | InPollLoop => [Dequeued; Started]
       end) /\
  (forall r item rest,
     _input_queue w ++ submitted r = item :: rest ->
     length (work (tool item) (<["mc" := VMc (mc_id w)]> (params item)))
       <= startup r + scheduled (ticks r) ->
     exists d,
       fst (task [r] w) = AtLoopHead /\
       extends_by w (snd (task [r] w)) d /\
       lifecycle d = [Dequeued; Started; Finished]).
Proof.
  split.
  - revert w. induction rounds as [|r rounds IH]; intros w.
    { exists [], 0. split; [apply extends_by_refl|done]. }
    cbn [task]. unfold bind.
    destruct (_input_queue w ++ submitted r) as [|item rest] eqn:Hq.
    + rewrite (iteration_blocked r w Hq).
      match goal with |- context [task rounds ?w0] => set (w1 := w0) end.
      destruct (IH w1) as (d & n & E & L).
      exists (arrivals r ++ d), n. split.
      * eapply extends_by_trans; [|exact E].
        unfold extends_by, w1, arrivals; simpl.
        by rewrite puts_app, puts_submissions, puts_sends, app_nil_r.
      * by rewrite lifecycle_app, lifecycle_arrivals.
    + destruct (iteration_shape r w item rest Hq)
        as (result & body & tail & Hres & E & Hbody & Htail & _).
      pose proof (lifecycle_iteration r item (mc_id w) body tail result
                    Hbody Htail) as L.
      destruct (task_iteration r w) as [res w1].
      cbn [fst snd] in Hres, E. subst res.
      destruct result.
      * destruct (IH w1) as (d & n & E' & L').
        eexists _, (S n). split; [eapply extends_by_trans; eauto|].
        rewrite lifecycle_app, L, L'. reflexivity.
      * destruct (IH w1) as (d & n & E' & L').
        eexists _, (S n). split; [eapply extends_by_trans; eauto|].
        rewrite lifecycle_app, L, L'. reflexivity.
      * eexists _, 0. split; [exact E|]. rewrite L. reflexivity.
  - intros r item rest Hq Hlen.
    destruct (iteration_shape r w item rest Hq)
      as (result & body & tail & Hres & E & Hbody & Htail & _ & Hlive).
    specialize (Hlive Hlen).
    pose proof (lifecycle_iteration r item (mc_id w) body tail result
                  Hbody Htail) as L.
    cbn [task]. unfold bind.
    destruct (task_iteration r w) as [res w1].
    cbn [fst snd] in Hres, E. subst res.
    eexists. destruct result; try done; (split; [done|]); split; eauto.
Qed.

Lemma by_supervisor_waiting (d : list Event) :
  Forall waiting d -> exists n, by_supervisor d = repeat ASleep n.
Proof.
  induction 1 as [|e d He _ [n IH]]; [by exists 0|].
  destruct He as [->|He].
  - exists (S n).
    change (by_supervisor ([Ev Supervisor ASleep] ++ d) = repeat ASleep (S n)).
    by rewrite by_supervisor_app, IH.
  - exists n. change (by_supervisor ([e] ++ d) = repeat ASleep n).
    rewrite by_supervisor_app, by_supervisor_bystanders; [done|].
    by constructor.
Qed.

Lemma by_supervisor_arrivals (r : Round) : by_supervisor (arrivals r) = [].
Proof.
  apply by_supervisor_bystanders, Forall_app.
  split; [apply bystander_submissions|apply bystander_sends].
Qed.

(** C5. When the inner loop is left on a [TERMINATE], which the supervisor
    takes only in a turn it entered with the child alive, the task ends
    with these events and no other: each descendant that psutil lists in
    that turn is killed, then the child is terminated, then
    [handle_progress] is called with 'Process terminated!', which logs
    the message as the base class does and puts it, once, then the child
    is joined and [task_finished] is put. Before that the supervisor has
    started the task, slept once in each turn up to that one, and taken
    the instruction: the descendants killed are those of the turn, the
    [n + 1]th, in which it is taken. *)
Theorem terminate_kills_descendants_then_child (r : Round) (w : World)
    (item : InputItem) (rest : list InputItem) :
  _input_queue w ++ submitted r = item :: rest ->
  fst (task_iteration r w) = Some Terminated ->
  exists before n t,
    ticks r !! n = Some t /\
    extends_by w (snd (task_iteration r w))
      (before ++
       map (fun pid => Ev Supervisor (AKill pid)) (descendants t) ++
       [Ev Supervisor ATerminate;
        Ev Supervisor (ABase (Base_handle_progress "Process terminated!" None))]
       ++ log_events Supervisor (progress_lines "Process terminated!" None) ++
       [Ev Supervisor (APut (progress_item "Process terminated!" None));
        Ev Supervisor AJoin;
        Ev Supervisor (APut finished_item)]) /\
    by_supervisor before =
      starting_actions item (mc_id w) ++ repeat ASleep (S n) ++
      [AGetInstruction TERMINATE].
Proof.
  intros Hq Hres.
  destruct (iteration_shape r w item rest Hq)
    as (result & body & tail & Hres' & E & Hbody & Htail & _).
  rewrite Hres in Hres'. injection Hres' as <-.
  destruct Htail as (late & n & t & Hn & Hsleeps & Hlate & ->).
  exists (arrivals r ++ starting item (mc_id w) ++ body ++
          Ev Supervisor (AGetInstruction TERMINATE) :: late), n, t.
  split; [done|]. split.
  - match type of E with
    | extends_by _ _ ?d =>
        match goal with
        | |- extends_by _ _ ?d' => replace d' with d; [exact E|]
        end
    end.
    unfold cancellation, progress_events, closing, finishing.
    repeat (rewrite <- ?app_assoc; simpl). reflexivity.
  - rewrite !by_supervisor_app, by_supervisor_arrivals, Hsleeps.
    change (Ev Supervisor (AGetInstruction TERMINATE) :: late)
      with ([Ev Supervisor (AGetInstruction TERMINATE)] ++ late).
    rewrite by_supervisor_app, (by_supervisor_bystanders late Hlate).
    reflexivity.
Qed.

Lemma after_start_waiting (d : list Event) :
  Forall waiting d -> Forall after_start d.
Proof.
  intros Hd. eapply Forall_impl; [exact Hd|].
  intros e [->|(_ & He & Ho)]; split; simpl; auto.
  rewrite He. auto.
Qed.

Lemma after_start_bystanders (d : list Event) :
  Forall bystander d -> Forall after_start d.
Proof. intros Hd. by apply after_start_waiting, bystander_waiting. Qed.

Lemma after_start_supervisor (act : Action) :
  ordinary act -> ~ In Started (marks (Ev Supervisor act)) ->
  after_start (Ev Supervisor act).
Proof. by split. Qed.

Lemma after_start_cancellation (ds : list nat) :
  Forall after_start (cancellation ds).
Proof.
  unfold cancellation. apply Forall_app; split.
  - induction ds; simpl; constructor; auto.
    apply after_start_supervisor; simpl; auto.
  - constructor; [split; simpl; auto|].
    apply after_start_progress_events.
Qed.

Lemma after_start_cancels ts body result tail :
  cancels ts body result tail -> Forall after_start tail.
Proof.
  destruct result; simpl; try (intros ->; constructor).
  intros (late & k & t & _ & _ & Hlate & ->). constructor.
  - apply after_start_supervisor; simpl; auto.
  - apply Forall_app; split;
      auto using after_start_bystanders, after_start_cancellation.
Qed.

Lemma after_start_closing result : Forall after_start (closing result).
Proof.
  destruct result; simpl; repeat constructor; simpl; auto;
    intros [?|[]]; discriminate.
Qed.

(** The start of a task, in the order of the code: the Input Item is
    taken, ['mc'] is assigned, [task_started] is put, and then the child
    is started; what follows holds no other start and no other
    [task_started]. *)
Lemma iteration_start_order (r : Round) (w : World) (item : InputItem)
    (rest : list InputItem) :
  _input_queue w ++ submitted r = item :: rest ->
  exists after,
    extends_by w (snd (task_iteration r w))
      (arrivals r ++ starting item (mc_id w) ++ after) /\
    Forall after_start after.
Proof.
  intros Hq.
  destruct (iteration_shape r w item rest Hq)
    as (result & body & tail & _ & E & Hbody & Htail & _).
  exists (body ++ tail ++ closing result). split; [exact E|].
  repeat (apply Forall_app; split);
    eauto using after_start_waiting, after_start_cancels,
      after_start_closing.
Qed.

Lemma controller_arrivals (r : Round) :
  Forall (fun e => who e = Controller) (arrivals r).
Proof.
  unfold arrivals. apply Forall_app; split.
  - generalize (submitted r). intros items.
    induction items as [|x xs IH]; simpl; constructor; auto.
  - generalize (idle_sent r). intros instructions.
    induction instructions as [|x xs IH]; simpl; constructor; auto.
Qed.

(** C6, as the code has it. To start a task the supervisor assigns
    ['mc'] in the params, then puts the event with [task_started], and
    only then starts the child process, in this order and with nothing in
    between; every event of the child comes after the start, and no
    second [task_started] follows. *)
Theorem started_is_put_before_child_starts (r : Round) (w : World)
    (item : InputItem) (rest : list InputItem) :
  _input_queue w ++ submitted r = item :: rest ->
  exists after,
    extends_by w (snd (task_iteration r w))
      (arrivals r ++
       [Ev Supervisor (AGetInput item);
        Ev Supervisor (ASetItem "mc" (VMc (mc_id w)));
        Ev Supervisor (APut started_item);
        Ev Supervisor
          (AStart (tool item) (<["mc" := VMc (mc_id w)]> (params item)))] ++
       after) /\
    Forall (fun e => who e = Controller) (arrivals r) /\
    Forall after_start after.
Proof.
  intros Hq.
  destruct (iteration_start_order r w item rest Hq) as (after & E & Hafter).
  exists after. split; [exact E|]. split; [|exact Hafter].
  apply controller_arrivals.
Qed.

(** C10. Whatever the params of an Input Item hold under ['mc'], the
    supervisor assigns its own message center there after it has taken
    the item and before it starts the child; so the lookup of ['mc'] with
    which [work] begins finds that message center, the child calls no
    other, and none of its events goes elsewhere. *)
Theorem child_uses_supervisor_center (r : Round) (w : World)
    (item : InputItem) (rest : list InputItem) :
  _input_queue w ++ submitted r = item :: rest ->
  let params' := <["mc" := VMc (mc_id w)]> (params item) in
  getitem params' "mc" = sret (VMc (mc_id w)) /\
  Forall (targets (mc_id w)) (work (tool item) params') /\
  exists after,
    extends_by w (snd (task_iteration r w))
      (arrivals r ++
       [Ev Supervisor (AGetInput item);
        Ev Supervisor (ASetItem "mc" (VMc (mc_id w)));
        Ev Supervisor (APut started_item);
        Ev Supervisor (AStart (tool item) params')] ++
       after) /\
    Forall (fun e => forall id, what e <> AForeign id) after.
Proof.
  intros Hq params'.
  split; [apply getitem_Some, lookup_mc|].
  split; [apply work_targets, lookup_mc|].
  destruct (iteration_start_order r w item rest Hq) as (after & E & Hafter).
  exists after. split; [exact E|].
  eapply Forall_impl; [exact Hafter|].
  intros e (_ & He) id Hid. rewrite Hid in He. exact He.
Qed.

(** The inner loop of a round, as [task_iteration] enters it. *)
Lemma iteration_polls (r : Round) (w : World) (item : InputItem)
    (rest : list InputItem) :
  _input_queue w ++ submitted r = item :: rest ->
  exists w5,
    _instruction_queue w5 = _instruction_queue w ++ idle_sent r /\
    mc_id w5 = mc_id w /\
    let child0 := work (tool item) (<["mc" := VMc (mc_id w)]> (params item)) in
    let child := drop (startup r) child0 in
    fst (task_iteration r w) = Some (fst (poll (ticks r) child w5)) /\
    _instruction_queue (snd (task_iteration r w)) =
      _instruction_queue (snd (poll (ticks r) child w5)) /\
    _output_queue w5 =
      _output_queue w ++
      started_item :: flat_map step_puts (take (startup r) child0) /\
    _output_queue (snd (task_iteration r w)) =
      _output_queue (snd (poll (ticks r) child w5)) ++
      puts (closing (fst (poll (ticks r) child w5))).
Proof.
  intros Hq.
  destruct (task_iteration r w) as [res w'] eqn:Hit. cbn [fst snd].
  enter_iteration Hit Hq.
  unfold bind at 1 in Hit.
  match type of Hit with
  | context [run_child (startup r) ?c ?w0] =>
      pose proof (run_child_output (startup r) c w0) as Hout;
      destruct (run_child_ran (startup r) c w0)
        as (d0 & ((_ & _ & Id5) & _ & Q5 & _) & Hdrop);
      [apply work_targets, lookup_mc|];
      destruct (run_child (startup r) c w0) as [child w5]
  end.
  cbn [fst snd mc_id _instruction_queue _output_queue] in Id5, Q5, Hdrop, Hout.
  subst child.
  rewrite <- app_assoc in Hout.
  exists w5. split; [exact Q5|]. split; [exact Id5|]. cbn zeta.
  unfold bind at 1 in Hit.
  destruct (poll (ticks r) _ w5) as [result w6]. cbn [fst snd].
  destruct result;
    unfold bind, record, signal_task_finished, output_put, ret in Hit;
    cbn [fst snd mc_id _instruction_queue _input_queue _output_queue trace]
      in Hit;
    injection Hit as <- <-;
    (split; [done|]); (split; [done|]);
    (split; [apply Hout, work_targets, lookup_mc|]);
    cbn [_output_queue closing]; by rewrite ?app_nil_r.
Qed.

(** A task whose child exits: the output queue holds [task_started], then
    what the steps of the child put, all of them, then [task_finished]. *)
Lemma exited_task_output (r : Round) (w : World) (item : InputItem)
    (rest : list InputItem) :
  _input_queue w ++ submitted r = item :: rest ->
  fst (task_iteration r w) = Some Exited ->
  _output_queue (snd (task_iteration r w)) =
  _output_queue w ++
  started_item ::
  flat_map step_puts
    (work (tool item) (<["mc" := VMc (mc_id w)]> (params item))) ++
  [finished_item].
Proof.
  intros Hq Hres.
  destruct (iteration_polls r w item rest Hq)
    as (w5 & _ & Id5 & Hres' & _ & Hout5 & Hout).
  cbn zeta in *. rewrite Hres' in Hres. injection Hres as Hres.
  rewrite Hout, Hres, poll_exited_output, Hout5; [| |done].
  - simpl. rewrite <- !app_assoc. simpl.
    by rewrite app_assoc, <- flat_map_app, take_drop.
  - rewrite Id5. apply Forall_drop, work_targets, lookup_mc.
Qed.

(** A task that is left alone and whose child ends within the sleeps of
    its round is left by the exit of the child. *)
Lemma undisturbed_task_exits (r : Round) (w : World) (item : InputItem)
    (rest : list InputItem) :
  _input_queue w ++ submitted r = item :: rest ->
  undisturbed r w ->
  length (work (tool item) (<["mc" := VMc (mc_id w)]> (params item)))
    <= startup r + scheduled (ticks r) ->
  fst (task_iteration r w) = Some Exited.
Proof.
  intros Hq (Hpending & Hidle & Hsent) Hlen.
  destruct (iteration_polls r w item rest Hq)
    as (w5 & Q5 & Id5 & Hres & _).
  cbn zeta in *. rewrite Hres. f_equal.
  set (child := drop (startup r) _) in *.
  assert (Hchild : Forall (targets (mc_id w5)) child).
  { rewrite Id5. apply Forall_drop, work_targets, lookup_mc. }
  pose proof (poll_settles (ticks r) child w5 Hchild) as Hsettles.
  pose proof (poll_undisturbed (ticks r) child w5 Hchild) as Hquiet.
  destruct (fst (poll (ticks r) child w5)); [done| |].
  - exfalso. apply Hquiet; [|done..]. by rewrite Q5, Hpending, Hidle.
  - exfalso. apply Hsettles; [|done]. unfold child. rewrite length_drop. lia.
Qed.

Lemma step_puts_emissions (id : nat) (emissions : list Emit) :
  flat_map step_puts (map (emit_step id) emissions) =
  flat_map emit_items emissions.
Proof.
  induction emissions as [|[] emissions IH]; simpl; by rewrite ?IH.
Qed.

(** C3, as the code has it. When the library call that [work] makes for
    the tool of an Input Item raises an instance of [Exception], the
    child catches it: after what the call has emitted it calls
    [handle_progress] with 'Error occurred!', logs the error and prints
    the traceback, and nothing leaves [work]. An exception that is no
    instance of [Exception] is not caught: it leaves [work] after what
    the call has emitted, and neither 'Error occurred!' nor the error is
    put. Either way the supervisor, once the child has ended, joins it,
    puts [task_finished] and goes back to [receive_input]; if no
    [TERMINATE] comes in between, the output queue has received
    [task_started], the events of the call (for each progress message
    the log events of the base class and then the progress event), then,
    for an instance of [Exception] only, the log events of 'Error
    occurred!', its progress event and the lines of the error, and
    [task_finished]. *)
Theorem collaborator_exception_is_contained (r : Round) (w : World)
    (item : InputItem) (rest : list InputItem) (e : PyExc) :
  _input_queue w ++ submitted r = item :: rest ->
  collaborator_raises (<["mc" := VMc (mc_id w)]> (params item)) e (tool item) ->
  let params' := <["mc" := VMc (mc_id w)]> (params item) in
  exists emissions,
    work (tool item) params' =
      map (emit_step (mc_id w)) emissions ++
      (if is_Exception e
       then [Task.Call_handle_progress (mc_id w) "Error occurred!" None;
             Call_log_error (mc_id w) e; Step_print_exc]
       else [Step_uncaught]) /\
    (length (work (tool item) params') <= startup r + scheduled (ticks r) ->
     (exists before,
        extends_by w (snd (task_iteration r w))
          (before ++
           [Ev Supervisor AJoin; Ev Supervisor (APut finished_item)])) /\
     (forall rounds,
        task (r :: rounds) w = task rounds (snd (task_iteration r w))) /\
     (undisturbed r w ->
      fst (task_iteration r w) = Some Exited /\
      _output_queue (snd (task_iteration r w)) =
        _output_queue w ++
        started_item :: flat_map emit_items emissions ++
        (if is_Exception e
         then map log_item (progress_lines "Error occurred!" None) ++
              progress_item "Error occurred!" None ::
              map log_item (error_lines e)
         else []) ++
        [finished_item])).
Proof.
  intros Hq Hraises params'.
  destruct (work_raises (tool item) params' (mc_id w) e) as [emissions Hwork];
    [apply lookup_mc|done|].
  exists emissions. split; [exact Hwork|].
  intros Hlen.
  destruct (iteration_shape r w item rest Hq)
    as (result & body & tail & Hres & E & _ & _ & _ & Hlive).
  specialize (Hlive Hlen). split; [|split].
  - exists (arrivals r ++ starting item (mc_id w) ++ body ++ tail).
    rewrite <- !app_assoc. by destruct result.
  - intros rounds. cbn [task]. unfold bind.
    destruct (task_iteration r w) as [res w1]. cbn [fst snd] in *.
    subst res. by destruct result.
  - intros Halone.
    pose proof (undisturbed_task_exits r w item rest Hq Halone Hlen) as Hexit.
    split; [exact Hexit|].
    rewrite (exited_task_output r w item rest Hq Hexit).
    fold params'. rewrite Hwork, flat_map_app, step_puts_emissions.
    destruct (is_Exception e); simpl; unfold progress_items;
      by rewrite ?app_nil_r, <- ?app_assoc.
Qed.

(** C2, as the code has it. The supervisor takes an instruction only in
    a turn of the inner loop that it entered with the child alive, after
    the sleep of that turn and without asking again whether the child is
    alive. A [TERMINATE] sent while it waits for work is not taken then:
    it stays in the instruction queue, and nothing is killed and nothing
    put. When the child is found to have exited at the head of the inner
    loop, the loop ends without a look at the queue. But in a turn
    entered with the child alive, an instruction that is there after the
    sleep is taken whatever the child has done during the sleep, also
    when it has exited: the descendants are killed, the child is
    terminated, and 'Process terminated!' is logged and put. And a
    [TERMINATE] that is pending when a task is started, such as the
    second of two sent to the task before, is taken in the first turn of
    the inner loop and cancels that task, if its child is alive then. *)
Theorem pending_terminate_cancels_next_task (r : Round) (w : World) :
  (_input_queue w ++ submitted r = [] ->
   fst (task_iteration r w) = None /\
   _instruction_queue (snd (task_iteration r w)) =
     _instruction_queue w ++ idle_sent r /\
   _output_queue (snd (task_iteration r w)) = _output_queue w /\
   trace (snd (task_iteration r w)) = trace w ++ arrivals r /\
   by_supervisor (arrivals r) = []) /\
  (forall ts, poll ts [] w = (Exited, w)) /\
  (forall t ts s steps i q,
     Forall (targets (mc_id w)) (s :: steps) ->
     _instruction_queue w ++ sent t = i :: q ->
     fst (poll (t :: ts) (s :: steps) w) = Terminated /\
     _instruction_queue (snd (poll (t :: ts) (s :: steps) w)) = q /\
     exists during late,
       Forall bystander during /\ Forall bystander late /\
       puts during = flat_map step_puts (take (child_steps t) (s :: steps)) /\
       extends_by w (snd (poll (t :: ts) (s :: steps) w))
         (Ev Supervisor ASleep :: during ++
          Ev Supervisor (AGetInstruction TERMINATE) :: late ++
          map (fun pid => Ev Supervisor (AKill pid)) (descendants t) ++
          Ev Supervisor ATerminate ::
          progress_events Supervisor "Process terminated!" None)) /\
  (forall item rest t ts i q,
     _input_queue w ++ submitted r = item :: rest ->
     ticks r = t :: ts ->
     startup r <
       length (work (tool item) (<["mc" := VMc (mc_id w)]> (params item))) ->
     _instruction_queue w ++ idle_sent r ++ sent t = i :: q ->
     fst (task_iteration r w) = Some Terminated /\
     _instruction_queue (snd (task_iteration r w)) = q).
Proof.
  split; [|split; [|split]].
  - intros Hq. rewrite (iteration_blocked r w Hq). simpl.
    auto using by_supervisor_arrivals.
  - by destruct ts.
  - intros t ts s steps i q Hchild Hpending.
    destruct (poll_step t ts s steps w Hchild) as (w3 & Q3 & _ & _ & Hstep).
    rewrite Hpending in Q3. rewrite Q3 in Hstep.
    destruct Hstep as (Hres & Hinstr & _).
    split; [exact Hres|]. split; [exact Hinstr|].
    destruct (poll_turn_taken t ts s steps w i q Hchild Hpending)
      as (during & late & Hduring & Hlate & E & Hputs & _).
    exists during, late. auto.
  - intros item rest t ts i q Hq Hticks Halive Hpending.
    destruct (iteration_polls r w item rest Hq)
      as (w5 & Q5 & Id5 & Hres & Hinstr & _).
    cbn zeta in Hres, Hinstr. rewrite Hres, Hinstr, Hticks.
    set (child0 := work (tool item) (<["mc" := VMc (mc_id w)]> (params item)))
      in *.
    assert (Hchild0 : Forall (targets (mc_id w5)) (drop (startup r) child0)).
    { rewrite Id5. apply Forall_drop, work_targets, lookup_mc. }
    destruct (drop (startup r) child0) as [|s steps] eqn:Hdrop.
    { apply (f_equal length) in Hdrop. rewrite length_drop in Hdrop.
      simpl in Hdrop. lia. }
    destruct (poll_step t ts s steps w5 Hchild0)
      as (w3 & Q3 & _ & _ & Hstep).
    rewrite Q5, <- app_assoc, Hpending in Q3. rewrite Q3 in Hstep.
    destruct Hstep as (-> & -> & _). done.
Qed.

End WithByase.

(** *** The theorems on runs of the sample library *)

Lemma started_then_finished_once_per_item_witness :
  exists d,
    fst (@task sample_byase [round_plain] world0) = AtLoopHead /\
    extends_by world0 (snd (@task sample_byase [round_plain] world0)) d /\
    lifecycle d = [Dequeued; Started; Finished].
Proof.
  apply (proj2 (@started_then_finished_once_per_item sample_byase [] world0)
           round_plain gen_task []).
  - reflexivity.
  - vm_compute. lia.
Defined.

Example two_tasks_two_pairs :
  lifecycle (trace (snd (@task sample_byase
                           [round_stopped_twice; round_failing] world0))) =
  [Dequeued; Started; Finished; Dequeued; Started; Finished].
Proof. vm_compute. reflexivity. Qed.

Lemma terminate_kills_descendants_then_child_witness :
  exists before n t,
    ticks round_stopped_twice !! n = Some t /\
    extends_by world0
      (snd (@task_iteration sample_byase round_stopped_twice world0))
      (before ++
       map (fun pid => Ev Supervisor (AKill pid)) (descendants t) ++
       [Ev Supervisor ATerminate;
        Ev Supervisor (ABase (Base_handle_progress "Process terminated!" None))]
       ++ log_events Supervisor ["INFO | Process terminated!"] ++
       [Ev Supervisor (APut (progress_item "Process terminated!" None));
        Ev Supervisor AJoin;
        Ev Supervisor (APut finished_item)]) /\
    by_supervisor before =
      starting_actions gen_task 7 ++ repeat ASleep (S n) ++
      [AGetInstruction TERMINATE].
Proof.
  apply (@terminate_kills_descendants_then_child sample_byase
           round_stopped_twice world0 gen_task []); reflexivity.
Defined.

Example terminate_kills_11_then_12_then_child :
  by_supervisor
    (trace (snd (@task_iteration sample_byase round_stopped_twice world0))) =
  starting_actions gen_task 7 ++
  [ASleep; ASleep; AGetInstruction TERMINATE; AKill 11; AKill 12; ATerminate;
   ABase (Base_handle_progress "Process terminated!" None);
   ABase (Base_handle_log "INFO | Process terminated!");
   APut (log_item "INFO | Process terminated!");
   APut (progress_item "Process terminated!" None);
   AJoin; APut finished_item].
Proof. vm_compute. reflexivity. Qed.

(** C6, as the claim has it, fails: in the run of one task the event with
    [task_started] is the fourth of the trace and the start of the child
    the fifth, so [task_started] is put before any child has been
    started. *)
Lemma started_is_put_before_any_start :
  ~ started_after_start (trace (snd (@task sample_byase [round_plain] world0))).
Proof.
  intros Hclaim.
  destruct (Hclaim 3 Supervisor started_item eq_refl eq_refl)
    as (j & tool & params & Hj & Hstart).
  destruct j as [|[|[|j]]]; [vm_compute in Hstart; discriminate..|lia].
Qed.

Lemma started_is_put_before_child_starts_witness :
  exists after,
    extends_by world0 (snd (@task_iteration sample_byase round_plain world0))
      (arrivals round_plain ++
       [Ev Supervisor (AGetInput gen_task);
        Ev Supervisor (ASetItem "mc" (VMc 7));
        Ev Supervisor (APut started_item);
        Ev Supervisor (AStart "gen-task" (<["mc" := VMc 7]> ∅))] ++
       after) /\
    Forall (fun e => who e = Controller) (arrivals round_plain) /\
    Forall after_start after.
Proof.
  apply (@started_is_put_before_child_starts sample_byase round_plain world0
           gen_task []).
  reflexivity.
Defined.

Lemma child_uses_supervisor_center_witness :
  params bad_inference !! "mc" = Some (VStr "mine") /\
  getitem (<["mc" := VMc 7]> (params bad_inference)) "mc" = sret (VMc 7) /\
  Forall (targets 7)
    (@work sample_byase "inference" (<["mc" := VMc 7]> (params bad_inference)))
  /\
  exists after,
    extends_by world0
      (snd (@task_iteration sample_byase round_failing world0))
      (arrivals round_failing ++
       [Ev Supervisor (AGetInput bad_inference);
        Ev Supervisor (ASetItem "mc" (VMc 7));
        Ev Supervisor (APut started_item);
        Ev Supervisor
          (AStart "inference" (<["mc" := VMc 7]> (params bad_inference)))] ++
       after) /\
    Forall (fun e => forall id, what e <> AForeign id) after.
Proof.
  split; [reflexivity|].
  apply (@child_uses_supervisor_center sample_byase round_failing world0
           bad_inference []).
  reflexivity.
Defined.

Lemma collaborator_exception_is_contained_witness :
  exists emissions,
    @work sample_byase "inference" (<["mc" := VMc 7]> (params bad_inference)) =
      map (emit_step 7) emissions ++
      [Task.Call_handle_progress 7 "Error occurred!" None;
       Call_log_error 7 (Exc "ValueError" "bad"); Step_print_exc] /\
    fst (@task_iteration sample_byase round_failing world0) = Some Exited /\
    _output_queue (snd (@task_iteration sample_byase round_failing world0)) =
      started_item :: flat_map (@emit_items sample_center) emissions ++
      (map log_item ["INFO | Error occurred!"] ++
       progress_item "Error occurred!" None ::
       map log_item ["ERROR"]) ++ [finished_item].
Proof.
  destruct (@collaborator_exception_is_contained sample_byase round_failing
              world0 bad_inference [] (Exc "ValueError" "bad"))
    as (emissions & Hwork & Hrun).
  - reflexivity.
  - apply (@raises_inference sample_byase). reflexivity.
  - exists emissions. split; [exact Hwork|].
    apply Hrun.
    + vm_compute. lia.
    + repeat constructor.
Defined.

Example load_task_of_empty_directory_end_to_end :
  _output_queue
    (snd (@task sample_byase
            [{| submitted :=
                  [{| tool := "load-task";
                      params := <["task_dir" := VStr "/tmp/empty"]> ∅ |}];
                idle_sent := []; startup := 0; ticks := [tick 2 []] |}]
            world0)) =
  [started_item;
   data_item
     (VFrame [("Number", []); ("Task ID", []); ("Gene Name", []);
              ("Genomic Location", []); ("Isoforms", []); ("Phased", []);
              ("SNPs", []); ("Status", [])]);
   log_item "INFO | Process completed!";
   progress_item "Process completed!" None;
   finished_item].
Proof. vm_compute. reflexivity. Qed.

Example failing_task_reports_and_finishes :
  puts (trace (snd (@task sample_byase [round_failing] world0))) =
  [started_item; log_item "go"; log_item "INFO | Error occurred!";
   progress_item "Error occurred!" None; log_item "ERROR"; finished_item].
Proof. vm_compute. reflexivity. Qed.

(** C3, as the claim has it, fails for an exception that is no instance
    of [Exception]. When the library call ends in [sys.exit()], the
    [except Exception] of [work] does not catch the [SystemExit]: it
    leaves [work], 'Error occurred!' is not put and the error is not
    logged. The supervisor still puts [task_finished]. *)
Lemma system_exit_is_not_contained :
  let params' := <["mc" := VMc 7]> (params bad_inference) in
  @collaborator_raises sample_exiting params' (BaseExc "SystemExit")
    "inference" /\
  @work sample_exiting "inference" params' =
    [Call_handle_log 7 "go"; Step_uncaught] /\
  fst (@task_iteration sample_exiting round_failing world0) = Some Exited /\
  _output_queue (snd (@task_iteration sample_exiting round_failing world0)) =
    [started_item; log_item "go"; finished_item].
Proof.
  split; [by apply (@raises_inference sample_exiting)|].
  vm_compute. auto.
Qed.

(** C2, as the claim has it, fails. Of two [TERMINATE] sent to a running
    task the second stays in the instruction queue when the task is over,
    and the next task, to which no instruction is sent and which runs to
    its end otherwise, is cancelled by it; a [TERMINATE] sent while the
    supervisor waits for work stays in the queue and does the same. And a
    [TERMINATE] sent after the child has exited, in the sleep in which it
    has, is taken: the descendants listed are killed, the child is
    terminated and 'Process terminated!' is put after 'Process
    completed!'. *)
Lemma leftover_terminate_cancels_next_task :
  let w1 := snd (@task_iteration sample_byase round_stopped_twice world0) in
  let w2 := snd (@task_iteration sample_byase round_idle_stop world0) in
  let w3 := snd (@task_iteration sample_byase round_late_stop world0) in
  (_instruction_queue w1 = [TERMINATE] /\
   fst (@task_iteration sample_byase round_plain w1) = Some Terminated) /\
  (_instruction_queue w2 = [TERMINATE] /\
   fst (@task_iteration sample_byase round_plain w2) = Some Terminated) /\
  fst (@task_iteration sample_byase round_plain world0) = Some Exited /\
  (fst (@task_iteration sample_byase round_late_stop world0) =
     Some Terminated /\
   _instruction_queue w3 = [] /\
   by_supervisor (trace w3) =
     starting_actions gen_task 7 ++
     [ASleep; AGetInstruction TERMINATE; AKill 11; AKill 12; ATerminate;
      ABase (Base_handle_progress "Process terminated!" None);
      ABase (Base_handle_log "INFO | Process terminated!");
      APut (log_item "INFO | Process terminated!");
      APut (progress_item "Process terminated!" None);
      AJoin; APut finished_item] /\
   omap progress_msg (_output_queue w3) =
     ["half"; "Process completed!"; "Process terminated!"]).
Proof. vm_compute. repeat split. Qed.

Lemma pending_terminate_cancels_next_task_witness :
  let w1 := snd (@task_iteration sample_byase round_stopped_twice world0) in
  let child :=
    [Call_handle_log 7 "reading";
     Task.Call_handle_progress 7 "half" (Some 1%Z);
     Task.Call_handle_progress 7 "Process completed!" None] in
  (fst (@task_iteration sample_byase round_plain w1) = Some Terminated /\
   _instruction_queue (snd (@task_iteration sample_byase round_plain w1)) = [])
  /\
  @work sample_byase "gen-task" (<["mc" := VMc 7]> ∅) = child /\
  fst (@poll sample_byase [tick 5 [TERMINATE]] child world0) = Terminated /\
  _instruction_queue
    (snd (@poll sample_byase [tick 5 [TERMINATE]] child world0)) = [] /\
  exists during late,
    Forall bystander during /\ Forall bystander late /\
    puts during = flat_map (@step_puts sample_byase) (take 5 child) /\
    extends_by world0
      (snd (@poll sample_byase [tick 5 [TERMINATE]] child world0))
      (Ev Supervisor ASleep :: during ++
       Ev Supervisor (AGetInstruction TERMINATE) :: late ++
       map (fun pid => Ev Supervisor (AKill pid)) [11; 12] ++
       Ev Supervisor ATerminate ::
       @progress_events sample_center Supervisor "Process terminated!" None).
Proof.
  cbn zeta. split; [|split; [reflexivity|]].
  - apply (proj2 (proj2 (proj2 (@pending_terminate_cancels_next_task
                                  sample_byase round_plain _)))
             gen_task [] (tick 1 []) [tick 5 []] TERMINATE []).
    + reflexivity.
    + reflexivity.
    + vm_compute. lia.
    + reflexivity.
  - apply (proj1 (proj2 (proj2 (@pending_terminate_cancels_next_task
                                  sample_byase round_plain world0)))
             (tick 5 [TERMINATE]) [] (Call_handle_log 7 "reading")
             [Task.Call_handle_progress 7 "half" (Some 1%Z);
              Task.Call_handle_progress 7 "Process completed!" None]
             TERMINATE []).
    + repeat constructor; by intros ? [= <-].
    + reflexivity.
Defined.

End SupervisorFacts.

(** ** The queues, and the way to the panel *)

Module QueueFacts.
Import Message Task LongRunning Observe Measures MessageFacts PollerFacts.

Lemma receive_instructions_queue (a : Actor) (n : nat) :
  forall w,
    length (_instruction_queue w) <= n ->
    fst (receive_instructions a n w) =
      map Some (_instruction_queue w) ++
      replicate (n - length (_instruction_queue w)) None /\
    _instruction_queue (snd (receive_instructions a n w)) = [] /\
    _output_queue (snd (receive_instructions a n w)) = _output_queue w /\
    _input_queue (snd (receive_instructions a n w)) = _input_queue w.
Proof.
  induction n as [|n IH]; intros w Hlen.
  { destruct (_instruction_queue w) eqn:Hq; [|simpl in Hlen; lia].
    simpl. by rewrite Hq. }
  destruct (receive_instructions a (S n) w) as [res wf] eqn:E. cbn [fst snd].
  cbn [receive_instructions] in E.
  unfold bind at 1, receive_instruction in E.
  destruct (_instruction_queue w) as [|i rest] eqn:Hq; unfold bind, ret in E.
  - destruct (IH w) as (R & Q & O & I); [rewrite Hq; simpl; lia|].
    destruct (receive_instructions a n w) as [got w'].
    injection E as <- <-. simpl in *.
    rewrite Hq in *. simpl in *. rewrite R, Nat.sub_0_r. auto.
  - match type of E with
    | context [receive_instructions a n ?w0] =>
        destruct (IH w0) as (R & Q & O & I); [simpl in *; lia|];
        destruct (receive_instructions a n w0) as [got w']
    end.
    injection E as <- <-. simpl in *. rewrite R. auto.
Qed.

Lemma for_each_send_instruction_by (a : Actor) (instructions : list Instruction) :
  forall w,
    for_each instructions (send_instruction a) w =
    (tt, {| mc_id := mc_id w;
            _instruction_queue := _instruction_queue w ++ instructions;
            _input_queue := _input_queue w;
            _output_queue := _output_queue w;
            trace := trace w ++ map (fun i => Ev a (APutInstruction i)) instructions |}).
Proof.
  induction instructions as [|i rest IH]; intros w; simpl.
  - by rewrite !app_nil_r, world_eta.
  - unfold bind; simpl. rewrite IH; simpl. by rewrite <- !app_assoc.
Qed.

(** X2. [receive_instruction] never blocks and takes the instructions in
    the order in which [send_instruction] put them: on an empty queue it
    returns [None] with the world as it was; after sends, the pending
    instructions and then the sent ones come out one per call, and the
    call after the last returns [None]. The input and output queues are
    left alone. *)
Theorem instruction_queue_is_fifo (sender receiver : Actor)
    (sent : list Instruction) (w : World) :
  match _instruction_queue w with
  | [] => receive_instruction receiver w = (None, w)
  | i :: _ => fst (receive_instruction receiver w) = Some i
  end /\
  let w1 := exec (for_each sent (send_instruction sender)) w in
  let n := length (_instruction_queue w) + length sent in
  fst (receive_instructions receiver (S n) w1) =
    map Some (_instruction_queue w ++ sent) ++ [None] /\
  _instruction_queue (snd (receive_instructions receiver (S n) w1)) = [] /\
  _output_queue (snd (receive_instructions receiver (S n) w1)) =
    _output_queue w /\
  _input_queue (snd (receive_instructions receiver (S n) w1)) =
    _input_queue w.
Proof.
  split.
  { unfold receive_instruction. by destruct (_instruction_queue w). }
  cbn zeta. unfold exec. rewrite for_each_send_instruction_by. cbn [snd].
  match goal with
  | |- context [receive_instructions receiver ?n ?w0] =>
      destruct (receive_instructions_queue receiver n w0) as (R & Q & O & I)
  end.
  { simpl. rewrite length_app. lia. }
  cbn [_input_queue _output_queue _instruction_queue] in *.
  rewrite R, Q, O, I, length_app.
  replace (S _ - _) with 1 by lia. auto.
Qed.

Section WithCenter.
Context `{BaseCenter}.

Lemma center_call_put (a : Actor) (c : CenterCall) (w : World) :
  _output_queue (exec (center_call a c) w) = _output_queue w ++ center_items c
  /\ _input_queue (exec (center_call a c) w) = _input_queue w
  /\ _instruction_queue (exec (center_call a c) w) = _instruction_queue w.
Proof.
  destruct c as [[line|msg value|payload]| |]; simpl.
  - destruct (handle_log_put a line w) as (_ & O & I & Q & _). auto.
  - destruct (handle_progress_put a msg value w) as (_ & O & I & Q & _). auto.
  - destruct (handle_data_put a payload w) as (_ & O & I & Q & _). auto.
  - auto.
  - auto.
Qed.

Lemma for_each_center_call (a : Actor) (cs : list CenterCall) :
  forall w,
    _output_queue (exec (for_each cs (center_call a)) w) =
      _output_queue w ++ flat_map center_items cs /\
    _input_queue (exec (for_each cs (center_call a)) w) = _input_queue w /\
    _instruction_queue (exec (for_each cs (center_call a)) w) =
      _instruction_queue w.
Proof.
  induction cs as [|c cs IH]; intros w; simpl.
  - by rewrite app_nil_r.
  - unfold exec, bind in *.
    destruct (center_call_put a c w) as (O & I & Q). unfold exec in *.
    destruct (center_call a c w) as [[] w1]. cbn [snd] in *.
    destruct (IH w1) as (O' & I' & Q').
    rewrite O', I', Q', O, I, Q, <- app_assoc. auto.
Qed.

Lemma item_calls_log_items (lines : list string) :
  flat_map item_calls (map log_item lines) =
  map (fun line => AppendText (line +:+ Str.newline)) lines.
Proof. induction lines as [|line lines IH]; [done|]. simpl. by f_equal. Qed.

Lemma item_calls_center (c : CenterCall) :
  flat_map item_calls (center_items c) = shown c.
Proof.
  destruct c as [[line|msg value|payload]| |]; try reflexivity.
  - unfold center_items, emit_items, progress_items, shown, emit_calls.
    rewrite flat_map_app, item_calls_log_items. f_equal.
    by destruct value.
  - unfold item_calls, shown, emit_calls; simpl.
    destruct (is_not_None payload); reflexivity.
Qed.

Lemma finished_log_items (lines : list string) :
  existsb task_finished (map log_item lines) = false.
Proof. by induction lines. Qed.

Lemma finished_center (c : CenterCall) :
  existsb task_finished (center_items c) = finishes c.
Proof.
  destruct c as [[line|msg value|payload]| |]; try reflexivity.
  unfold center_items, emit_items, progress_items.
  by rewrite existsb_app, finished_log_items.
Qed.

Lemma calls_center (cs : list CenterCall) :
  flat_map item_calls (flat_map center_items cs) = flat_map shown cs.
Proof.
  induction cs as [|c cs IH]; [done|].
  cbn [flat_map]. by rewrite flat_map_app, IH, item_calls_center.
Qed.

Lemma finished_centers (cs : list CenterCall) :
  existsb task_finished (flat_map center_items cs) = existsb finishes cs.
Proof.
  induction cs as [|c cs IH]; [done|].
  cbn [existsb flat_map]. by rewrite existsb_app, IH, finished_center.
Qed.

(** X3. What is handed to the message center arrives at the panel, in
    order and unchanged. After any calls of [_handle_log],
    [handle_progress], [handle_data], [signal_task_started] and
    [signal_task_finished], one [on_timer] makes on the panel, for the
    events that were pending and then for each call in turn: for
    [_handle_log], the log line appended with a line break; for
    [handle_progress], first each line with which the base class logs
    the message, appended with a line break, then [handle_progress_msg]
    and, when a value was given, [handle_progress]; for [handle_data],
    [handle_data], except for a [None] payload, which is dropped;
    [handle_task_started]; the stop of the timer and
    [handle_task_finished]. The timer runs afterwards only if it ran and
    nothing finished. *)
Theorem center_calls_reach_the_panel (a : Actor) (cs : list CenterCall)
    (p : Panel) (w : World) :
  let w1 := exec (for_each cs (center_call a)) w in
  let p' := fst (on_timer p w1) in
  calls p' =
    calls p ++ flat_map item_calls (_output_queue w) ++ flat_map shown cs /\
  timer_running p' =
    timer_running p && negb (existsb task_finished (_output_queue w))
    && negb (existsb finishes cs) /\
  _output_queue (snd (on_timer p w1)) = [] /\
  _input_queue (snd (on_timer p w1)) = _input_queue w /\
  _instruction_queue (snd (on_timer p w1)) = _instruction_queue w.
Proof.
  cbn zeta.
  destruct (for_each_center_call a cs w) as (O & I & Q).
  set (w1 := exec (for_each cs (center_call a)) w) in *.
  unfold on_timer.
  destruct (on_timer_loop_drains (S (length (_output_queue w1))) p w1)
    as (E & C & T & I' & Q'); [lia|].
  rewrite E, C, T, I', Q', O, I, Q.
  rewrite flat_map_app, existsb_app, negb_orb, andb_assoc.
  repeat split.
  - by rewrite calls_center.
  - by rewrite finished_centers.
Qed.

End WithCenter.

Example progress_call_reaches_the_panel :
  let w := exec (@center_call sample_center Child
                   (Center_emit (Emit_progress "half" (Some 1%Z)))) world0 in
  calls (fst (on_timer {| timer_running := true; calls := [] |} w)) =
  [AppendText ("INFO | half" +:+ Str.newline);
   Call_handle_progress_msg "half"; Call_handle_progress 1].
Proof. reflexivity. Qed.

End QueueFacts.

(** ** The loaders of [work] *)

Module LoaderFacts.
Import Message Task Observe Measures WorkFacts.

Lemma task_table_cons (n : Z) (r : TaskFields) (rows : list TaskFields) :
  task_table n (r :: rows) =
  zip_with cons
    [CInt (n + 1); f_id r; f_gene_name r; f_location r; f_isoforms_count r;
     CStr (if (f_phased r =? 1)%Z then "Phased" else "Non-Phased");
     f_snps_count r; CStr "Waiting"]
    (task_table (n + 1) rows).
Proof.
  unfold task_table. cbn [zip_with map imap].
  replace (n + 1 + Z.of_nat 0)%Z with (n + 1)%Z by lia.
  do 2 f_equal. apply imap_ext. intros i x _. simpl. f_equal. lia.
Qed.

Lemma task_columns_closed (n : Z) (rows : list TaskFields) :
  task_columns n rows =
    if forallb phase_known rows then inr (task_table n rows)
    else inl AssertionError.
Proof.
  revert n. induction rows as [|r rows IH]; intros n; [reflexivity|].
  cbn [task_columns forallb]. unfold phased_label, phase_known at 1.
  destruct ((f_phased r =? 1)%Z || (f_phased r =? 0)%Z); [|reflexivity].
  rewrite IH. cbn [andb].
  destruct (forallb phase_known rows); [|reflexivity].
  by rewrite task_table_cons.
Qed.

(** X4. The table that [_load_task] builds. Reading the tasks stops with
    an [AssertionError] as soon as a task is neither phased (1) nor not
    phased (0). Otherwise the eight columns have one cell per task, in
    the order of the tasks: the numbers from [n + 1] on, the fields of
    the task, 'Phased' or 'Non-Phased', and the status 'Waiting'. *)
Theorem task_columns_table (n : Z) (rows : list TaskFields) :
  task_columns n rows =
    (if forallb phase_known rows then inr (task_table n rows)
     else inl AssertionError) /\
  Forall (fun column => length column = length rows) (task_table n rows).
Proof.
  split; [apply task_columns_closed|].
  unfold task_table.
  repeat (constructor; [by rewrite ?length_imap, ?length_map|]).
  constructor.
Qed.

Section WithByase.
Context `{Byase}.

(** X5. Loading the tasks of a directory, as the child reports it. A
    request that names no directory is answered by the [KeyError] of
    ['task_dir'], the database not being opened. Otherwise, with every
    task phased or not phased and the database read to its end, the
    child hands over one table, under the eight column names, and then
    reports 'Process completed!'; a task with another phase value makes
    it report an [AssertionError], a failure of the database that
    failure, and in both cases no table is handed over. *)
Theorem load_task_reports (params : gmap string PyVal) (id : nat) :
  params !! "mc" = Some (VMc id) ->
  work "load-task" params =
    match params !! "task_dir" with
    | None => except_steps id (KeyError "task_dir")
    | Some task_dir =>
        let '(rows, failure) := annotation_tasks task_dir in
        if forallb phase_known rows then
          match failure with
          | None =>
              [Task.Call_handle_data id
                 (VFrame (zip cols (task_table 0 rows)));
               completed id]
          | Some e => raised id e
          end
        else except_steps id AssertionError
    end.
Proof.
  intros Hmc. unfold work, work_script.
  rewrite (getitem_Some _ _ _ Hmc), sbind_sret.
  unfold dispatch; simpl. unfold _load_task.
  destruct (params !! "task_dir") as [task_dir|] eqn:Hdir.
  - rewrite (getitem_Some _ _ _ Hdir), sbind_sret.
    rewrite (getitem_Some _ _ _ Hmc), sbind_sret.
    destruct (annotation_tasks task_dir) as [rows failure].
    rewrite task_columns_closed.
    destruct (forallb phase_known rows); [|reflexivity].
    destruct failure as [e|]; [|reflexivity].
    unfold raised. simpl. destruct (is_Exception e); reflexivity.
  - unfold getitem at 1. rewrite Hdir. reflexivity.
Qed.

(** X6. Loading the statistics, as the child reports it. After what
    [stats] has emitted: the exception of [stats] if it raised one;
    else the [KeyError] of the first path that its result lacks, the
    gene-level path being looked up first and both before any file is
    read; else the failure of [read_csv], on the gene-level file first;
    else one pair of data frames, their columns renamed, and then
    'Process completed!'. *)
Theorem stats_reports (params : gmap string PyVal) (id : nat) :
  params !! "mc" = Some (VMc id) ->
  work "stats" params =
    map (emit_step id) (emitted (stats params)) ++
    match outcome (stats params) with
    | inl e => raised id e
    | inr paths =>
        match paths !! "gene-level path", paths !! "isoform-level path" with
        | None, _ => except_steps id (KeyError "gene-level path")
        | Some _, None => except_steps id (KeyError "isoform-level path")
        | Some gene, Some isoform =>
            match read_csv gene with
            | inl e => raised id e
            | inr df_gene =>
                match read_csv isoform with
                | inl e => raised id e
                | inr df_isoform =>
                    [Task.Call_handle_data id
                       (VPair (VFrame (_rename_diff_cols df_gene))
                              (VFrame (_rename_diff_cols df_isoform)));
                     completed id]
                end
            end
        end
    end.
Proof.
  intros Hmc. unfold work, work_script.
  rewrite (getitem_Some _ _ _ Hmc), sbind_sret.
  unfold dispatch; simpl. unfold raised.
  destruct (outcome (stats params)) as [e|paths].
  { simpl. destruct (is_Exception e); reflexivity. }
  unfold _load_stats.
  destruct (paths !! "gene-level path") as [gene|] eqn:Hgene.
  2: { unfold getitem. rewrite Hgene. unfold sraise, sbind at 1.
       cbn. by rewrite app_nil_r. }
  rewrite (getitem_Some _ _ _ Hgene), sbind_sret.
  destruct (paths !! "isoform-level path") as [isoform|] eqn:Hiso.
  2: { unfold getitem. rewrite Hiso. unfold sraise, sbind at 1.
       cbn. by rewrite app_nil_r. }
  rewrite (getitem_Some _ _ _ Hiso), sbind_sret.
  destruct (read_csv gene) as [e|df_gene].
  { cbn. destruct (is_Exception e); cbn; by rewrite ?app_nil_r. }
  destruct (read_csv isoform) as [e|df_isoform].
  { cbn. destruct (is_Exception e); cbn; by rewrite ?app_nil_r. }
  cbn. by rewrite <- app_assoc.
Qed.

End WithByase.

Lemma replace_absent (old new s : string) :
  Str.contains old s = false -> Str.replace old new s = s.
Proof.
  unfold Str.replace. induction s as [|c s IH]; [done|].
  cbn [Str.contains Str.replace_from]. intros Hno.
  apply orb_false_iff in Hno as [-> Hrest]. by rewrite IH.
Qed.

Lemma append_cons (a : Ascii.ascii) (s t : string) :
  String a s +:+ t = String a (s +:+ t).
Proof. reflexivity. Qed.

Lemma append_snoc (cur : string) (c : Ascii.ascii) (s : string) :
  (cur +:+ String c "") +:+ s = cur +:+ String c s.
Proof.
  induction cur as [|a cur IH]; [done|]. by rewrite !append_cons, IH.
Qed.

Lemma append_empty (s : string) : s +:+ "" = s.
Proof. induction s as [|a s IH]; [done|]. by rewrite append_cons, IH. Qed.

Lemma split_last_absent (sep s : string) :
  Str.contains sep s = false -> Str.split_last sep s = s.
Proof.
  unfold Str.split_last.
  enough (Hgen : forall cur,
            Str.contains sep s = false ->
            Str.split_last_from 0 sep cur s = cur +:+ s)
    by (intros Hno; by rewrite Hgen).
  induction s as [|c s IH]; intros cur Hno.
  { by rewrite append_empty. }
  cbn [Str.contains] in Hno. apply orb_false_iff in Hno as [Hhead Hrest].
  cbn [Str.split_last_from]. rewrite Hhead, IH by done. apply append_snoc.
Qed.

(** X7. Renaming the columns of the statistics changes names only: the
    columns keep their number, their order and their cells. A column
    keeps its name too when the name does not contain 'Difference', and
    when there is nothing to cut out of it: no ') ' in a name with
    'HPD', no 'Difference ' in a name without. *)
Theorem rename_diff_cols_keeps_cells (df : Frame) :
  map snd (_rename_diff_cols df) = map snd df /\
  length (_rename_diff_cols df) = length df /\
  Forall2 (fun old new => plain_name (fst old) = true -> new = old)
          df (_rename_diff_cols df).
Proof.
  unfold _rename_diff_cols. split; [|split].
  - induction df as [|[col values] df IH]; [done|].
    cbn [map]. rewrite IH. by destruct (Str.contains "Difference" col).
  - by rewrite length_map.
  - induction df as [|[col values] df IH]; [constructor|].
    cbn [map]. constructor; [|done].
    unfold plain_name. cbn [fst].
    destruct (Str.contains "Difference" col); [|done].
    destruct (Str.contains "HPD" col); cbn [negb orb]; intros Hno;
      apply negb_true_iff in Hno.
    + by rewrite split_last_absent.
    + by rewrite replace_absent.
Qed.

End LoaderFacts.

(** ** The order of the tasks *)

Module ScheduleFacts.
Import Message Task Observe Schedule.
Import MessageFacts WorkFacts SupervisorFacts.

Lemma started_tasks_app d1 d2 :
  started_tasks (d1 ++ d2) = started_tasks d1 ++ started_tasks d2.
Proof. apply omap_app. Qed.

Lemma started_tasks_after (d : list Event) :
  Forall after_start d -> started_tasks d = [].
Proof.
  induction 1 as [|[a act] d [_ Hord] _ IH]; [done|].
  change (Ev a act :: d) with ([Ev a act] ++ d).
  rewrite started_tasks_app, IH. by destruct act.
Qed.

Lemma started_tasks_arrivals (r : Round) : started_tasks (arrivals r) = [].
Proof.
  unfold arrivals. rewrite started_tasks_app.
  assert (H1 : forall items,
            started_tasks
              (map (fun item => Ev Controller (APutInput item)) items) = [])
    by (induction items; [done|]; simpl; auto).
  assert (H2 : forall instructions,
            started_tasks
              (map (fun i => Ev Controller (APutInstruction i)) instructions)
            = [])
    by (induction instructions; [done|]; simpl; auto).
  by rewrite H1, H2.
Qed.

Section WithByase.
Context `{Byase}.

(** X8. First come, first served. In every run of [task] the child
    processes are started for the Input Items in the order of their
    arrival, pending ones first: one start for each item taken, with
    the tool of the item and its params under the supervisor's ['mc'],
    none skipped and none started twice; and when the supervisor is
    back at [receive_input] the items not yet started are still in the
    input queue, in their order. *)
Theorem tasks_start_first_come_first_served (rounds : list Round)
    (w : World) :
  exists d n,
    extends_by w (snd (task rounds w)) d /\
    started_tasks d =
      map (with_mc (mc_id w)) (take n (arriving w rounds)) /\
    match fst (task rounds w) with
    | AtLoopHead =>
        _input_queue (snd (task rounds w)) = drop n (arriving w rounds)
    | InPollLoop => 0 < n
    end.
Proof.
  unfold arriving.
  revert w. induction rounds as [|r rounds IH]; intros w.
  { exists [], 0. split; [apply extends_by_refl|]. split; [done|].
    simpl. by rewrite app_nil_r. }
  cbn [task flat_map]. unfold bind. rewrite app_assoc.
  destruct (_input_queue w ++ submitted r) as [|item rest] eqn:Hq.
  - rewrite (iteration_blocked r w Hq).
    match goal with |- context [task rounds ?w0] => set (w1 := w0) end.
    destruct (IH w1) as (d & n & E & S & Q).
    exists (arrivals r ++ d), n. split; [|split].
    + eapply extends_by_trans; [|exact E].
      unfold extends_by, w1, arrivals; simpl.
      by rewrite puts_app, puts_submissions, puts_sends, app_nil_r.
    + by rewrite started_tasks_app, started_tasks_arrivals.
    + exact Q.
  - destruct (iteration_shape r w item rest Hq)
      as (result & body & tail & Hres & E & Hbody & Htail & Hin & _).
    assert (Hstarted :
      started_tasks (arrivals r ++ starting item (mc_id w) ++
                     body ++ tail ++ closing result) =
      [with_mc (mc_id w) item]).
    { rewrite !started_tasks_app, started_tasks_arrivals.
      rewrite (started_tasks_after body) by by apply after_start_waiting.
      rewrite (started_tasks_after tail)
        by by eapply after_start_cancels.
      rewrite (started_tasks_after (closing result))
        by apply after_start_closing.
      reflexivity. }
    pose proof E as (_ & _ & Id).
    destruct (task_iteration r w) as [res w1].
    cbn [fst snd] in Hres, E, Hin, Id. subst res.
    assert (Hgo : forall P : Prop,
      (forall d n,
         extends_by w1 (snd (task rounds w1)) d ->
         started_tasks d =
           map (with_mc (mc_id w1))
               (take n (_input_queue w1 ++ flat_map submitted rounds)) ->
         match fst (task rounds w1) with
         | AtLoopHead =>
             _input_queue (snd (task rounds w1)) =
             drop n (_input_queue w1 ++ flat_map submitted rounds)
         | InPollLoop => 0 < n
         end -> P) -> P).
    { intros P HP. destruct (IH w1) as (d & n & E' & S' & Q'). eauto. }
    destruct result.
    + apply Hgo. intros d n E' S' Q'.
      eexists _, (S n). split; [eapply extends_by_trans; eauto|].
      rewrite started_tasks_app, Hstarted, S', Id, Hin. split; [done|].
      destruct (fst (task rounds w1)); [|lia]. by rewrite Q', Hin.
    + apply Hgo. intros d n E' S' Q'.
      eexists _, (S n). split; [eapply extends_by_trans; eauto|].
      rewrite started_tasks_app, Hstarted, S', Id, Hin. split; [done|].
      destruct (fst (task rounds w1)); [|lia]. by rewrite Q', Hin.
    + eexists _, 1. split; [exact E|]. rewrite Hstarted. split; [done|].
      cbn. lia.
Qed.

End WithByase.

End ScheduleFacts.

(** ** The panels *)

Module PanelFacts.
Import Message LongRunning Observe Panels Desk MessageFacts PollerFacts.

Lemma on_timer_loop_trace (fuel : nat) :
  forall (p : LongRunning.Panel) (w : World),
    length (_output_queue w) < fuel ->
    trace (snd (on_timer_loop fuel p w)) =
      trace w ++ map (fun item => Ev Controller (AGet item)) (_output_queue w)
    /\ mc_id (snd (on_timer_loop fuel p w)) = mc_id w.
Proof.
  induction fuel as [|fuel IH]; intros p w Hlen; [lia|].
  simpl. unfold bind, receive_output.
  destruct (_output_queue w) as [|item rest] eqn:Hq; simpl.
  - by rewrite app_nil_r.
  - simpl in Hlen.
    match goal with
    | |- context [on_timer_loop fuel ?p1 ?w1] =>
        destruct (IH p1 w1) as [T I]; [simpl; lia|]
    end.
    simpl in *. rewrite T, I, <- app_assoc. auto.
Qed.

(** What [on_timer] of the base class leaves: the queue drained, the
    calls made, the gets in the trace. *)
Lemma on_timer_drained (p : LongRunning.Panel) (w : World) :
  exists w',
    LongRunning.on_timer p w =
      ({| timer_running :=
            timer_running p && negb (existsb task_finished (_output_queue w));
          calls := calls p ++ flat_map item_calls (_output_queue w) |}, w') /\
    _output_queue w' = [] /\
    _input_queue w' = _input_queue w /\
    _instruction_queue w' = _instruction_queue w /\
    mc_id w' = mc_id w /\
    trace w' =
      trace w ++ map (fun item => Ev Controller (AGet item)) (_output_queue w).
Proof.
  unfold LongRunning.on_timer.
  destruct (on_timer_loop_drains (S (length (_output_queue w))) p w)
    as (O & C & T & I & Q); [lia|].
  destruct (on_timer_loop_trace (S (length (_output_queue w))) p w)
    as [Tr Id]; [lia|].
  destruct (on_timer_loop _ p w) as [[running cs] w']. simpl in *.
  exists w'. subst. auto 10.
Qed.

Lemma taken_app d1 d2 : taken (d1 ++ d2) = taken d1 ++ taken d2.
Proof. apply omap_app. Qed.

Lemma sent_instructions_app d1 d2 :
  sent_instructions (d1 ++ d2) = sent_instructions d1 ++ sent_instructions d2.
Proof. apply omap_app. Qed.

Lemma sent_inputs_app d1 d2 :
  sent_inputs (d1 ++ d2) = sent_inputs d1 ++ sent_inputs d2.
Proof. apply omap_app. Qed.

Lemma gets_taken (q : list OutputItem) :
  taken (map (fun item => Ev Controller (AGet item)) q) = q /\
  sent_instructions (map (fun item => Ev Controller (AGet item)) q) = [] /\
  sent_inputs (map (fun item => Ev Controller (AGet item)) q) = [].
Proof.
  induction q as [|item q (IH1 & IH2 & IH3)]; [done|].
  change (map _ (item :: q)) with
    ([Ev Controller (AGet item)] ++
     map (fun item => Ev Controller (AGet item)) q).
  rewrite taken_app, sent_instructions_app, sent_inputs_app, IH1, IH2, IH3.
  done.
Qed.

(** The buttons after the calls that [on_timer] makes for one event. *)
Lemma handle_item (item : OutputItem) (p : Progress.Panel) :
  let p' := foldl (fun p c => Progress.handle c p) p (item_calls item) in
  Progress.stop_button p' =
    (if task_finished item then false
     else if task_started item then true else Progress.stop_button p) /\
  Progress.start_button p' =
    (if task_finished item then true else Progress.start_button p) /\
  Progress.determinate p' = Progress.determinate p /\
  Progress.pulses p' = Progress.pulses p /\
  disabling_elements (Progress.base p') =
    disabling_elements (Progress.base p) /\
  timer (Progress.base p') =
    timer (Progress.base p) && negb (task_finished item).
Proof.
  destruct item as [l d pm pv started finished].
  unfold item_calls, fields, field_calls; simpl.
  destruct l, (is_not_None d), pm, pv, started, finished; simpl;
    rewrite ?andb_true_r, ?andb_false_r; auto 10.
Qed.

Lemma taking_buttons (q : list OutputItem) :
  forall p,
    let p' := foldl (fun p c => Progress.handle c p) p
                (flat_map item_calls q) in
    (forall s n,
       s + armed (Progress.stop_button p) <= n ->
       s + armed (Progress.stop_button p')
       <= n + length (List.filter task_started q)) /\
    (forall s n,
       s + armed (Progress.start_button p) <= n + 1 ->
       s + armed (Progress.start_button p')
       <= n + length (List.filter task_finished q) + 1) /\
    Progress.determinate p' = Progress.determinate p.
Proof.
  induction q as [|item q IH]; intros p; cbn zeta.
  { simpl. split; [|split]; [intros; lia..|done]. }
  cbn [flat_map List.filter]. rewrite foldl_app.
  destruct (handle_item item p) as (Hstop & Hstart & Hdet & _).
  cbn zeta in Hstop, Hstart, Hdet.
  set (p1 := foldl _ p (item_calls item)) in *.
  destruct (IH p1) as (IHstop & IHstart & IHdet). cbn zeta in *.
  split; [|split].
  - intros s n Hle.
    destruct (task_started item) eqn:Hs; cbn [length].
    + specialize (IHstop s (S n)). unfold armed in *.
      destruct (Progress.stop_button p1), (Progress.stop_button p); lia.
    + apply IHstop. rewrite Hstop.
      destruct (task_finished item); unfold armed in *; [|done].
      destruct (Progress.stop_button p); lia.
  - intros s n Hle.
    destruct (task_finished item) eqn:Hf; cbn [length].
    + specialize (IHstart s (S n)). unfold armed in *.
      destruct (Progress.start_button p1), (Progress.start_button p); lia.
    + apply IHstart. by rewrite Hstart.
  - by rewrite IHdet.
Qed.

Lemma on_timer_progress (p : Progress.Panel) (w : World) :
  exists w',
    Progress.on_timer p w =
      (let p' := foldl (fun p c => Progress.handle c p) p
                   (flat_map item_calls (_output_queue w)) in
       if Progress.determinate p' then p' else Progress.Pulse p', w') /\
    _output_queue w' = [] /\
    _input_queue w' = _input_queue w /\
    _instruction_queue w' = _instruction_queue w /\
    mc_id w' = mc_id w /\
    trace w' =
      trace w ++ map (fun item => Ev Controller (AGet item)) (_output_queue w).
Proof.
  unfold Progress.on_timer, bind.
  destruct (on_timer_drained
              {| timer_running := timer (Progress.base p); calls := [] |} w)
    as (w' & -> & H).
  exists w'. split; [reflexivity|exact H].
Qed.

Lemma pulse_buttons (p : Progress.Panel) :
  let p' := if Progress.determinate p then p else Progress.Pulse p in
  Progress.stop_button p' = Progress.stop_button p /\
  Progress.start_button p' = Progress.start_button p.
Proof. by destruct (Progress.determinate p). Qed.

Lemma log_events_quiet (a : Actor) (lines : list string) :
  taken (log_events a lines) = [] /\
  sent_instructions (log_events a lines) = [] /\
  sent_inputs (log_events a lines) = [].
Proof. by induction lines. Qed.

Section WithCenter.
Context `{BaseCenter}.

Lemma progress_events_quiet (a : Actor) (msg : string) (value : option Z) :
  taken (progress_events a msg value) = [] /\
  sent_instructions (progress_events a msg value) = [] /\
  sent_inputs (progress_events a msg value) = [].
Proof.
  unfold progress_events.
  change (Ev a (ABase (Base_handle_progress msg value)) :: ?l)
    with ([Ev a (ABase (Base_handle_progress msg value))] ++ l).
  rewrite !taken_app, !sent_instructions_app, !sent_inputs_app.
  destruct (log_events_quiet a (progress_lines msg value)) as (-> & -> & ->).
  done.
Qed.

(** A click on Stop while the button is enabled. *)
Lemma on_stop_button_trace (p : Progress.Panel) (w : World) :
  let w' := snd (Progress.on_stop_button p w) in
  fst (Progress.on_stop_button p w) = Progress.set_stop_button false p /\
  trace w' =
    trace w ++
    progress_events Controller "Waiting backend process to respond..." None ++
    [Ev Controller (APutInstruction TERMINATE)] /\
  _output_queue w' =
    _output_queue w ++
    progress_items "Waiting backend process to respond..." None /\
  _instruction_queue w' = _instruction_queue w ++ [TERMINATE] /\
  _input_queue w' = _input_queue w /\
  mc_id w' = mc_id w.
Proof.
  cbn zeta. unfold Progress.on_stop_button, bind.
  destruct (handle_progress_put Controller
              "Waiting backend process to respond..." None w)
    as (T & O & I & Q & Id).
  unfold exec in T, O, I, Q, Id.
  destruct (handle_progress Controller _ None w) as [[] w1].
  cbn [fst snd] in *. unfold send_instruction, ret.
  cbn [fst snd mc_id _instruction_queue _input_queue _output_queue trace].
  rewrite T, O, I, Q, Id, <- app_assoc. auto 10.
Qed.

Lemma happen_in_step (h : Happening) (p : Progress.Panel) (w : World) :
  (stop_in_step p w ->
   stop_in_step (fst (happen h p w)) (snd (happen h p w))) /\
  (start_in_step p w ->
   start_in_step (fst (happen h p w)) (snd (happen h p w))).
Proof.
  unfold stop_in_step, start_in_step, started_seen, finished_seen.
  destruct h as [[e|[tools params]]| | |a item]; cbn [happen].
  - destruct (Progress.start_button p) eqn:Hstart;
      [|unfold ret; cbn [fst snd]; rewrite ?Hstart; auto].
    unfold Progress.on_start_button, start_task, bind, ret.
    cbn [fst snd Progress.stop_button Progress.start_button
         Progress.set_base Progress.set_start_button].
    unfold armed. destruct (Progress.stop_button p); lia.
  - destruct (Progress.start_button p) eqn:Hstart;
      [|unfold ret; cbn [fst snd]; rewrite ?Hstart; auto].
    unfold Progress.on_start_button, start_task, bind, send_input, ret.
    cbn [fst snd trace Progress.stop_button Progress.start_button
         Progress.set_base Progress.set_start_button].
    rewrite !sent_instructions_app, !sent_inputs_app, !taken_app.
    cbn. rewrite !app_nil_r, !length_app. cbn. lia.
  - destruct (Progress.stop_button p) eqn:Hstop; 
      [|unfold ret; cbn [fst snd]; rewrite ?Hstop; auto].
    destruct (on_stop_button_trace p w) as (-> & -> & _).
    cbn [Progress.stop_button Progress.start_button Progress.set_stop_button].
    rewrite !sent_instructions_app, !sent_inputs_app, !taken_app.
    destruct (progress_events_quiet Controller
                "Waiting backend process to respond..." None)
      as (-> & -> & ->).
    cbn. rewrite !app_nil_r, !length_app. cbn. lia.
  - destruct (timer (Progress.base p)); [|unfold ret; cbn [fst snd]; auto].
    destruct (on_timer_progress p w) as (w' & E & _ & _ & _ & _ & T).
    rewrite E. cbn [fst snd]. rewrite T.
    destruct (gets_taken (_output_queue w)) as (G1 & G2 & G3).
    rewrite sent_instructions_app, sent_inputs_app, taken_app, G1, G2, G3,
      !app_nil_r, !List.filter_app, !length_app.
    destruct (taking_buttons (_output_queue w) p) as (Hstop & Hstart & _).
    cbn zeta in *.
    set (p1 := foldl _ p _) in *.
    destruct (pulse_buttons p1) as [-> ->].
    split; intros Hle; [by apply Hstop|].
    specialize (Hstart _ _ Hle). lia.
  - unfold bind, output_put, ret. cbn [fst snd trace].
    rewrite !sent_instructions_app, !sent_inputs_app, !taken_app.
    cbn. by rewrite !app_nil_r.
Qed.

(** X9. The Stop button sends one [TERMINATE] per task at most. Whatever
    happens to a progress panel (clicks on its buttons while they are
    enabled, ticks of its timer, Output Events arriving), the
    instructions sent never outnumber the events with [task_started]
    that the panel has taken from the queue, and while the Stop button
    is enabled one more task has started than instructions were sent. *)
Theorem stop_sends_one_terminate_per_task (hs : list Happening)
    (p : Progress.Panel) (w : World) :
  stop_in_step p w ->
  stop_in_step (fst (happenings hs p w)) (snd (happenings hs p w)).
Proof.
  revert p w. induction hs as [|h hs IH]; intros p w Hin; [done|].
  cbn [happenings]. unfold bind.
  destruct (happen_in_step h p w) as [Hstop _]. specialize (Hstop Hin).
  destruct (happen h p w) as [p1 w1]. by apply IH.
Qed.

(** X10. The Start button submits one task at a time. Whatever happens
    to a progress panel, the Input Items sent never outnumber the events
    with [task_finished] that the panel has taken by more than one, and
    while the Start button is enabled every Input Item sent has been
    seen to finish. *)
Theorem start_submits_one_task_at_a_time (hs : list Happening)
    (p : Progress.Panel) (w : World) :
  start_in_step p w ->
  start_in_step (fst (happenings hs p w)) (snd (happenings hs p w)).
Proof.
  revert p w. induction hs as [|h hs IH]; intros p w Hin; [done|].
  cbn [happenings]. unfold bind.
  destruct (happen_in_step h p w) as [_ Hstart]. specialize (Hstart Hin).
  destruct (happen h p w) as [p1 w1]. by apply IH.
Qed.

Lemma foldl_insert_lookup (flag : bool) (es : list nat) :
  forall (flags : gmap nat bool) (e : nat),
    foldl (fun flags e => <[e := flag]> flags) flags es !! e =
    if decide (e ∈ es) then Some flag else flags !! e.
Proof.
  induction es as [|x es IH]; intros flags e; cbn [foldl].
  { rewrite decide_False; [done|]. apply not_elem_of_nil. }
  rewrite IH. destruct (decide (e ∈ es)) as [Hin|Hout].
  - rewrite decide_True; [done|]. by right.
  - destruct (decide (e = x)) as [->|Hne].
    + rewrite decide_True; [|by left]. apply lookup_insert_eq.
    + rewrite decide_False; [by apply lookup_insert_ne|].
      intros Hin. apply elem_of_cons in Hin as [|]; done.
Qed.

(** [for e in self.disabling_elements: e.Enabled = flag] sets the flag of
    each of them and of no other window. *)
Lemma enable_elements_flags (flag : bool) (b : Base) :
  Forall (fun e => Enabled (enable_elements flag b) !! e = Some flag)
         (disabling_elements b) /\
  (forall e, e ∉ disabling_elements b ->
             Enabled (enable_elements flag b) !! e = Enabled b !! e).
Proof.
  unfold enable_elements; cbn [Enabled set_Enabled]. split.
  - apply Forall_forall. intros e Hin.
    rewrite foldl_insert_lookup. by rewrite decide_True.
  - intros e Hout. rewrite foldl_insert_lookup. by rewrite decide_False.
Qed.

(** The calls of [on_timer] leave the disabling elements as they are and
    touch the flag of no other window. *)
Lemma handle_windows (cs : list UiCall) :
  forall p,
    let p' := foldl (fun p c => Progress.handle c p) p cs in
    disabling_elements (Progress.base p') =
      disabling_elements (Progress.base p) /\
    (forall e, e ∉ disabling_elements (Progress.base p) ->
               Enabled (Progress.base p') !! e =
               Enabled (Progress.base p) !! e).
Proof.
  induction cs as [|c cs IH]; intros p; cbn zeta; [done|].
  cbn [foldl]. destruct (IH (Progress.handle c p)) as [Hes Hflags].
  cbn zeta in *.
  assert (Hc : disabling_elements (Progress.base (Progress.handle c p)) =
               disabling_elements (Progress.base p) /\
               (forall e, e ∉ disabling_elements (Progress.base p) ->
                          Enabled (Progress.base (Progress.handle c p)) !! e =
                          Enabled (Progress.base p) !! e)).
  { destruct c; try done. simpl. split; [done|].
    apply (enable_elements_flags true (Progress.base p)). }
  destruct Hc as [Hc1 Hc2]. rewrite Hes, Hc1. split; [done|].
  intros e Hout. rewrite Hflags; [by apply Hc2|]. by rewrite Hc1.
Qed.

Lemma happen_dead (h : Happening) (p : Progress.Panel) (w : World) :
  dead p ->
  fst (happen h p w) = p /\
  sent_inputs (trace (snd (happen h p w))) = sent_inputs (trace w) /\
  sent_instructions (trace (snd (happen h p w))) =
    sent_instructions (trace w).
Proof.
  intros (Hstart & Hstop & Htimer).
  destruct h as [provided| | |a item]; cbn [happen];
    rewrite ?Hstart, ?Hstop, ?Htimer; [done..|].
  unfold bind, output_put, ret. cbn [fst snd trace].
  rewrite sent_inputs_app, sent_instructions_app. cbn.
  by rewrite !app_nil_r.
Qed.

(** A panel with both buttons disabled and the timer stopped stays as
    it is, and sends nothing. *)
Lemma happenings_dead (hs : list Happening) :
  forall (p : Progress.Panel) (w : World),
    dead p ->
    fst (happenings hs p w) = p /\
    sent_inputs (trace (snd (happenings hs p w))) = sent_inputs (trace w) /\
    sent_instructions (trace (snd (happenings hs p w))) =
      sent_instructions (trace w).
Proof.
  induction hs as [|h hs IH]; intros p w Hdead; [done|].
  cbn [happenings]. unfold bind.
  destruct (happen_dead h p w Hdead) as (Hp & Hi & Hs).
  destruct (happen h p w) as [p1 w1]. cbn [fst snd] in *. subst p1.
  destruct (IH p w1 Hdead) as (Hp' & Hi' & Hs').
  by rewrite Hp', Hi', Hs', Hi, Hs.
Qed.

(** A click on Start whose [provide_tool] raises: the exception leaves
    the callback after the Start button and the disabling elements have
    been disabled, and before anything is sent or the timer started. *)
Lemma on_start_button_raises (e : PyExc) (p : Progress.Panel) (w : World) :
  let p1 := fst (fst (Progress.on_start_button (inl e) p w)) in
  Progress.on_start_button (inl e) p w = (p1, Some e, w) /\
  Progress.start_button p1 = false /\
  Progress.stop_button p1 = Progress.stop_button p /\
  timer (Progress.base p1) = timer (Progress.base p) /\
  Forall (fun e => Enabled (Progress.base p1) !! e = Some false)
         (disabling_elements (Progress.base p)).
Proof.
  cbn zeta. unfold Progress.on_start_button, start_task, bind, ret.
  cbn [fst snd].
  set (b := set_log_text_field "" _).
  destruct (enable_elements_flags false b) as [Hoff _].
  repeat split; done.
Qed.

Section WithFloat.
Variable float : string -> PyExc + PyVal.

(** X15. The inference panel cannot start before a table of tasks is
    loaded, and a click on Start then leaves it disabled for good. With
    no data frame in the task view, [provide_tool] raises ([float] on
    the insert sizes may raise first, [AttributeError] is raised
    otherwise); the exception leaves [on_start_button] after the Start
    button and the disabling elements have been disabled, nothing is
    sent to the supervisor and the timer is not started. With the Stop
    button disabled and the timer stopped, as they are when no task
    runs, no click and no tick reaches the panel afterwards: it stays
    as it is, and sends nothing. *)
Theorem inference_start_needs_a_task_table (ip : Inference.Panel)
    (w : World) :
  Inference.task_df (Inference.form ip) = None ->
  Progress.stop_button (Inference.panel ip) = false ->
  timer (Progress.base (Inference.panel ip)) = false ->
  let clicked := Inference.on_start_button float ip w in
  let p1 := Inference.panel (fst (fst clicked)) in
  (exists e,
     snd (fst clicked) = Some e /\
     Inference.provide_tool float (Inference.form ip) = inl e) /\
  snd clicked = w /\
  dead p1 /\
  Forall (fun e => Enabled (Progress.base p1) !! e = Some false)
         (disabling_elements (Progress.base (Inference.panel ip))) /\
  forall hs w',
    fst (happenings hs p1 w') = p1 /\
    sent_inputs (trace (snd (happenings hs p1 w'))) = sent_inputs (trace w')
    /\
    sent_instructions (trace (snd (happenings hs p1 w'))) =
      sent_instructions (trace w').
Proof.
  intros Hdf Hstop Htimer. cbn zeta.
  assert (Hraises : exists e,
            Inference.provide_tool float (Inference.form ip) = inl e).
  { unfold Inference.provide_tool. rewrite Hdf.
    destruct (Inference.resume_mode _); [eauto|].
    destruct (Inference.float_if _ _ _); [eauto|].
    destruct (Inference.float_if _ _ _); eauto. }
  destruct Hraises as [e He].
  unfold Inference.on_start_button. rewrite He. unfold bind, ret.
  destruct (on_start_button_raises e (Inference.panel ip) w)
    as (Hclick & S1 & S2 & T1 & Off). cbn zeta in *.
  rewrite Hclick in *. cbn [fst snd Inference.panel] in *.
  set (p1 := fst (fst (Progress.on_start_button (inl e) (Inference.panel ip) w)))
    in *.
  assert (Hdead : dead p1).
  { unfold dead. by rewrite S1, S2, T1, Hstop, Htimer. }
  split; [eauto|]. split; [done|]. split; [done|]. split; [done|].
  intros hs w'. by apply happenings_dead.
Qed.

End WithFloat.

End WithCenter.

End PanelFacts.

(** ** A task, from the click to the panel free again *)

Module CycleFacts.
Import Message Task LongRunning Observe Panels Desk.
Import MessageFacts PollerFacts WorkFacts SupervisorFacts PanelFacts.

Section WithByase.
Context `{Byase}.

(** What a click on Start leaves. *)
Lemma on_start_button_leaves (tools : string) (params : gmap string PyVal)
    (p : Progress.Panel) (w : World) :
  let item := {| tool := tools; params := params |} in
  let p1 := fst (fst (Progress.on_start_button (inr (tools, params)) p w)) in
  let w1 := snd (Progress.on_start_button (inr (tools, params)) p w) in
  Progress.start_button p1 = false /\
  Progress.stop_button p1 = Progress.stop_button p /\
  timer (Progress.base p1) = true /\
  progress_label (Progress.base p1) = "Processing..." /\
  log_text_field (Progress.base p1) = "" /\
  disabling_elements (Progress.base p1) =
    disabling_elements (Progress.base p) /\
  Forall (fun e => Enabled (Progress.base p1) !! e = Some false)
         (disabling_elements (Progress.base p)) /\
  (forall e, e ∉ disabling_elements (Progress.base p) ->
             Enabled (Progress.base p1) !! e =
             Enabled (Progress.base p) !! e) /\
  w1 = {| mc_id := mc_id w;
          _instruction_queue := _instruction_queue w;
          _input_queue := _input_queue w ++ [item];
          _output_queue := _output_queue w;
          trace := trace w ++ [Ev Controller (APutInput item)] |}.
Proof.
  cbn zeta.
  unfold Progress.on_start_button, start_task, bind, send_input, ret.
  cbn [fst snd].
  set (b := set_log_text_field "" _).
  destruct (enable_elements_flags false b) as [Hoff Hother].
  repeat split; try done.
Qed.

(** X11. From a click on Start to the panel free again. The click
    disables the Start button and the disabling elements, starts the
    timer and sends the Input Item of the panel; the supervisor, finding
    it alone in the input queue, starts that tool with those params; and
    once the child has ended or has been cancelled within the round, the
    last Output Event is [task_finished], so that the next [on_timer]
    leaves the queue empty, the timer stopped, the Start button enabled,
    the Stop button disabled and every disabling element enabled,
    whatever else was on the queue. No other window has its flag
    changed. *)
Theorem finished_task_frees_the_panel (tools : string)
    (params : gmap string PyVal) (p : Progress.Panel) (r : Round)
    (w : World) :
  _input_queue w = [] ->
  submitted r = [] ->
  length (work tools (<["mc" := VMc (mc_id w)]> params))
    <= startup r + scheduled (ticks r) ->
  let elements := disabling_elements (Progress.base p) in
  let p1 := fst (fst (Progress.on_start_button (inr (tools, params)) p w)) in
  let w1 := snd (Progress.on_start_button (inr (tools, params)) p w) in
  let w2 := snd (task_iteration r w1) in
  let p3 := fst (Progress.on_timer p1 w2) in
  let w3 := snd (Progress.on_timer p1 w2) in
  (Progress.start_button p1 = false /\
   timer (Progress.base p1) = true /\
   Forall (fun e => Enabled (Progress.base p1) !! e = Some false) elements) /\
  (In (Ev Supervisor (AStart tools (<["mc" := VMc (mc_id w)]> params)))
      (trace w2) /\
   exists result,
     fst (task_iteration r w1) = Some result /\ result <> StillPolling) /\
  (Progress.start_button p3 = true /\
   Progress.stop_button p3 = false /\
   timer (Progress.base p3) = false /\
   Forall (fun e => Enabled (Progress.base p3) !! e = Some true) elements /\
   (forall e, e ∉ elements ->
              Enabled (Progress.base p3) !! e =
              Enabled (Progress.base p) !! e) /\
   _output_queue w3 = [] /\ _input_queue w3 = []).
Proof.
  intros Hq Hsub Hlen. cbn zeta.
  destruct (on_start_button_leaves tools params p w)
    as (S1 & _ & T1 & _ & _ & E1 & Off1 & Other1 & W1).
  cbn zeta in *.
  set (p1 := fst (fst (Progress.on_start_button (inr (tools, params)) p w)))
    in *.
  set (w1 := snd (Progress.on_start_button (inr (tools, params)) p w)) in *.
  set (item := {| tool := tools; params := params |}) in *.
  assert (Id1 : mc_id w1 = mc_id w) by by rewrite W1.
  assert (Hq1 : _input_queue w1 ++ submitted r = item :: []).
  { rewrite W1, Hsub, Hq. reflexivity. }
  destruct (iteration_shape r w1 item [] Hq1)
    as (result & body & tail & Hres & (Htr & Hout & _) & _ & _ & Hin & Hends).
  assert (Hresult : result <> StillPolling).
  { apply Hends. rewrite Id1. exact Hlen. }
  split; [auto|]. split.
  { split; [|by exists result].
    rewrite Htr, Id1. apply in_or_app. right. apply in_or_app. right.
    apply in_or_app. left. unfold starting. simpl. auto. }
  set (w2 := snd (task_iteration r w1)) in *.
  assert (Hlast : exists q, _output_queue w2 = q ++ [finished_item]).
  { rewrite Hout, !puts_app.
    assert (Hclose : puts (closing result) = [finished_item])
      by by destruct result.
    rewrite Hclose, !app_assoc. eauto. }
  destruct Hlast as [q Hq2].
  destruct (on_timer_progress p1 w2) as (w3 & E & O3 & I3 & _).
  rewrite E. cbn [fst snd]. rewrite Hq2, flat_map_app, foldl_app.
  set (p2 := foldl _ p1 (flat_map item_calls q)).
  destruct (handle_windows (flat_map item_calls q) p1) as [E2 Other2].
  cbn zeta in E2, Other2. fold p2 in E2, Other2.
  change (flat_map item_calls [finished_item])
    with [Timer_Stop; Call_handle_task_finished].
  cbn [foldl].
  set (p2' := Progress.handle Timer_Stop p2).
  assert (E2' : disabling_elements (Progress.base p2') =
                disabling_elements (Progress.base p)) by by rewrite <- E1, <- E2.
  assert (Other2' : forall e, e ∉ disabling_elements (Progress.base p) ->
            Enabled (Progress.base p2') !! e = Enabled (Progress.base p) !! e).
  { intros e Hout'. rewrite <- Other1 by done.
    rewrite <- Other2; [done|]. by rewrite E1. }
  destruct (enable_elements_flags true (Progress.base p2')) as [On Other3].
  rewrite E2' in On, Other3.
  assert (Hfinal : forall p', 
            p' = Progress.handle Call_handle_task_finished p2' \/
            p' = Progress.Pulse (Progress.handle Call_handle_task_finished p2') ->
            Progress.start_button p' = true /\
            Progress.stop_button p' = false /\
            timer (Progress.base p') = false /\
            Enabled (Progress.base p') =
              Enabled (enable_elements true (Progress.base p2'))).
  { intros p' [->| ->]; done. }
  match goal with
  | |- context [if ?d then ?a else ?b] =>
      destruct (Hfinal (if d then a else b)) as (F1 & F2 & F3 & F4);
      [destruct d; auto|]
  end.
  rewrite F1, F2, F3, F4, O3, I3. repeat split; try done.
  intros e Hout'. rewrite Other3 by done. by apply Other2'.
Qed.

Lemma handle_item_label (item : OutputItem) (p : Progress.Panel) :
  progress_label
    (Progress.base (foldl (fun p c => Progress.handle c p) p
                      (item_calls item))) =
  default (progress_label (Progress.base p)) (progress_msg item).
Proof.
  destruct item as [l d pm pv started finished].
  unfold item_calls, fields, field_calls; simpl.
  destruct l, (is_not_None d), pm, pv, started, finished; reflexivity.
Qed.

Lemma taking_label (q : list OutputItem) :
  forall p,
    progress_label
      (Progress.base (foldl (fun p c => Progress.handle c p) p
                        (flat_map item_calls q))) =
    last_message q (progress_label (Progress.base p)).
Proof.
  induction q as [|item q IH]; intros p; [done|].
  cbn [flat_map]. rewrite foldl_app, IH, handle_item_label. done.
Qed.

Lemma last_message_log_items (lines : list string) (label : string) :
  last_message (map log_item lines) label = label.
Proof.
  unfold last_message. revert label.
  induction lines as [|line lines IH]; [done|].
  intros label. cbn [map foldl]. apply IH.
Qed.

Lemma last_message_app (q1 q2 : list OutputItem) (label : string) :
  last_message (q1 ++ q2) label = last_message q2 (last_message q1 label).
Proof. apply foldl_app. Qed.

Lemma last_message_logged (q : list OutputItem) (msg : string)
    (value : option Z) (lines : list string) (label : string) :
  last_message
    (q ++ progress_items msg value ++ map log_item lines ++ [finished_item])
    label = msg.
Proof.
  unfold progress_items.
  rewrite !last_message_app, !last_message_log_items. reflexivity.
Qed.

(** How [work] ends, after the steps of the branch of its tool. *)
Lemma work_ends (tools : string) (params : gmap string PyVal) (id : nat) :
  params !! "mc" = Some (VMc id) ->
  work tools params =
  fst (dispatch tools params (VMc id)) ++
  match snd (dispatch tools params (VMc id)) with
  | inr _ => [Task.Call_handle_progress id "Process completed!" None]
  | inl e =>
      if is_Exception e
      then [Task.Call_handle_progress id "Error occurred!" None;
            Call_log_error id e; Step_print_exc]
      else [Step_uncaught]
  end.
Proof.
  intros Hmc. unfold work, work_script.
  rewrite (getitem_Some _ _ _ Hmc), sbind_sret.
  unfold try_except_else.
  destruct (dispatch tools params (VMc id)) as [steps [e|[]]]; cbn [fst snd].
  - destruct (is_Exception e); reflexivity.
  - reflexivity.
Qed.

Lemma last_message_lifecycle (q rest : list OutputItem) (label : string) :
  last_message (q ++ started_item :: rest ++ [finished_item]) label =
  last_message (q ++ rest) label.
Proof. unfold last_message. by rewrite !foldl_app; cbn; rewrite foldl_app. Qed.

Lemma puts_cancellation (ds : list nat) :
  puts (cancellation ds) = progress_items "Process terminated!" None.
Proof.
  unfold cancellation.
  change (Ev Supervisor ATerminate :: ?l)
    with ([Ev Supervisor ATerminate] ++ l).
  by rewrite !puts_app, puts_kills, puts_progress_events.
Qed.

(** X12. The label of a progress panel tells how the task ended. After
    a click on Start, a round of the supervisor in which the task ends,
    and the next [on_timer], the label reads 'Process terminated!' when
    the task was cancelled, 'Process completed!' when the child exited
    and the branch of its tool returned, and 'Error occurred!' when it
    exited and the branch raised an instance of [Exception]; when
    something else was raised no message ends the task and the label
    keeps the last message there was. *)
Theorem label_tells_how_the_task_ended (tools : string)
    (params : gmap string PyVal) (p : Progress.Panel) (r : Round)
    (w : World) :
  _input_queue w = [] ->
  submitted r = [] ->
  length (work tools (<["mc" := VMc (mc_id w)]> params))
    <= startup r + scheduled (ticks r) ->
  let branch :=
    dispatch tools (<["mc" := VMc (mc_id w)]> params) (VMc (mc_id w)) in
  let p1 := fst (fst (Progress.on_start_button (inr (tools, params)) p w)) in
  let w1 := snd (Progress.on_start_button (inr (tools, params)) p w) in
  let w2 := snd (task_iteration r w1) in
  let label :=
    progress_label (Progress.base (fst (Progress.on_timer p1 w2))) in
  match fst (task_iteration r w1) with
  | Some Terminated => label = "Process terminated!"
  | Some Exited =>
      match snd branch with
      | inr _ => label = "Process completed!"
      | inl e =>
          if is_Exception e then label = "Error occurred!"
          else label =
               last_message (_output_queue w ++ flat_map step_puts (fst branch))
                            "Processing..."
      end
  | _ => False
  end.
Proof.
  intros Hq Hsub Hlen. cbn zeta.
  destruct (on_start_button_leaves tools params p w)
    as (_ & _ & _ & L1 & _ & _ & _ & _ & W1).
  cbn zeta in *.
  set (p1 := fst (fst (Progress.on_start_button (inr (tools, params)) p w)))
    in *.
  set (w1 := snd (Progress.on_start_button (inr (tools, params)) p w)) in *.
  set (item := {| tool := tools; params := params |}) in *.
  assert (Id1 : mc_id w1 = mc_id w) by by rewrite W1.
  assert (O1 : _output_queue w1 = _output_queue w) by by rewrite W1.
  assert (Hq1 : _input_queue w1 ++ submitted r = item :: []).
  { rewrite W1, Hsub, Hq. reflexivity. }
  destruct (iteration_shape r w1 item [] Hq1)
    as (result & body & tail & Hres & (_ & Hout & _) & _ & Hcancels & _
        & Hends).
  assert (Hlabel : forall w2,
            progress_label (Progress.base (fst (Progress.on_timer p1 w2))) =
            last_message (_output_queue w2) "Processing...").
  { intros w2. destruct (on_timer_progress p1 w2) as (w3 & E & _).
    rewrite E. cbn [fst]. rewrite <- L1, <- taking_label.
    by destruct (Progress.determinate _). }
  rewrite Hlabel. rewrite Hres.
  destruct result.
  - (* the child exited *)
    rewrite (exited_task_output r w1 item [] Hq1 Hres), Id1, O1.
    cbn [tool Message.params item].
    rewrite (work_ends _ _ (mc_id w)) by apply lookup_mc.
    set (branch := dispatch _ _ _).
    destruct (snd branch) as [e|[]].
    + destruct (is_Exception e).
      * rewrite flat_map_app. cbn [flat_map step_puts]. rewrite !app_nil_r.
        rewrite <- (last_message_logged
                      (_output_queue w ++
                       started_item :: flat_map step_puts (fst branch))
                      "Error occurred!" None (error_lines e)
                      "Processing...") at 2.
        f_equal. repeat (rewrite <- ?app_assoc; cbn [app]). reflexivity.
      * rewrite flat_map_app. cbn [flat_map step_puts]. rewrite !app_nil_r.
        apply last_message_lifecycle.
    + rewrite flat_map_app. cbn [flat_map step_puts]. rewrite !app_nil_r.
      rewrite <- (last_message_logged
                    (_output_queue w ++
                     started_item :: flat_map step_puts (fst branch))
                    "Process completed!" None [] "Processing...") at 2.
      f_equal. repeat (rewrite <- ?app_assoc; cbn [app map]). reflexivity.
  - (* the task was cancelled *)
    destruct Hcancels as (late & k & t & _ & _ & _ & ->).
    rewrite Hout, !puts_app. cbn [closing].
    change (Ev Supervisor (AGetInstruction TERMINATE) ::
            late ++ cancellation (descendants t))
      with ([Ev Supervisor (AGetInstruction TERMINATE)] ++
            late ++ cancellation (descendants t)).
    rewrite !puts_app, puts_cancellation.
    change (puts finishing) with [finished_item].
    rewrite !app_assoc, <- !(app_assoc _ (progress_items _ _)).
    apply (last_message_logged _ _ None []).
  - apply Hends; [|done]. rewrite Id1. exact Hlen.
Qed.

Lemma handle_item_log (item : OutputItem) (p : Progress.Panel) :
  log_text_field
    (Progress.base (foldl (fun p c => Progress.handle c p) p
                      (item_calls item))) =
  logged [item] (log_text_field (Progress.base p)).
Proof.
  destruct item as [l d pm pv started finished].
  unfold item_calls, fields, field_calls; simpl.
  destruct l, (is_not_None d), pm, pv, started, finished; reflexivity.
Qed.

Lemma taking_log (q : list OutputItem) :
  forall p,
    log_text_field
      (Progress.base (foldl (fun p c => Progress.handle c p) p
                        (flat_map item_calls q))) =
    logged q (log_text_field (Progress.base p)).
Proof.
  induction q as [|item q IH]; intros p; [done|].
  cbn [flat_map]. rewrite foldl_app, IH, handle_item_log. done.
Qed.

Lemma logged_lifecycle (q rest : list OutputItem) (text : string) :
  logged (q ++ started_item :: rest ++ [finished_item]) text =
  logged (q ++ rest) text.
Proof. unfold logged. by rewrite !foldl_app; cbn; rewrite foldl_app. Qed.

(** X13. The log field shows the log lines of the task. A click on
    Start clears the field; when the task is left alone and its child
    ends within the round, the field holds after the next [on_timer]
    the lines that were still on the output queue and then, in the
    order of the calls of the child on the message center, the lines of
    its log events, each on a line of its own: the lines it has logged,
    those of [log_error], and for each progress message, 'Process
    completed!' or 'Error occurred!' included, the lines with which the
    base class logs the message. *)
Theorem log_shows_the_lines_of_the_task (tools : string)
    (params : gmap string PyVal) (p : Progress.Panel) (r : Round)
    (w : World) :
  _input_queue w = [] ->
  submitted r = [] ->
  undisturbed r w ->
  length (work tools (<["mc" := VMc (mc_id w)]> params))
    <= startup r + scheduled (ticks r) ->
  let p1 := fst (fst (Progress.on_start_button (inr (tools, params)) p w)) in
  let w1 := snd (Progress.on_start_button (inr (tools, params)) p w) in
  let w2 := snd (task_iteration r w1) in
  log_text_field (Progress.base p1) = "" /\
  log_text_field (Progress.base (fst (Progress.on_timer p1 w2))) =
    logged (_output_queue w ++
            flat_map step_puts
              (work tools (<["mc" := VMc (mc_id w)]> params)))
           "".
Proof.
  intros Hq Hsub (Hpending & Hidle & Hsent) Hlen. cbn zeta.
  destruct (on_start_button_leaves tools params p w)
    as (_ & _ & _ & _ & L1 & _ & _ & _ & W1).
  cbn zeta in *.
  set (p1 := fst (fst (Progress.on_start_button (inr (tools, params)) p w)))
    in *.
  set (w1 := snd (Progress.on_start_button (inr (tools, params)) p w)) in *.
  set (item := {| tool := tools; params := params |}) in *.
  assert (Id1 : mc_id w1 = mc_id w) by by rewrite W1.
  assert (O1 : _output_queue w1 = _output_queue w) by by rewrite W1.
  assert (Hq1 : _input_queue w1 ++ submitted r = item :: []).
  { rewrite W1, Hsub, Hq. reflexivity. }
  assert (Hres : fst (task_iteration r w1) = Some Exited).
  { apply (undisturbed_task_exits r w1 item [] Hq1).
    - split; [by rewrite W1|done].
    - rewrite Id1. exact Hlen. }
  split; [exact L1|].
  destruct (on_timer_progress p1 (snd (task_iteration r w1)))
    as (w3 & E & _).
  rewrite E. cbn [fst].
  rewrite (exited_task_output r w1 item [] Hq1 Hres), Id1, O1.
  cbn [tool Message.params item].
  rewrite <- logged_lifecycle, <- L1, <- taking_log.
  by destruct (Progress.determinate _).
Qed.

Lemma start_task_leaves (tools : string) (params : gmap string PyVal)
    (p : Indicator.Panel) (w : World) :
  let item := {| tool := tools; params := params |} in
  let p1 := fst (fst (Indicator.start_task (inr (tools, params)) p w)) in
  let w1 := snd (Indicator.start_task (inr (tools, params)) p w) in
  (Indicator.loading_widget_shown p1 = false /\
   Indicator.indicator_panel_shown p1 = true /\
   Indicator.indicator_playing p1 = true /\
   progress_label (Indicator.base p1) = "Loading..." /\
   timer (Indicator.base p1) = true /\
   Forall (fun e => Enabled (Indicator.base p1) !! e = Some false)
          (disabling_elements (Indicator.base p))) /\
  disabling_elements (Indicator.base p1) =
    disabling_elements (Indicator.base p) /\
  (forall e, e ∉ disabling_elements (Indicator.base p) ->
             Enabled (Indicator.base p1) !! e =
             Enabled (Indicator.base p) !! e) /\
  w1 = {| mc_id := mc_id w;
          _instruction_queue := _instruction_queue w;
          _input_queue := _input_queue w ++ [item];
          _output_queue := _output_queue w;
          trace := trace w ++ [Ev Controller (APutInput item)] |}.
Proof.
  cbn zeta.
  unfold Indicator.start_task, start_task, bind, send_input, ret.
  cbn [fst snd].
  set (b := set_log_text_field "" _).
  destruct (enable_elements_flags false b) as [Hoff Hother].
  repeat split; try done.
Qed.

Lemma indicator_windows (cs : list UiCall) :
  forall p,
    let p' := foldl (fun p c => Indicator.handle c p) p cs in
    disabling_elements (Indicator.base p') =
      disabling_elements (Indicator.base p) /\
    (forall e, e ∉ disabling_elements (Indicator.base p) ->
               Enabled (Indicator.base p') !! e =
               Enabled (Indicator.base p) !! e).
Proof.
  induction cs as [|c cs IH]; intros p; cbn zeta; [done|].
  cbn [foldl]. destruct (IH (Indicator.handle c p)) as [Hes Hflags].
  cbn zeta in *.
  assert (Hc : disabling_elements (Indicator.base (Indicator.handle c p)) =
               disabling_elements (Indicator.base p) /\
               (forall e, e ∉ disabling_elements (Indicator.base p) ->
                          Enabled (Indicator.base (Indicator.handle c p)) !! e =
                          Enabled (Indicator.base p) !! e)).
  { destruct c; try done. simpl. split; [done|].
    apply (enable_elements_flags true (Indicator.base p)). }
  destruct Hc as [Hc1 Hc2]. rewrite Hes, Hc1. split; [done|].
  intros e Hout. rewrite Hflags; [by apply Hc2|]. by rewrite Hc1.
Qed.

(** X14. An indicator panel shows its indicator for as long as the task
    runs. [start_task] hides the widget being loaded, shows and plays
    the indicator under 'Loading...', disables the disabling elements
    and sends the Input Item; once the supervisor has run that task to
    its end, the next [on_timer] shows the widget again, hides and stops
    the indicator, clears the label, stops the timer and enables the
    disabling elements, the flag of no other window being changed. *)
Theorem indicator_runs_with_the_task (tools : string)
    (params : gmap string PyVal) (p : Indicator.Panel) (r : Round)
    (w : World) :
  _input_queue w = [] ->
  submitted r = [] ->
  length (work tools (<["mc" := VMc (mc_id w)]> params))
    <= startup r + scheduled (ticks r) ->
  let elements := disabling_elements (Indicator.base p) in
  let p1 := fst (fst (Indicator.start_task (inr (tools, params)) p w)) in
  let w1 := snd (Indicator.start_task (inr (tools, params)) p w) in
  let w2 := snd (task_iteration r w1) in
  let p3 := fst (Indicator.on_timer p1 w2) in
  let w3 := snd (Indicator.on_timer p1 w2) in
  (Indicator.loading_widget_shown p1 = false /\
   Indicator.indicator_panel_shown p1 = true /\
   Indicator.indicator_playing p1 = true /\
   progress_label (Indicator.base p1) = "Loading..." /\
   timer (Indicator.base p1) = true /\
   Forall (fun e => Enabled (Indicator.base p1) !! e = Some false) elements)
  /\
  In (Ev Supervisor (AStart tools (<["mc" := VMc (mc_id w)]> params)))
     (trace w2) /\
  (Indicator.loading_widget_shown p3 = true /\
   Indicator.indicator_panel_shown p3 = false /\
   Indicator.indicator_playing p3 = false /\
   progress_label (Indicator.base p3) = "" /\
   timer (Indicator.base p3) = false /\
   Forall (fun e => Enabled (Indicator.base p3) !! e = Some true) elements /\
   (forall e, e ∉ elements ->
              Enabled (Indicator.base p3) !! e =
              Enabled (Indicator.base p) !! e) /\
   _output_queue w3 = [] /\ _input_queue w3 = []).
Proof.
  intros Hq Hsub Hlen. cbn zeta.
  destruct (start_task_leaves tools params p w) as (S1 & E1 & Other1 & W1).
  cbn zeta in *.
  set (p1 := fst (fst (Indicator.start_task (inr (tools, params)) p w))) in *.
  set (w1 := snd (Indicator.start_task (inr (tools, params)) p w)) in *.
  set (item := {| tool := tools; params := params |}) in *.
  assert (Id1 : mc_id w1 = mc_id w) by by rewrite W1.
  assert (Hq1 : _input_queue w1 ++ submitted r = item :: []).
  { rewrite W1, Hsub, Hq. reflexivity. }
  destruct (iteration_shape r w1 item [] Hq1)
    as (result & body & tail & Hres & (Htr & Hout & _) & _ & _ & Hin & Hends).
  assert (Hresult : result <> StillPolling).
  { apply Hends. rewrite Id1. exact Hlen. }
  split; [exact S1|]. split.
  { rewrite Htr, Id1. apply in_or_app. right. apply in_or_app. right.
    apply in_or_app. left. unfold starting. simpl. auto. }
  set (w2 := snd (task_iteration r w1)) in *.
  assert (Hlast : exists q, _output_queue w2 = q ++ [finished_item]).
  { rewrite Hout, !puts_app.
    assert (Hclose : puts (closing result) = [finished_item])
      by by destruct result.
    rewrite Hclose, !app_assoc. eauto. }
  destruct Hlast as [q Hq2].
  unfold Indicator.on_timer, bind, ret.
  destruct (on_timer_drained
              {| timer_running := timer (Indicator.base p1); calls := [] |} w2)
    as (w3 & E & O3 & I3 & _).
  rewrite E. cbn [fst snd calls app].
  rewrite Hq2, flat_map_app, foldl_app.
  set (p2 := foldl _ p1 (flat_map item_calls q)).
  destruct (indicator_windows (flat_map item_calls q) p1) as [E2 Other2].
  cbn zeta in E2, Other2. fold p2 in E2, Other2.
  change (flat_map item_calls [finished_item])
    with [Timer_Stop; Call_handle_task_finished].
  cbn [foldl].
  set (p2' := Indicator.handle Timer_Stop p2).
  assert (E2' : disabling_elements (Indicator.base p2') =
                disabling_elements (Indicator.base p)) by by rewrite <- E1, <- E2.
  assert (Other2' : forall e, e ∉ disabling_elements (Indicator.base p) ->
            Enabled (Indicator.base p2') !! e =
            Enabled (Indicator.base p) !! e).
  { intros e Hout'. rewrite <- Other1 by done.
    rewrite <- Other2; [done|]. by rewrite E1. }
  destruct (enable_elements_flags true (Indicator.base p2')) as [On Other3].
  rewrite E2' in On, Other3.
  rewrite O3, I3. repeat split; try done.
  intros e Hout'. cbn. rewrite <- Other2' by done. by apply Other3.
Qed.

End WithByase.

End CycleFacts.

(** ** The requests of the panels, and the plot *)

Module RequestFacts.
Import Message Task Observe Measures Requests Plotting Agreement.
Import WorkFacts LoaderFacts.

(** X16. The panels and [work] agree on the tools. Every request that a
    [provide_tool] of the program builds names one of the six tools of
    [work], so that no request of the panels meets the chain of [work]
    without a branch; and none has a key ['mc'], so that the
    supervisor's [params['mc'] = mc] replaces nothing: the params the
    child gets are those of the panel with ['mc'] added. *)
Theorem panels_request_known_tools (float : string -> PyExc + PyVal)
    (annotation : AnnotationForm) (task_dir result_dir : string)
    (plot_dir plot_id : PyVal) (inference : Inference.Form) :
  let requests :=
    [annotation_provide_tool annotation; config_provide_tool task_dir;
     result_provide_tool result_dir; plot_provide_tool plot_dir plot_id] ++
    match Inference.provide_tool float inference with
    | inr (request, _) => [request]
    | inl _ => []
    end in
  Forall known_request requests /\
  Forall (fun request =>
            forall id, delete "mc" (<["mc" := VMc id]> (snd request)) =
                       snd request) requests.
Proof.
  cbn zeta.
  assert (Hknown : Forall known_request
    ([annotation_provide_tool annotation; config_provide_tool task_dir;
      result_provide_tool result_dir; plot_provide_tool plot_dir plot_id] ++
     match Inference.provide_tool float inference with
     | inr (request, _) => [request]
     | inl _ => []
     end)).
  { apply Forall_app. split.
    - repeat constructor.
    - unfold Inference.provide_tool.
      destruct (Inference.resume_mode inference).
      + destruct (Inference.task_df inference); repeat constructor.
      + destruct (Inference.float_if _ _ _); [constructor|].
        destruct (Inference.float_if _ _ _); [constructor|].
        destruct (Inference.task_df inference); repeat constructor. }
  split; [exact Hknown|].
  eapply Forall_impl; [exact Hknown|].
  intros request [_ Hmc] id.
  rewrite delete_insert_eq. by apply delete_id.
Qed.

Lemma split_last_space (before after : string) :
  forall cur,
    Str.split_last_from 0 " " cur
      (before +:+ String (Ascii.ascii_of_nat 32) after) =
    Str.split_last " " after.
Proof.
  induction before as [|c before IH]; intros cur.
  - change ("" +:+ String (Ascii.ascii_of_nat 32) after)
      with (String (Ascii.ascii_of_nat 32) after).
    cbn [Str.split_last_from].
    replace (String.prefix " " (String (Ascii.ascii_of_nat 32) after))
      with true by (by destruct after).
    reflexivity.
  - change (String c before +:+ String (Ascii.ascii_of_nat 32) after)
      with (String c (before +:+ String (Ascii.ascii_of_nat 32) after)).
    cbn [Str.split_last_from].
    destruct (String.prefix " " _); apply IH.
Qed.

(** X17. The Plot button plots the task whose details are shown. The
    task id that [on_plot_button] reads back from the label of the
    details is the one [set_detail_label] wrote, when the id holds no
    space; of an id with spaces it is what follows the last of them;
    and with no task selected the label reads back as 'Task'. *)
Theorem plot_button_reads_the_task_id (task_id res_dir : string)
    (detail_df : option Frame) :
  on_plot_button (set_detail_label (Some task_id)) res_dir detail_df =
    (3, (res_dir, Str.split_last " " task_id, detail_df)) /\
  (Str.contains " " task_id = false ->
   Str.split_last " " task_id = task_id) /\
  on_plot_button (set_detail_label None) res_dir detail_df =
    (3, (res_dir, "Task", detail_df)).
Proof.
  split; [|split; [apply split_last_absent|reflexivity]].
  unfold on_plot_button. do 3 f_equal.
  apply (split_last_space "Details of Task:" task_id "").
Qed.

Section WithByase.
Context `{Byase}.

(** X18. The plot, from the child to the plot view. For 'plot' the
    child hands over, after what [plot_task] has emitted, one pair of
    'html path' and the path that [plot_task] returned, and then
    reports 'Process completed!'; when [plot_task] raised, the error is
    reported and no pair is handed over. [PlotPanel.handle_data] answers
    that pair by loading the file of the path, and raises [TypeError]
    when the path is no string. *)
Theorem plot_reports (params : gmap string PyVal) (id : nat) :
  params !! "mc" = Some (VMc id) ->
  work "plot" params =
    map (emit_step id) (emitted (plot_task params)) ++
    match outcome (plot_task params) with
    | inl e => raised id e
    | inr html_path =>
        [Task.Call_handle_data id (VPair (VStr "html path") html_path);
         completed id]
    end /\
  forall html_path,
    handle_data (VPair (VStr "html path") html_path) =
    match html_path with
    | VStr path => inr (Some ("file://" +:+ path))
    | _ => inl TypeError
    end.
Proof.
  intros Hmc. split; [|reflexivity].
  unfold work, work_script.
  rewrite (getitem_Some _ _ _ Hmc), sbind_sret.
  unfold dispatch; simpl. unfold raised.
  destruct (outcome (plot_task params)) as [e|html_path].
  - simpl. destruct (is_Exception e); reflexivity.
  - cbn. by rewrite <- app_assoc.
Qed.

End WithByase.

End RequestFacts.

(** ** A click on Stop that comes too late *)

Module LateStopFacts.
Import Message Task LongRunning Observe Panels Desk LateStop.
Import MessageFacts PollerFacts WorkFacts SupervisorFacts PanelFacts
  CycleFacts.

(** Events without a lifecycle flag leave the buttons as they are. *)
Lemma taking_unflagged (q : list OutputItem) :
  forall p,
    Forall (fun item => task_started item = false /\
                        task_finished item = false) q ->
    let p' := foldl (fun p c => Progress.handle c p) p
                (flat_map item_calls q) in
    Progress.stop_button p' = Progress.stop_button p /\
    Progress.start_button p' = Progress.start_button p.
Proof.
  induction q as [|item q IH]; intros p Hq; cbn zeta; [done|].
  apply Forall_cons in Hq as [[Hs Hf] Hq].
  cbn [flat_map]. rewrite foldl_app.
  destruct (handle_item item p) as (Hstop & Hstart & _).
  cbn zeta in Hstop, Hstart. rewrite Hs, Hf in Hstop. rewrite Hf in Hstart.
  destruct (IH (foldl (fun p c => Progress.handle c p) p (item_calls item)) Hq)
    as [IHstop IHstart].
  cbn zeta in IHstop, IHstart. by rewrite IHstop, IHstart, Hstop, Hstart.
Qed.

Section WithByase.
Context `{Byase}.

(** X19. A click on Stop that comes too late cancels the next task. The
    Stop button stays enabled until the timer of the panel has taken
    [task_finished]. When the supervisor has ended the task and Stop is
    clicked before that, the [TERMINATE] is not taken by anyone: the
    next [on_timer] frees the panel, and the next task started from it
    is cancelled at the first look of the supervisor at the instruction
    queue, if its child is alive then, with no click on Stop for it. *)
Theorem late_stop_cancels_the_next_task (tools : string)
    (params : gmap string PyVal) (p : Progress.Panel) (w : World)
    (q : list OutputItem) (r : Round) (t : Tick) (ts : list Tick) :
  Progress.stop_button p = true ->
  timer (Progress.base p) = true ->
  _output_queue w = q ++ [finished_item] ->
  _instruction_queue w = [] ->
  _input_queue w = [] ->
  submitted r = [] ->
  ticks r = t :: ts ->
  startup r < length (work tools (<["mc" := VMc (mc_id w)]> params)) ->
  let after := happenings (stop_then_start (tools, params)) p w in
  (Progress.start_button (fst after) = false /\
   Progress.stop_button (fst after) = false /\
   timer (Progress.base (fst after)) = true) /\
  (_instruction_queue (snd after) = [TERMINATE] /\
   _input_queue (snd after) = [{| tool := tools; params := params |}] /\
   _output_queue (snd after) = []) /\
  fst (task_iteration r (snd after)) = Some Terminated /\
  _instruction_queue (snd (task_iteration r (snd after))) =
    idle_sent r ++ sent t.
Proof.
  intros Hstop Htimer Hout Hinstr Hin Hsub Hticks Halive. cbn zeta.
  unfold stop_then_start. cbn [happenings]. unfold bind, ret.
  (* the click on Stop *)
  destruct (happen Stop_clicked p w) as [p1' w1] eqn:E1.
  cbn [happen] in E1. rewrite Hstop in E1.
  destruct (on_stop_button_trace p w) as (P1 & _ & O1 & Q1 & I1 & Id1).
  cbn zeta in P1, O1, Q1, I1, Id1. rewrite E1 in P1, O1, Q1, I1, Id1.
  cbn [fst snd] in P1, O1, Q1, I1, Id1. subst p1'. clear E1.
  set (p1 := Progress.set_stop_button false p).
  (* the timer *)
  destruct (happen Timer_fired p1 w1) as [p3 w2] eqn:E2.
  cbn [happen] in E2.
  change (timer (Progress.base p1)) with (timer (Progress.base p)) in E2.
  rewrite Htimer in E2.
  destruct (on_timer_progress p1 w1) as (w2' & E2' & O2 & I2 & Q2 & Id2 & _).
  rewrite O1, Hout, <- app_assoc, !flat_map_app, !foldl_app in E2'.
  set (p2 := foldl _ p1 (flat_map item_calls q)) in E2'.
  change (flat_map item_calls [finished_item])
    with [Timer_Stop; Call_handle_task_finished] in E2'.
  cbn [foldl] in E2'.
  set (p2' := Progress.handle Call_handle_task_finished
                (Progress.handle Timer_Stop p2)) in E2'.
  destruct (taking_unflagged
              (progress_items "Waiting backend process to respond..." None)
              p2' (progress_items_flags _ _)) as [Hstop2 Hstart2].
  cbn zeta in Hstop2, Hstart2.
  rewrite E2' in E2. injection E2 as E2 <-.
  assert (Hstart3 : Progress.start_button p3 = true).
  { rewrite <- E2. destruct (Progress.determinate _); exact Hstart2. }
  assert (Hstop3 : Progress.stop_button p3 = false).
  { rewrite <- E2. destruct (Progress.determinate _); exact Hstop2. }
  clear E2.
  (* the click on Start *)
  destruct (happen (Start_clicked (inr (tools, params))) p3 w2')
    as [p4 w4] eqn:E4.
  cbn [happen] in E4. rewrite Hstart3 in E4. unfold bind, ret in E4.
  destruct (on_start_button_leaves tools params p3 w2')
    as (S4 & T4' & T4 & _ & _ & _ & _ & _ & W4).
  cbn zeta in *.
  destruct (Progress.on_start_button (inr (tools, params)) p3 w2')
    as [[p4' raised] w4'].
  cbn [fst snd] in *. injection E4 as <- <-.
  assert (Hinstr4 : _instruction_queue w4' = [TERMINATE]).
  { rewrite W4. cbn [_instruction_queue]. by rewrite Q2, Q1, Hinstr. }
  assert (Hin4 : _input_queue w4' = [{| tool := tools; params := params |}]).
  { rewrite W4. cbn [_input_queue]. by rewrite I2, I1, Hin. }
  assert (Hout4 : _output_queue w4' = []).
  { rewrite W4. cbn [_output_queue]. exact O2. }
  assert (Id4 : mc_id w4' = mc_id w).
  { rewrite W4. cbn [mc_id]. by rewrite Id2, Id1. }
  cbn [fst snd].
  split; [by rewrite S4, T4', T4, Hstop3|]. split; [done|].
  rename w4' into w4.
  (* the next task *)
  set (item := {| tool := tools; params := params |}) in *.
  assert (Hq4 : _input_queue w4 ++ submitted r = item :: []).
  { by rewrite Hin4, Hsub. }
  destruct (iteration_polls r w4 item [] Hq4)
    as (w5 & Q5 & Id5 & Hres & Hinstr5 & _).
  cbn zeta in Hres, Hinstr5. rewrite Hres, Hinstr5, Hticks.
  cbn [tool Message.params item] in *. rewrite Id4 in *.
  set (child0 := work tools (<["mc" := VMc (mc_id w)]> params)) in *.
  assert (Hchild0 : Forall (targets (mc_id w5)) (drop (startup r) child0)).
  { rewrite Id5. apply Forall_drop, work_targets, lookup_mc. }
  destruct (drop (startup r) child0) as [|s steps] eqn:Hdrop.
  { apply (f_equal length) in Hdrop. rewrite length_drop in Hdrop.
    simpl in Hdrop. lia. }
  destruct (poll_step t ts s steps w5 Hchild0) as (w6 & Q6 & _ & _ & Hstep).
  rewrite Q5, Hinstr4 in Q6. cbn [app] in Q6. rewrite Q6 in Hstep.
  destruct Hstep as (-> & -> & _). done.
Qed.

End WithByase.

End LateStopFacts.

(** ** The theorems on sample runs *)

Module SampleRuns.
Import Message Task LongRunning Observe Measures Schedule Panels Desk.
Import LateStop Samples.
Import LoaderFacts PanelFacts CycleFacts RequestFacts LateStopFacts.

#[local] Existing Instance sample_center.

Lemma load_task_reports_witness :
  @work sample_db "load-task"
    (<["mc" := VMc 7]> (<["task_dir" := VStr "bad"]> ∅)) =
  except_steps 7 AssertionError.
Proof.
  rewrite (@load_task_reports sample_db _ 7) by reflexivity.
  reflexivity.
Defined.

Example load_task_of_two_tasks :
  @work sample_db "load-task"
    (<["mc" := VMc 7]> (<["task_dir" := VStr "good"]> ∅)) =
  [Task.Call_handle_data 7
     (VFrame [("Number", [CInt 1; CInt 2]);
              ("Task ID", [CStr "t1"; CStr "t2"]);
              ("Gene Name", [CStr "g1"; CStr "g2"]);
              ("Genomic Location", [CStr "1:5"; CStr "2:9"]);
              ("Isoforms", [CInt 2; CInt 4]);
              ("Phased", [CStr "Phased"; CStr "Non-Phased"]);
              ("SNPs", [CInt 3; CInt 1]);
              ("Status", [CStr "Waiting"; CStr "Waiting"])]);
   Task.Call_handle_progress 7 "Process completed!" None].
Proof. reflexivity. Qed.

Lemma stats_reports_witness :
  @work sample_db "stats" (<["mc" := VMc 7]> ∅) =
  Call_handle_log 7 "summarizing" ::
  except_steps 7 (KeyError "isoform-level path").
Proof.
  rewrite (@stats_reports sample_db _ 7) by reflexivity.
  reflexivity.
Defined.

Lemma stop_sends_one_terminate_per_task_witness :
  stop_in_step (fst (happenings two_clicks_on_stop panel_0 world0))
               (snd (happenings two_clicks_on_stop panel_0 world0)) /\
  sent_instructions
    (trace (snd (happenings two_clicks_on_stop panel_0 world0))) =
  [TERMINATE].
Proof.
  split.
  - apply stop_sends_one_terminate_per_task. vm_compute. lia.
  - vm_compute. reflexivity.
Defined.

Lemma start_submits_one_task_at_a_time_witness :
  start_in_step
    (fst (happenings
            [Start_clicked (inr ("gen-task", ∅));
             Start_clicked (inr ("gen-task", ∅))] panel_0 world0))
    (snd (happenings
            [Start_clicked (inr ("gen-task", ∅));
             Start_clicked (inr ("gen-task", ∅))] panel_0 world0)) /\
  length
    (sent_inputs
       (trace (snd (happenings
                      [Start_clicked (inr ("gen-task", ∅));
                       Start_clicked (inr ("gen-task", ∅))]
                      panel_0 world0)))) = 1.
Proof.
  split.
  - apply start_submits_one_task_at_a_time. vm_compute. lia.
  - vm_compute. reflexivity.
Defined.

Lemma finished_task_frees_the_panel_witness :
  Progress.start_button
    (fst (Progress.on_timer
            (fst (fst (Progress.on_start_button (inr ("gen-task", ∅))
                         panel_0 world0)))
            (snd (@task_iteration sample_byase round_left_alone
                    (snd (Progress.on_start_button (inr ("gen-task", ∅))
                            panel_0 world0)))))) = true.
Proof.
  destruct (@finished_task_frees_the_panel sample_byase "gen-task" ∅
              panel_0 round_left_alone world0)
    as (_ & _ & Hfree & _).
  - reflexivity.
  - reflexivity.
  - vm_compute. lia.
  - exact Hfree.
Defined.

Lemma label_tells_how_the_task_ended_witness :
  progress_label
    (Progress.base
       (fst (Progress.on_timer
               (fst (fst (Progress.on_start_button (inr ("gen-task", ∅))
                            panel_0 world0)))
               (snd (@task_iteration sample_byase round_stopped
                       (snd (Progress.on_start_button (inr ("gen-task", ∅))
                               panel_0 world0))))))) =
  "Process terminated!".
Proof.
  pose proof (@label_tells_how_the_task_ended sample_byase "gen-task" ∅
                panel_0 round_stopped world0 eq_refl eq_refl) as Hlabel.
  assert (Hlen :
    length (@work sample_byase "gen-task" (<["mc" := VMc (mc_id world0)]> ∅))
    <= startup round_stopped + scheduled (ticks round_stopped))
    by (vm_compute; lia).
  specialize (Hlabel Hlen). cbn zeta in Hlabel.
  assert (Hres :
    fst (@task_iteration sample_byase round_stopped
           (snd (Progress.on_start_button (inr ("gen-task", ∅))
                   panel_0 world0))) = Some Terminated)
    by (vm_compute; reflexivity).
  rewrite Hres in Hlabel. exact Hlabel.
Defined.

Lemma log_shows_the_lines_of_the_task_witness :
  log_text_field
    (Progress.base
       (fst (Progress.on_timer
               (fst (fst (Progress.on_start_button (inr ("gen-task", ∅))
                            panel_0 world0)))
               (snd (@task_iteration sample_byase round_left_alone
                       (snd (Progress.on_start_button (inr ("gen-task", ∅))
                               panel_0 world0))))))) =
  "reading" +:+ Str.newline +:+
  ("INFO | half" +:+ Str.newline) +:+
  ("INFO | Process completed!" +:+ Str.newline).
Proof.
  destruct (@log_shows_the_lines_of_the_task sample_byase "gen-task" ∅
              panel_0 round_left_alone world0)
    as [_ Hlog].
  - reflexivity.
  - reflexivity.
  - repeat constructor.
  - vm_compute. lia.
  - rewrite Hlog. vm_compute. reflexivity.
Defined.

Lemma indicator_runs_with_the_task_witness :
  Indicator.loading_widget_shown
    (fst (Indicator.on_timer
            (fst (fst (Indicator.start_task (inr ("load-task", ∅))
                         indicator_0 world0)))
            (snd (@task_iteration sample_byase round_left_alone
                    (snd (Indicator.start_task (inr ("load-task", ∅))
                            indicator_0 world0)))))) = true.
Proof.
  destruct (@indicator_runs_with_the_task sample_byase "load-task" ∅
              indicator_0 round_left_alone world0)
    as (_ & _ & Hshown & _).
  - reflexivity.
  - reflexivity.
  - vm_compute. lia.
  - exact Hshown.
Defined.

Lemma inference_start_needs_a_task_table_witness :
  snd (fst (Inference.on_start_button float_0 inference_0 world0)) =
    Some Task.AttributeError /\
  dead (Inference.panel
          (fst (fst (Inference.on_start_button float_0 inference_0 world0)))).
Proof.
  destruct (inference_start_needs_a_task_table float_0 inference_0 world0)
    as (_ & _ & Hdead & _).
  - reflexivity.
  - reflexivity.
  - reflexivity.
  - split; [reflexivity|exact Hdead].
Defined.

Lemma plot_reports_witness :
  @work sample_byase "plot" (<["mc" := VMc 7]> ∅) =
  [Task.Call_handle_data 7 (VPair (VStr "html path") (VStr "/tmp/p.html"));
   completed 7].
Proof.
  destruct (@plot_reports sample_byase (<["mc" := VMc 7]> ∅) 7)
    as [Hwork _]; [reflexivity|].
  rewrite Hwork. reflexivity.
Defined.

Lemma late_stop_cancels_the_next_task_witness :
  fst (@task_iteration sample_byase round_left_alone
         (snd (happenings (stop_then_start ("gen-task", ∅))
                 panel_running world_task_over))) = Some Terminated.
Proof.
  apply (@late_stop_cancels_the_next_task sample_byase "gen-task" ∅
           panel_running world_task_over [] round_left_alone
           (tick 1 []) [tick 5 []]).
  - reflexivity.
  - reflexivity.
  - reflexivity.
  - reflexivity.
  - reflexivity.
  - reflexivity.
  - reflexivity.
  - vm_compute. lia.
Defined.

End SampleRuns.
